(** * VirtualC64: D64 file system device, flash ROM, component states

    A shallow embedding of the parts of the emulator core that the
    specification makes checkable statements about:

    - [FS]: the D64 file system device of
      [Emulator/FileSystems/FSDevice.cpp];
    - [Flash]: the Am29F040B flash ROM command decoder
      ([Emulator/Cartridges/FlashRom.h]);
    - [Emu]: the snapshot interval and the stop request of [Emulator/C64.h]
      and the component state model documented in [HardwareComponent.h];
    - [FSOps]: further operations of the device (byte access, directory
      capacity, integrity check, search for corrupted blocks);
    - [FlashBank], [EmuTime], [EmuSnapshots]: banked flash addresses, the
      clock conversions and call sequences of [Emulator/C64.h];
    - [P00]: the P00 archive of [Emulator/Files/P00File.cpp].

    Machine integers are integers of [Z] with their wrap-around written out,
    C arrays are lists that are read and updated by index, pointers into the
    block storage are indices, and code that can run into a failed
    assertion or into an access outside an array lives in the option
    monad.  Definitions come first, the theorems follow. *)

From Stdlib Require Import ZArith Lia Bool.
From stdpp Require Import base option list.

Local Open Scope Z_scope.

(** ** Machine integers and bit macros *)

Definition u8 (z : Z) : Z := z mod 256.
Definition u32 (z : Z) : Z := z mod 2 ^ 32.
Definition u64 (z : Z) : Z := z mod 2 ^ 64.

(** Modelled from the spec: the bit macros of the utility header, which is
    not part of the sources at hand.  The spec speaks of a BAM bit that is
    set, and of clearing it; the macros are the usual mask operations. *)
Definition GET_BIT (x nr : Z) : bool := negb (Z.land x (Z.shiftl 1 nr) =? 0).
Definition SET_BIT (x nr : Z) : Z := Z.lor x (Z.shiftl 1 nr).
Definition CLR_BIT (x nr : Z) : Z := Z.land x (Z.lnot (Z.shiftl 1 nr)).

Module FS.

(** ** Data model *)

(** The error codes that [FSDevice.cpp] names. *)
Inductive FSError := FS_OK | FS_WRONG_CAPACITY | FS_DIRECTORY_NOT_EMPTY.

(** [struct BlockRef { Track t; Sector s; }] *)
Record BlockRef := mkBlockRef { ref_t : Z; ref_s : Z }.

(** A block: its number, its 256 data bytes and the corruption counter
    that [check] maintains. *)
Record FSBlock := mkFSBlock { nr : Z; data : list Z; corrupted : Z }.

(** [FSDeviceDescriptor] is defined in a file that is not part of the
    sources at hand.  [FSDevice.cpp] uses it through the methods below, so
    the device is written against this interface; [DISK_SS_SD] further down
    is one instance. *)
Record FSDeviceDescriptor := mkFSDeviceDescriptor {
  numBlocks : Z;
  isTrackSectorPair : Z -> Z -> bool;
  isValidRef : BlockRef -> bool;
  translateBlockNr : Z -> Z -> Z;
  nextTrackAndSector : Z -> Z -> bool * (Z * Z);
  nextBlockRef : BlockRef -> BlockRef
}.

Record FSDevice := mkFSDevice {
  layout : FSDeviceDescriptor;
  blocks : list FSBlock
}.

Definition set_blocks (dev : FSDevice) (bs : list FSBlock) : FSDevice :=
  mkFSDevice (layout dev) bs.

Definition set_data (b : FSBlock) (d : list Z) : FSBlock :=
  mkFSBlock (nr b) d (corrupted b).

#[global] Instance FSBlock_inhabited : Inhabited FSBlock :=
  populate (mkFSBlock 0 [] 0).

(** [if (error) *error = e]: the out-parameter is [None] for a null
    pointer. *)
Definition set_error (error : option FSError) (e : FSError) : option FSError :=
  match error with Some _ => Some e | None => None end.

(** [assert(c)]: a failed assertion ends the run. *)
Definition assertion (c : bool) : option unit := if c then Some tt else None.

(** ** Block access *)

(** [FSDevice::blockPtr(Block b)]; a pointer to a block is its index. *)
Definition blockPtr (dev : FSDevice) (b : Z) : option nat :=
  if decide (b < Z.of_nat (length (blocks dev))) then Some (Z.to_nat b) else None.

(** [FSDevice::blockPtr(Track t, Sector s)]; the block number that the
    layout writes to [Block b] is a u32. *)
Definition blockPtr_ts (dev : FSDevice) (t s : Z) : option nat :=
  blockPtr dev (u32 (translateBlockNr (layout dev) t s)).

(** [FSDevice::blockPtr(BlockRef ref)] *)
Definition blockPtr_ref (dev : FSDevice) (ref : BlockRef) : option nat :=
  blockPtr dev (u32 (translateBlockNr (layout dev) (ref_t ref) (ref_s ref))).

(** [ptr->data[off]] as an rvalue; [None] outside the array. *)
Definition peek (dev : FSDevice) (p : nat) (off : Z) : option Z :=
  blk ← blocks dev !! p;
  if decide (0 <= off) then data blk !! Z.to_nat off else None.

(** [ptr->data[off] = v]; [None] outside the array. *)
Definition poke (dev : FSDevice) (p : nat) (off v : Z) : option FSDevice :=
  blk ← blocks dev !! p;
  if decide (0 <= off < Z.of_nat (length (data blk)))
  then Some (set_blocks dev
               (<[p := set_data blk (<[Z.to_nat off := v]> (data blk))]> (blocks dev)))
  else None.

Section BlockQueries.

(** The block classification types and [FSBlock::type],
    [FSBlock::itemType] belong to files that are not at hand. *)
Context {FSBlockType FSItemType : Type}.
Variable FS_UNKNOWN_BLOCK : FSBlockType.
Variable FSI_UNUSED : FSItemType.
Variable FSBlock_type : FSBlock -> FSBlockType.
Variable FSBlock_itemType : FSBlock -> Z -> FSItemType.

(** [FSDevice::blockType] *)
Definition blockType (dev : FSDevice) (nr : Z) : FSBlockType :=
  match blockPtr dev nr with
  | Some _ => FSBlock_type (blocks dev !!! Z.to_nat nr)
  | None => FS_UNKNOWN_BLOCK
  end.

(** [FSDevice::itemType] *)
Definition itemType (dev : FSDevice) (nr pos : Z) : FSItemType :=
  match blockPtr dev nr with
  | Some _ => FSBlock_itemType (blocks dev !!! Z.to_nat nr) pos
  | None => FSI_UNUSED
  end.

End BlockQueries.

(** [FSDevice::getCorrupted] *)
Definition getCorrupted (dev : FSDevice) (blockNr : Z) : Z :=
  match blockPtr dev blockNr with
  | Some _ => corrupted (blocks dev !!! Z.to_nat blockNr)
  | None => 0
  end.

(** ** Import and export *)

(** Modelled from the spec: [FSBlock::importBlock] and
    [FSBlock::exportBlock] (the block class is not part of the sources at
    hand).  Import copies the 256 bytes found at [src] into the block,
    export is the inverse and copies the block's bytes to [dst + off]. *)
Definition importBlock (b : FSBlock) (src : list Z) : FSBlock :=
  set_data b (take 256 src).

Definition exportBlock (b : FSBlock) (dst : list Z) (off : nat) : list Z :=
  take off dst ++ take (length dst - off)%nat (data b)
    ++ drop (off + length (data b)) dst.

(** [FSDevice::importVolume]; the buffer [src] of [size] bytes is the list
    [src].  The result is the device, the return value and the error slot. *)
Definition importVolume (dev : FSDevice) (src : list Z) (error : option FSError)
  : FSDevice * bool * option FSError :=
  let size := Z.of_nat (length src) in
  if decide (u64 (Z.of_nat (length (blocks dev)) * 256) ≠ size) then
    (dev, false, set_error error FS_WRONG_CAPACITY)
  else
    let bs := foldl (fun bs i => alter (fun b => importBlock b (drop (i * 256) src)) i bs)
                    (blocks dev) (seq 0 (length (blocks dev))) in
    (set_blocks dev bs, true, set_error error FS_OK).

(** [FSDevice::exportBlocks]; [dst] is the target buffer with its [size]
    bytes, the result is the return value, the buffer and the error slot. *)
Definition exportBlocks (dev : FSDevice) (first last : Z) (dst : list Z)
    (error : option FSError) : option (bool * list Z * option FSError) :=
  _ ← assertion (bool_decide (last < numBlocks (layout dev)));
  _ ← assertion (bool_decide (first <= last));
  let size := Z.of_nat (length dst) in
  let count := u32 (last - first + 1) in
  if decide (u32 (count * 256) ≠ size) then
    Some (false, dst, set_error error FS_WRONG_CAPACITY)
  else
    let wiped := replicate (length dst) 0 in
    let out := foldl (fun d i =>
                        exportBlock (blocks dev !!! (Z.to_nat first + i)%nat) d (i * 256))
                     wiped (seq 0 (Z.to_nat count)) in
    Some (true, out, set_error error FS_OK).

(** [FSDevice::exportVolume] *)
Definition exportVolume (dev : FSDevice) (dst : list Z) (error : option FSError)
  : option (bool * list Z * option FSError) :=
  exportBlocks dev 0 (u32 (numBlocks (layout dev) - 1)) dst error.

(** ** Block allocation map *)

(** Modelled from the spec: [FSDevice::bamPtr] is declared in the header,
    which is not at hand; the block at (18,0) holds the BAM. *)
Definition bamPtr (dev : FSDevice) : option nat := blockPtr_ts dev 18 0.

(** [FSDevice::locateAllocationBit(Track t, Sector s, u32 *byte, u32 *bit)];
    the result is the BAM block with the byte and bit position. *)
Definition locateAllocationBit (dev : FSDevice) (t s : Z)
  : option (option nat * Z * Z) :=
  _ ← assertion (isTrackSectorPair (layout dev) t s);
  Some (bamPtr dev, u32 (4 * t + 1 + Z.shiftr s 3), Z.land s 7).

(** [FSDevice::locateAllocationBit(BlockRef ref, u32 *byte, u32 *bit)] *)
Definition locateAllocationBit_ref (dev : FSDevice) (ref : BlockRef)
  : option (option nat * Z * Z) :=
  _ ← assertion (isValidRef (layout dev) ref);
  Some (bamPtr dev, u32 (4 * ref_t ref + 1 + Z.shiftr (ref_s ref) 3),
        Z.land (ref_s ref) 7).

(** [FSDevice::isFree(Track t, Sector s)] *)
Definition isFree (dev : FSDevice) (t s : Z) : option bool :=
  '(bam, byte, bit) ← locateAllocationBit dev t s;
  p ← bam;
  x ← peek dev p byte;
  Some (GET_BIT x bit).

(** [FSDevice::isFree(BlockRef ref)] *)
Definition isFree_ref (dev : FSDevice) (ref : BlockRef) : option bool :=
  '(bam, byte, bit) ← locateAllocationBit_ref dev ref;
  p ← bam;
  x ← peek dev p byte;
  Some (GET_BIT x bit).

(** The loop of [FSDevice::nextFreeBlock]; the source loop has no bound, so
    the walk is given fuel and [None] also stands for fuel that ran out. *)
Fixpoint nextFreeBlock_loop (fuel : nat) (dev : FSDevice) (ref : BlockRef)
  : option BlockRef :=
  match fuel with
  | O => None
  | S fuel' =>
      if decide (ref_t ref = 0) then Some ref
      else
        free ← isFree_ref dev ref;
        if (free : bool) then Some ref
        else nextFreeBlock_loop fuel' dev (nextBlockRef (layout dev) ref)
  end.

(** [FSDevice::nextFreeBlock] *)
Definition nextFreeBlock (fuel : nat) (dev : FSDevice) (ref : BlockRef)
  : option BlockRef :=
  if isValidRef (layout dev) ref then nextFreeBlock_loop fuel dev ref
  else Some (mkBlockRef 0 0).

(** [FSDevice::setAllocationBit(Track t, Sector s, bool value)] *)
Definition setAllocationBit (dev : FSDevice) (t s : Z) (value : bool)
  : option FSDevice :=
  '(bam, byte, bit) ← locateAllocationBit dev t s;
  p ← bam;
  x ← peek dev p byte;
  dev1 ← (if value && negb (GET_BIT x bit) then
            d ← poke dev p byte (SET_BIT x bit);
            c ← peek d p (Z.land byte (Z.lnot 3));
            poke d p (Z.land byte (Z.lnot 3)) (u8 (c + 1))
          else Some dev);
  x1 ← peek dev1 p byte;
  if negb value && GET_BIT x1 bit then
    d ← poke dev1 p byte (CLR_BIT x1 bit);
    c ← peek d p (Z.land byte (Z.lnot 3));
    poke d p (Z.land byte (Z.lnot 3)) (u8 (c - 1))
  else Some dev1.

(** Modelled from the spec: [FSDevice::markAsAllocated] is an inline
    method of the header, which is not at hand; allocating a block clears
    its BAM bit and decrements the free count of its track. *)
Definition markAsAllocated (dev : FSDevice) (t s : Z) : option FSDevice :=
  setAllocationBit dev t s false.

(** The [for] loop of [FSDevice::allocate]; the state is the device, the
    running reference, the result vector and the block linked last. *)
Fixpoint allocate_loop (n : nat) (dev : FSDevice) (ref : BlockRef)
    (result : list BlockRef) (block : option nat)
  : option (FSDevice * list BlockRef * option nat) :=
  match n with
  | O => Some (dev, result, block)
  | S n' =>
      let result' := result ++ [ref] in
      dev1 ← markAsAllocated dev (ref_t ref) (ref_s ref);
      let block' := blockPtr_ts dev1 (ref_t ref) (ref_s ref) in
      let '(_, (t', s')) := nextTrackAndSector (layout dev1) (ref_t ref) (ref_s ref) in
      p ← block';
      dev2 ← poke dev1 p 0 (u8 t');
      dev3 ← poke dev2 p 1 (u8 s');
      allocate_loop n' dev3 (mkBlockRef t' s') result' block'
  end.

(** [FSDevice::allocate(BlockRef ref, u32 n)] *)
Definition allocate (fuel : nat) (dev : FSDevice) (ref : BlockRef) (n : Z)
  : option (FSDevice * list BlockRef) :=
  _ ← assertion (bool_decide (n > 0));
  ref' ← nextFreeBlock fuel dev ref;
  if decide (ref_t ref' ≠ 0) then
    '(dev1, result, block) ← allocate_loop (Z.to_nat n) dev ref' [] None;
    p ← block;
    dev2 ← poke dev1 p 0 0;
    dev3 ← poke dev2 p 1 0;
    Some (dev3, result)
  else Some (dev, []).

(** The BAM entry of track [t]: the free count at offset [4t] and the
    number of bits set in the three bitmap bytes that follow it. *)
Definition byteAt (d : list Z) (i : Z) : Z := default 0 (d !! Z.to_nat i).

Definition popcount8 (x : Z) : Z :=
  foldr (fun i acc => Z.b2z (Z.testbit x i) + acc) 0 (seqZ 0 8).

Definition freeCount (d : list Z) (t : Z) : Z := byteAt d (4 * t).

Definition bitmapCount (d : list Z) (t : Z) : Z :=
  popcount8 (byteAt d (4 * t + 1)) + popcount8 (byteAt d (4 * t + 2))
  + popcount8 (byteAt d (4 * t + 3)).

(** The BAM block of a device is in place: 256 bytes, each a [u8]. *)
Definition bamBlock (dev : FSDevice) (d : list Z) : Prop :=
  exists p blk, bamPtr dev = Some p /\ blocks dev !! p = Some blk /\ data blk = d
    /\ length d = 256%nat /\ Forall (fun x => 0 <= x < 256) d.

(** The operations that change allocation bits. *)
Inductive BamOp :=
  | SetAllocationBit (t s : Z) (value : bool)
  | MarkAsAllocated (t s : Z).

Definition bamOp_track (op : BamOp) : Z :=
  match op with SetAllocationBit t _ _ | MarkAsAllocated t _ => t end.

Definition bamOp_sector (op : BamOp) : Z :=
  match op with SetAllocationBit _ s _ | MarkAsAllocated _ s => s end.

Definition runBamOp (dev : FSDevice) (op : BamOp) : option FSDevice :=
  match op with
  | SetAllocationBit t s value => setAllocationBit dev t s value
  | MarkAsAllocated t s => markAsAllocated dev t s
  end.

Fixpoint runBamOps (dev : FSDevice) (ops : list BamOp) : option FSDevice :=
  match ops with
  | [] => Some dev
  | op :: rest => dev' ← runBamOp dev op; runBamOps dev' rest
  end.

(** The BAM has room for the tracks and sectors of a layout: four bytes per
    track within the 256 bytes of the block, 24 bits per track. *)
Definition layoutFitsBAM (l : FSDeviceDescriptor) : Prop :=
  forall t s, isTrackSectorPair l t s = true -> 0 <= t < 64 /\ 0 <= s < 24.

(** ** Directory *)

(** A pointer to a directory entry: the block and the slot (0..7) of the
    32-byte entry within the block's data. *)
Record FSDirEntryPtr := mkEntryPtr { entry_block : nat; entry_slot : Z }.

#[global] Instance FSDirEntryPtr_eq_dec : EqDecision FSDirEntryPtr.
Proof. solve_decision. Defined.

(** The 32 bytes that a directory entry pointer points to. *)
Definition entryBytes (dev : FSDevice) (e : FSDirEntryPtr) : option (list Z) :=
  blk ← blocks dev !! entry_block e;
  let bytes := take 32 (drop (Z.to_nat (32 * entry_slot e)) (data blk)) in
  if decide (length bytes = 32%nat) then Some bytes else None.

(** [FSDevice::nextBlockPtr(FSBlock *ptr)] *)
Definition nextBlockPtr (dev : FSDevice) (ptr : option nat) : option (option nat) :=
  match ptr with
  | Some p =>
      t ← peek dev p 0;
      s ← peek dev p 1;
      Some (blockPtr_ts dev t s)
  | None => Some None
  end.

Section Directory.

(** [FSDirEntry::isEmpty] and [FSDirEntry::isHidden] belong to a file
    that is not at hand; they are predicates on the 32 bytes of an
    entry. *)
Variable isEmpty : list Z -> bool.
Variable isHidden : list Z -> bool.

(** The loop of [FSDevice::scanDirectory]; [n] counts down the
    iterations that are left until [i] reaches 144. *)
Fixpoint scanDirectory_loop (dev : FSDevice) (skipInvisible : bool) (n : nat)
    (i : Z) (ptr : option nat) (result : list FSDirEntryPtr)
  : option (list FSDirEntryPtr) :=
  match n, ptr with
  | S n', Some p =>
      let entry := mkEntryPtr p (i mod 8) in
      e ← entryBytes dev entry;
      if isEmpty e then Some result
      else
        let result' :=
          if negb (skipInvisible && isHidden e) then result ++ [entry]
          else result in
        ptr' ← (if decide (i mod 8 = 7) then nextBlockPtr dev ptr else Some ptr);
        scanDirectory_loop dev skipInvisible n' (i + 1) ptr' result'
  | _, _ => Some result
  end.

(** [FSDevice::scanDirectory] *)
Definition scanDirectory (dev : FSDevice) (skipInvisible : bool)
  : option (list FSDirEntryPtr) :=
  scanDirectory_loop dev skipInvisible 144 0 (blockPtr_ts dev 18 1) [].

(** The loop of [FSDevice::nextFreeDirEntry] *)
Fixpoint nextFreeDirEntry_loop (dev : FSDevice) (n : nat) (i : Z)
    (ptr : option nat) : option (option FSDirEntryPtr) :=
  match n, ptr with
  | S n', Some p =>
      let entry := mkEntryPtr p (i mod 8) in
      e ← entryBytes dev entry;
      if isEmpty e then Some (Some entry)
      else
        ptr' ← (if decide (i mod 8 = 7) then nextBlockPtr dev ptr else Some ptr);
        nextFreeDirEntry_loop dev n' (i + 1) ptr'
  | _, _ => Some None
  end.

(** [FSDevice::nextFreeDirEntry] *)
Definition nextFreeDirEntry (dev : FSDevice) : option (option FSDirEntryPtr) :=
  nextFreeDirEntry_loop dev 144 0 (blockPtr_ts dev 18 1).

End Directory.

(** Every block of the device has its 256 data bytes. *)
Definition wfBlocks (dev : FSDevice) : Prop :=
  forall p blk, blocks dev !! p = Some blk -> length (data blk) = 256%nat.

(** Two devices of the same layout and size. *)
Definition sameShape (dev dev' : FSDevice) : Prop :=
  layout dev' = layout dev /\ length (blocks dev') = length (blocks dev).

(** The directory slots in the order of the chain: up to [n] slots from
    slot number [i] on, eight per block, on to the linked block after the
    eighth and to the end where the link names no block. *)
Fixpoint dirSlots (dev : FSDevice) (n : nat) (i : Z) (ptr : option nat)
  : option (list FSDirEntryPtr) :=
  match n, ptr with
  | S n', Some p =>
      ptr' ← (if decide (i mod 8 = 7) then nextBlockPtr dev ptr else Some ptr);
      rest ← dirSlots dev n' (i + 1) ptr';
      Some (mkEntryPtr p (i mod 8) :: rest)
  | _, _ => Some []
  end.

(** The bytes of a slot, and the part of a list before its first element
    that satisfies [stop]. *)
Definition entryOf (dev : FSDevice) (e : FSDirEntryPtr) : list Z :=
  default [] (entryBytes dev e).

Fixpoint before {A : Type} (stop : A -> bool) (l : list A) : list A :=
  match l with
  | [] => []
  | x :: rest => if stop x then [] else x :: before stop rest
  end.

Section DirectoryAsStated.

(** The directory scan as the specification words it, for comparison with
    [scanDirectory]: the walk stops when the first entry of a sector is
    empty or after 144 entries, and every entry met before that is listed
    if it is not empty (and not hidden, when those are skipped). *)
Variable isEmpty : list Z -> bool.
Variable isHidden : list Z -> bool.

Fixpoint scanDirectory_stated_loop (dev : FSDevice) (skipInvisible : bool)
    (n : nat) (i : Z) (ptr : option nat) (result : list FSDirEntryPtr)
  : option (list FSDirEntryPtr) :=
  match n, ptr with
  | S n', Some p =>
      let entry := mkEntryPtr p (i mod 8) in
      e ← entryBytes dev entry;
      if bool_decide (i mod 8 = 0) && isEmpty e then Some result
      else
        let result' :=
          if negb (isEmpty e) && negb (skipInvisible && isHidden e)
          then result ++ [entry] else result in
        ptr' ← (if decide (i mod 8 = 7) then nextBlockPtr dev ptr else Some ptr);
        scanDirectory_stated_loop dev skipInvisible n' (i + 1) ptr' result'
  | _, _ => Some result
  end.

Definition scanDirectory_stated (dev : FSDevice) (skipInvisible : bool)
  : option (list FSDirEntryPtr) :=
  scanDirectory_stated_loop dev skipInvisible 144 0 (blockPtr_ts dev 18 1) [].

End DirectoryAsStated.

(** ** Files *)

(** The reference that [allocate] moves on to from [ref]: the outputs of
    [nextTrackAndSector], whatever it returns. *)
Definition nextRef (l : FSDeviceDescriptor) (ref : BlockRef) : BlockRef :=
  let '(_, (t', s')) := nextTrackAndSector l (ref_t ref) (ref_s ref) in
  mkBlockRef t' s'.

(** The [n] references from [ref] on in that order. *)
Fixpoint chainRefs (l : FSDeviceDescriptor) (n : nat) (ref : BlockRef)
  : list BlockRef :=
  match n with
  | O => []
  | S n' => ref :: chainRefs l n' (nextRef l ref)
  end.

(** The block number of a reference, and the byte at offset [off] of block
    [p] of a device. *)
Definition blockOf (l : FSDeviceDescriptor) (ref : BlockRef) : Z :=
  u32 (translateBlockNr l (ref_t ref) (ref_s ref)).

Definition cell (dev : FSDevice) (p : nat) (off : Z) : Z :=
  byteAt (data (blocks dev !!! p)) off.

Definition ptrOf (l : FSDeviceDescriptor) (ref : BlockRef) : nat :=
  Z.to_nat (blockOf l ref).

(** A run of references that a file can be written to on a device with
    [n] blocks: each is a track and sector pair of the layout whose track
    and sector fit a link byte, each names a block of the device other than
    the BAM block and the first directory block, and no block is named
    twice. *)
Definition chainOk (l : FSDeviceDescriptor) (n : Z) (refs : list BlockRef) : Prop :=
  Forall (fun r => isTrackSectorPair l (ref_t r) (ref_s r) = true
                   /\ 1 <= ref_t r < 256 /\ 0 <= ref_s r < 256
                   /\ blockOf l r < n
                   /\ blockOf l r <> blockOf l (mkBlockRef 18 0)
                   /\ blockOf l r <> blockOf l (mkBlockRef 18 1)) refs
  /\ NoDup (blockOf l <$> refs).



(** Modelled from the spec: [FSDirEntry::init] (the entry class is not part
    of the sources at hand).  The entry is filled with the file type PRG,
    the first track and sector, the name padded with 0xA0 and the block
    count as low and high byte; the fields sit at their D64 offsets (type
    2, first track and sector 3 and 4, name 5..20, block count 30 and 31).
    The two leading bytes, which in the first slot are the link of the
    block, are left alone. *)
Definition FILETYPE_PRG : Z := 0x82.

Definition padName (name : list Z) : list Z :=
  take 16 (name ++ replicate 16 0xA0).

Fixpoint poke_list (dev : FSDevice) (p : nat) (off : Z) (bytes : list Z)
  : option FSDevice :=
  match bytes with
  | [] => Some dev
  | b :: rest => dev' ← poke dev p off b; poke_list dev' p (off + 1) rest
  end.

Definition FSDirEntry_init (dev : FSDevice) (dir : FSDirEntryPtr)
    (name : list Z) (ref : BlockRef) (numBlocks : Z) : option FSDevice :=
  let base := 32 * entry_slot dir in
  dev1 ← poke_list dev (entry_block dir) (base + 2)
            ([FILETYPE_PRG; u8 (ref_t ref); u8 (ref_s ref)] ++ padName name);
  poke_list dev1 (entry_block dir) (base + 30)
            [Z.land numBlocks 0xFF; Z.land (Z.shiftr numBlocks 8) 0xFF].

(** Modelled from the spec: [FSDirEntry::isEmpty]; a slot is free when
    nothing but zeroes follows its two leading bytes. *)
Definition FSDirEntry_isEmpty (e : list Z) : bool :=
  forallb (fun b => b =? 0) (drop 2 e).

(** The data loop of [FSDevice::makeFile]: [it] is the position of the
    iterator in [blockList], [ptr] the block written to and [j] the offset
    in it. *)
Fixpoint makeFile_write (dev : FSDevice) (blockList : list BlockRef) (it : nat)
    (ptr : option nat) (j : Z) (buf : list Z) : option FSDevice :=
  match buf with
  | [] => Some dev
  | byte :: rest =>
      if decide (j = 0x100) then
        ref ← blockList !! S it;
        let ptr' := blockPtr_ref dev ref in
        p ← ptr';
        dev' ← poke dev p 2 byte;
        makeFile_write dev' blockList (S it) ptr' 3 rest
      else
        p ← ptr;
        dev' ← poke dev p j byte;
        makeFile_write dev' blockList it ptr (j + 1) rest
  end.

(** [FSDevice::makeFile(const char *name, FSDirEntry *dir, const u8 *buf,
    size_t cnt)]; [allocate(numBlocks)] is the one-argument overload of the
    header and starts at (1,0). *)
Definition makeFile_dir (fuel : nat) (dev : FSDevice) (name : list Z)
    (dir : FSDirEntryPtr) (buf : list Z) : option (FSDevice * bool) :=
  let cnt := Z.of_nat (length buf) in
  let numBlocks := u32 (u64 (cnt + 253) / 254) in
  '(dev1, blockList) ← allocate fuel dev (mkBlockRef 1 0) numBlocks;
  match blockList with
  | [] => Some (dev1, false)
  | first :: _ =>
      dev2 ← makeFile_write dev1 blockList 0 (blockPtr_ref dev1 first) 2 buf;
      dev3 ← FSDirEntry_init dev2 dir name first numBlocks;
      Some (dev3, true)
  end.

Section MakeFile.

Variable isEmpty : list Z -> bool.

(** The slot search of [FSDevice::makeFile(const char *name, const u8
    *buf, size_t cnt)] *)
Fixpoint makeFile_loop (fuel : nat) (dev : FSDevice) (name buf : list Z)
    (n : nat) (i : Z) (ptr : option nat) : option (FSDevice * bool) :=
  match n, ptr with
  | S n', Some p =>
      let dir := mkEntryPtr p (i mod 8) in
      e ← entryBytes dev dir;
      if isEmpty e then makeFile_dir fuel dev name dir buf
      else
        ptr' ← (if decide (i mod 8 = 7) then nextBlockPtr dev ptr else Some ptr);
        makeFile_loop fuel dev name buf n' (i + 1) ptr'
  | _, _ => Some (dev, true)
  end.

(** [FSDevice::makeFile(const char *name, const u8 *buf, size_t cnt)] *)
Definition makeFile (fuel : nat) (dev : FSDevice) (name buf : list Z)
  : option (FSDevice * bool) :=
  makeFile_loop fuel dev name buf 144 0 (blockPtr_ts dev 18 1).

End MakeFile.

(** Modelled from the spec: reading a file back (the sources at hand have
    no reader): each block starts with the link to the next block, (0,0)
    ends the chain, and the remaining 254 bytes carry payload. *)
Fixpoint readChain (fuel : nat) (dev : FSDevice) (t s : Z) : option (list Z) :=
  match fuel with
  | O => None
  | S fuel' =>
      p ← blockPtr_ts dev t s;
      blk ← blocks dev !! p;
      t' ← data blk !! 0%nat;
      s' ← data blk !! 1%nat;
      let payload := take 254 (drop 2 (data blk)) in
      if decide (t' = 0 ∧ s' = 0) then Some payload
      else rest ← readChain fuel' dev t' s'; Some (payload ++ rest)
  end.

(** The fields of a directory entry, read from its 32 bytes. *)
Definition entry_fileType (e : list Z) : Z := default 0 (e !! 2%nat).
Definition entry_firstTrack (e : list Z) : Z := default 0 (e !! 3%nat).
Definition entry_firstSector (e : list Z) : Z := default 0 (e !! 4%nat).
Definition entry_fileName (e : list Z) : list Z := take 16 (drop 5 e).
Definition entry_fileSize (e : list Z) : Z :=
  default 0 (e !! 30%nat) + 256 * default 0 (e !! 31%nat).

(** ** The single-sided, single-density disk *)

(** Modelled from the spec: the layout class [FSDeviceDescriptor] for
    [DISK_SS_SD].  The spec gives 683 blocks, tracks counted from 1 with
    21, 19, 18 and 17 sectors (tracks 1-17, 18-24, 25-30, 31 and up), the
    blocks numbered in track and sector order, and the next-block order:
    from (t,s) on to (t, (s + interleave) mod sectors), interleave 10 for
    data and 3 for the directory track; when the track is exhausted (the
    walk is back at sector 0) the tracks follow from 17 downward, then from
    19 upward, and track 18 is skipped.  A pair that is not on the disk
    translates to the block number [(Block)-1], which no device has, and a
    failed [nextTrackAndSector] leaves its outputs as they were. *)
Definition numTracks : Z := 35.

Definition numSectors (t : Z) : Z :=
  if decide (1 <= t <= 17) then 21
  else if decide (18 <= t <= 24) then 19
  else if decide (25 <= t <= 30) then 18
  else if decide (31 <= t <= numTracks) then 17
  else 0.

Definition SS_SD_isTrackSectorPair (t s : Z) : bool :=
  bool_decide (1 <= t <= numTracks ∧ 0 <= s < numSectors t).

Definition SS_SD_translateBlockNr (t s : Z) : Z :=
  if SS_SD_isTrackSectorPair t s
  then foldr Z.add 0 (numSectors <$> seqZ 1 (t - 1)) + s
  else 2 ^ 32 - 1.

Definition SS_SD_next (t s : Z) : option (Z * Z) :=
  let s' := (s + (if decide (t = 18) then 3 else 10)) mod numSectors t in
  if decide (s' ≠ 0) then Some (t, s')
  else if decide (t = 18) then None
  else if decide (2 <= t <= 17) then Some (t - 1, 0)
  else if decide (t = 1) then Some (19, 0)
  else if decide (t < numTracks) then Some (t + 1, 0)
  else None.

Definition DISK_SS_SD : FSDeviceDescriptor := {|
  numBlocks := 683;
  isTrackSectorPair := SS_SD_isTrackSectorPair;
  isValidRef := fun ref => SS_SD_isTrackSectorPair (ref_t ref) (ref_s ref);
  translateBlockNr := SS_SD_translateBlockNr;
  nextTrackAndSector := fun t s =>
    match SS_SD_next t s with
    | Some ts => (true, ts)
    | None => (false, (t, s))
    end;
  nextBlockRef := fun ref =>
    match SS_SD_next (ref_t ref) (ref_s ref) with
    | Some (t, s) => mkBlockRef t s
    | None => mkBlockRef 0 0
    end
|}.

(** [FSDevice::makeWithFormat(FSDeviceDescriptor &layout)]: one block per
    block number; a new block holds zeroes. *)
Definition makeWithFormat (l : FSDeviceDescriptor) : FSDevice :=
  mkFSDevice l ((fun i => mkFSBlock i (replicate 256 0) 0) <$> seqZ 0 (numBlocks l)).

(** Modelled from the spec: the empty BAM that formatting writes to
    (18,0): the link to (18,1) and, for each track, the number of its
    sectors followed by three bitmap bytes with one set bit per sector. *)
Definition emptyBAM : list Z :=
  [18; 1; 0; 0]
  ++ mbind (fun t => let n := numSectors t in
                     let bits := 2 ^ n - 1 in
                     [n; Z.land bits 255; Z.land (Z.shiftr bits 8) 255;
                      Z.land (Z.shiftr bits 16) 255]) (seqZ 1 numTracks)
  ++ replicate 112 0.

(** The empty disk: the blocks that [makeWithFormat] creates, with the
    empty BAM in block (18,0).  In the code the BAM is written by
    [FSBlock::writeBAM], which is not at hand; [makeWithFormat] alone
    leaves the block zeroed. *)
Definition formatted : FSDevice :=
  let dev := makeWithFormat DISK_SS_SD in
  set_blocks dev (alter (fun b => set_data b emptyBAM) 357%nat (blocks dev)).

(** A formatted disk whose first directory block has a file in slots 0 and
    2 and nothing in slot 1. *)
Definition dirWithGap : FSDevice :=
  set_blocks formatted
    (alter (fun b => set_data b (<[2%nat := FILETYPE_PRG]>
                                   (<[66%nat := FILETYPE_PRG]> (data b))))
           358%nat (blocks formatted)).

(** A formatted disk on which (1,0) is the only free block. *)
Definition oneFreeBlock : FSDevice :=
  set_blocks formatted
    (alter (fun b => set_data b ([18; 1; 0; 0; 1; 1] ++ replicate 250 0))
           357%nat (blocks formatted)).

End FS.

Module Flash.

(** ** The Am29F040B flash ROM *)

(** [FlashRom::FlashRomState] *)
Inductive FlashRomState :=
  | FLASH_READ
  | FLASH_MAGIC_1
  | FLASH_MAGIC_2
  | FLASH_AUTOSELECT
  | FLASH_BYTE_PROGRAM
  | FLASH_BYTE_PROGRAM_ERROR
  | FLASH_ERASE_MAGIC_1
  | FLASH_ERASE_MAGIC_2
  | FLASH_ERASE_SELECT
  | FLASH_CHIP_ERASE
  | FLASH_SECTOR_ERASE
  | FLASH_SECTOR_ERASE_TIMEOUT
  | FLASH_SECTOR_ERASE_SUSPEND.

#[global] Instance FlashRomState_eq_dec : EqDecision FlashRomState.
Proof. solve_decision. Defined.

(** The members of [FlashRom] that the command decoder works on; the ROM
    bytes are a function of the address. *)
Record FlashRom := mkFlashRom {
  state : FlashRomState;
  baseState : FlashRomState;
  rom : Z -> Z
}.

(** [FlashRom::firstCommandAddr] *)
Definition firstCommandAddr (addr : Z) : bool :=
  bool_decide (Z.land addr 0x7FF = 0x555).

(** [FlashRom::secondCommandAddr] *)
Definition secondCommandAddr (addr : Z) : bool :=
  bool_decide (Z.land addr 0x7FF = 0x2AA).

Definition sectorSize : Z := 0x10000.

(** Modelled from the spec: [FlashRom::doByteProgram], [doChipErase] and
    [doSectorErase], which are only declared in the header.  Programming
    can only clear bits ([byte &= v]), erasing fills with 0xFF, the whole
    chip or the 64 KiB sector of the address. *)
Definition doByteProgram (f : Z -> Z) (addr value : Z) : Z -> Z :=
  fun a => if decide (a = addr) then Z.land (f a) value else f a.

Definition doChipErase (f : Z -> Z) : Z -> Z := fun _ => 0xFF.

Definition doSectorErase (f : Z -> Z) (addr : Z) : Z -> Z :=
  fun a => if decide (a / sectorSize = addr / sectorSize) then 0xFF else f a.

(** Modelled from the spec: [FlashRom::poke], which is only declared in the
    header.  The transitions are those of section 4.7 of the spec; a write
    that matches none of the patterns listed for a state returns the chip
    to [baseState] (section 3).  [baseState] is the state that the chip
    returns to after a completed command (section 3, and the comment at the
    member in the header): the two commands that put the chip into a mode
    of its own, autoselect and reset, make that mode the base state.  The
    reset command 0xF0 ends the autoselect mode (scenario 4). *)
Definition poke (f : FlashRom) (addr value : Z) : FlashRom :=
  let goto st := mkFlashRom st (baseState f) (rom f) in
  let mode st := mkFlashRom st st (rom f) in
  match state f with
  | FLASH_READ =>
      if firstCommandAddr addr && (value =? 0xAA) then goto FLASH_MAGIC_1 else f
  | FLASH_MAGIC_1 =>
      if secondCommandAddr addr && (value =? 0x55) then goto FLASH_MAGIC_2
      else goto (baseState f)
  | FLASH_MAGIC_2 =>
      if firstCommandAddr addr && (value =? 0xA0) then goto FLASH_BYTE_PROGRAM
      else if firstCommandAddr addr && (value =? 0x80) then goto FLASH_ERASE_MAGIC_1
      else if firstCommandAddr addr && (value =? 0x90) then mode FLASH_AUTOSELECT
      else if firstCommandAddr addr && (value =? 0xF0) then mode FLASH_READ
      else goto (baseState f)
  | FLASH_BYTE_PROGRAM =>
      mkFlashRom FLASH_READ (baseState f) (doByteProgram (rom f) addr value)
  | FLASH_ERASE_MAGIC_1 =>
      if firstCommandAddr addr && (value =? 0xAA) then goto FLASH_ERASE_MAGIC_2
      else goto (baseState f)
  | FLASH_ERASE_MAGIC_2 =>
      if secondCommandAddr addr && (value =? 0x55) then goto FLASH_ERASE_SELECT
      else goto (baseState f)
  | FLASH_ERASE_SELECT =>
      if firstCommandAddr addr && (value =? 0x10) then
        mkFlashRom FLASH_CHIP_ERASE (baseState f) (doChipErase (rom f))
      else if value =? 0x30 then
        mkFlashRom FLASH_SECTOR_ERASE (baseState f) (doSectorErase (rom f) addr)
      else goto (baseState f)
  | FLASH_AUTOSELECT =>
      if value =? 0xF0 then mode FLASH_READ else goto (baseState f)
  | _ => goto (baseState f)
  end.

(** Modelled from the spec: the chip before the first write ([_reset] is
    only declared in the header); it reads, and READ is its base state. *)
Definition fresh (bytes : Z -> Z) : FlashRom :=
  mkFlashRom FLASH_READ FLASH_READ bytes.

(** A sequence of writes, first write first. *)
Definition pokes (f : FlashRom) (ws : list (Z * Z)) : FlashRom :=
  foldl (fun f w => poke f w.1 w.2) f ws.

(** Modelled from the spec: [FlashRom::peek]; in autoselect mode address 0
    answers with the manufacturer id and address 1 with the device id. *)
Definition peek (f : FlashRom) (addr : Z) : Z :=
  match state f with
  | FLASH_AUTOSELECT =>
      if addr =? 0 then 0x01 else if addr =? 1 then 0xA4 else rom f addr
  | _ => rom f addr
  end.

End Flash.

Module Emu.

(** ** Snapshot interval and stop request ([C64.h]) *)

(** A [long] has 64 bits.  Signed arithmetic that leaves the range of the
    type is undefined; the operations below have no result then. *)
Definition LONG_MAX : Z := 2 ^ 63 - 1.
Definition LONG_MIN : Z := - 2 ^ 63.

Definition long_add (a b : Z) : option Z :=
  if bool_decide (LONG_MIN <= a + b <= LONG_MAX) then Some (a + b) else None.

Definition long_sub (a b : Z) : option Z :=
  if bool_decide (LONG_MIN <= a - b <= LONG_MAX) then Some (a - b) else None.

(** The members of [C64] that the operations below read or write. *)
Record C64 := mkC64 {
  stopFlag : bool;
  takeAutoSnapshots : bool;
  autoSnapshotInterval : Z
}.

(** [C64::requestStop] *)
Definition requestStop (c : C64) : C64 :=
  mkC64 true (takeAutoSnapshots c) (autoSnapshotInterval c).

(** [C64::suspendAutoSnapshots] *)
Definition suspendAutoSnapshots (c : C64) : option C64 :=
  i ← long_sub (autoSnapshotInterval c) (LONG_MAX / 2);
  Some (mkC64 (stopFlag c) (takeAutoSnapshots c) i).

(** [C64::resumeAutoSnapshots] *)
Definition resumeAutoSnapshots (c : C64) : option C64 :=
  i ← long_add (autoSnapshotInterval c) (LONG_MAX / 2);
  Some (mkC64 (stopFlag c) (takeAutoSnapshots c) i).

(** ** Component states ([HardwareComponent.h]) *)

Inductive EmulatorState :=
  | EMULATOR_STATE_OFF
  | EMULATOR_STATE_PAUSED
  | EMULATOR_STATE_RUNNING.

(** The delegation methods that a state change calls on each
    subcomponent. *)
Inductive Delegate := D_powerOn | D_powerOff | D_run | D_pause.

(** A component: its state, and as a record of what happened the states it
    has been put into and the delegation methods called, latest last. *)
Record HardwareComponent := mkHC {
  state : EmulatorState;
  history : list EmulatorState;
  calls : list Delegate
}.

Definition enter (st : EmulatorState) (d : Delegate) (c : HardwareComponent)
  : HardwareComponent :=
  mkHC st (history c ++ [st]) (calls c ++ [d]).

(** Modelled from the spec: [powerOn], [powerOff], [run] and [pause] are
    only declared in the header; the bodies follow the tables in their
    comments and the table in section 4.9 of the spec. *)
Definition powerOn (c : HardwareComponent) : HardwareComponent :=
  match state c with
  | EMULATOR_STATE_OFF => enter EMULATOR_STATE_PAUSED D_powerOn c
  | _ => c
  end.

(** Modelled from the spec: [pause] acts on a running component only. *)
Definition pause (c : HardwareComponent) : HardwareComponent :=
  match state c with
  | EMULATOR_STATE_RUNNING => enter EMULATOR_STATE_PAUSED D_pause c
  | _ => c
  end.

(** Modelled from the spec: [powerOff] pauses a running component before
    it switches it off. *)
Definition powerOff (c : HardwareComponent) : HardwareComponent :=
  match state c with
  | EMULATOR_STATE_OFF => c
  | _ => enter EMULATOR_STATE_OFF D_powerOff (pause c)
  end.

(** Modelled from the spec: [run] powers on a component that is off before
    it starts it. *)
Definition run (c : HardwareComponent) : HardwareComponent :=
  match state c with
  | EMULATOR_STATE_RUNNING => c
  | _ => enter EMULATOR_STATE_RUNNING D_run (powerOn c)
  end.

Inductive Event := E_powerOn | E_powerOff | E_run | E_pause.

Definition apply (c : HardwareComponent) (e : Event) : HardwareComponent :=
  match e with
  | E_powerOn => powerOn c
  | E_powerOff => powerOff c
  | E_run => run c
  | E_pause => pause c
  end.

(** A component starts in state [EMULATOR_STATE_OFF]. *)
Definition initial : HardwareComponent := mkHC EMULATOR_STATE_OFF [] [].

End Emu.

Module FSOps.
Import FS.

#[global] Instance BlockRef_eq_dec : EqDecision BlockRef.
Proof. solve_decision. Defined.

(** ** Reading and writing single bytes *)

(** [FSDevice::readByte] *)
Definition readByte (dev : FSDevice) (block offset : Z) : option Z :=
  _ ← assertion (bool_decide (offset < 256));
  _ ← assertion (bool_decide (block < Z.of_nat (length (blocks dev))));
  peek dev (Z.to_nat block) offset.

(** [FSDevice::writeByte]; the result is the device, the return value and
    the values of [*pt], [*ps] and [*pOffset] after the call.  The call of
    [translateBlockNr] into the unused locals [t2] and [s2] has no effect
    and is left out. *)
Definition writeByte (dev : FSDevice) (byte t s offset : Z)
  : option (FSDevice * bool * (Z * Z * Z)) :=
  _ ← assertion (isTrackSectorPair (layout dev) t s);
  _ ← assertion (bool_decide (2 <= offset <= 0x100));
  let ptr := blockPtr_ts dev t s in
  if decide (offset = 0x100) then
    let '(ok, (t', s')) := nextTrackAndSector (layout dev) t s in
    if (ok : bool) then
      dev1 ← markAsAllocated dev t' s';
      p ← ptr;
      dev2 ← poke dev1 p 0 (u8 t');
      dev3 ← poke dev2 p 1 (u8 s');
      p' ← blockPtr_ts dev3 t' s';
      dev4 ← poke dev3 p' 2 byte;
      Some (dev4, true, (t', s', 3))
    else Some (dev, false, (t, s, offset))
  else
    p ← ptr;
    dev' ← poke dev p offset byte;
    Some (dev', true, (t, s, offset + 1)).

(** ** Directory capacity *)

(** The loop of [FSDevice::setCapacity]; [n] counts the iterations that are
    left. *)
Fixpoint setCapacity_loop (n : nat) (dev : FSDevice) (t s : Z) (ptr : option nat)
  : option (FSDevice * bool) :=
  match n with
  | O => Some (dev, true)
  | S n' =>
      let '(ok, (t', s')) := nextTrackAndSector (layout dev) t s in
      if (ok : bool) then
        p ← ptr;
        dev1 ← poke dev p 0 (u8 t');
        dev2 ← poke dev1 p 1 (u8 s');
        setCapacity_loop n' dev2 t' s' (blockPtr_ts dev2 t' s')
      else Some (dev, false)
  end.

(** [FSDevice::setCapacity]; the loop runs for [i] from 1 as long as
    [i < numBlocks]. *)
Definition setCapacity (dev : FSDevice) (n : Z) : option (FSDevice * bool) :=
  _ ← assertion (bool_decide (n <= 144));
  let numBlocks := u32 (n + 7) / 8 in
  setCapacity_loop (Z.to_nat (numBlocks - 1)) dev 18 1 (blockPtr_ts dev 18 1).

(** The blocks that the directory consists of after [k] links from
    [(t,s)] on. *)
Fixpoint dirRefs (l : FSDeviceDescriptor) (k : nat) (t s : Z) : list BlockRef :=
  match k with
  | O => [mkBlockRef t s]
  | S k' =>
      let '(_, (t', s')) := nextTrackAndSector l t s in
      mkBlockRef t s :: dirRefs l k' t' s'
  end.

(** ** Export of single blocks *)

(** [FSDevice::exportBlock(u32 nr, u8 *dst, size_t size, FSError *error)] *)
Definition exportBlock_nr (dev : FSDevice) (nr : Z) (dst : list Z)
    (error : option FSError) : option (bool * list Z * option FSError) :=
  exportBlocks dev nr nr dst error.

(** ** Integrity check *)

(** [FSErrorReport] as [check] fills it. *)
Record FSErrorReport := mkFSErrorReport {
  corruptedBlocks : Z;
  firstErrorBlock : Z;
  lastErrorBlock : Z
}.

Definition set_corrupted (b : FSBlock) (c : Z) : FSBlock :=
  mkFSBlock (nr b) (data b) c.

Section Check.

(** [FSBlock::check(bool strict)] belongs to the block class, which is not
    at hand; it counts the errors of one block. *)
Variable blockCheck : FSBlock -> bool -> Z.

(** The loop of [FSDevice::check(bool strict)] over the blocks from number
    [i] on; [total], [min] and [max] are the locals of that name. *)
Fixpoint check_loop (strict : bool) (bs : list FSBlock) (i total min max : Z)
  : list FSBlock * (Z * Z * Z) :=
  match bs with
  | [] => ([], (total, min, max))
  | b :: rest =>
      if decide (blockCheck b strict > 0) then
        let '(rest', r) :=
          check_loop strict rest (i + 1) (total + 1) (Z.min min i) (Z.max max i) in
        (set_corrupted b (u32 (total + 1)) :: rest', r)
      else
        let '(rest', r) := check_loop strict rest (i + 1) total min max in
        (set_corrupted b 0 :: rest', r)
  end.

(** [FSDevice::check(bool strict)]; both branches of [if (total)] store the
    same three values. *)
Definition check (dev : FSDevice) (strict : bool) : FSDevice * FSErrorReport :=
  let '(bs, (total, min, max)) :=
    check_loop strict (blocks dev) 0 0 Emu.LONG_MAX 0 in
  (set_blocks dev bs, mkFSErrorReport total min max).

End Check.

(** [FSDevice::check(u32 blockNr, u32 pos, u8 *expected, bool strict)];
    [FSBlock::check(pos, expected, strict)] belongs to the block class,
    which is not at hand.  The block is taken from [blocks[blockNr]]
    without a test of the index. *)
Definition check_at {R : Type} (blockCheckAt : FSBlock -> Z -> bool -> R)
    (dev : FSDevice) (blockNr pos : Z) (strict : bool) : option R :=
  blk ← blocks dev !! Z.to_nat blockNr;
  Some (blockCheckAt blk pos strict).

Section Corrupted.

(** [FSDevice::isCorrupted(u32 blockNr)] is an inline method of the header,
    which is not at hand; the three searches below use it as a test on
    block numbers. *)
Variable isCorrupted : FSDevice -> Z -> bool.

(** The loop of [FSDevice::isCorrupted(u32 blockNr, u32 n)]; [k] counts the
    iterations that are left.  [i] stays below the number of blocks, which
    is a u32, so [i++] does not wrap. *)
Fixpoint isCorrupted_loop (dev : FSDevice) (blockNr n : Z) (k : nat) (i cnt : Z)
  : bool :=
  match k with
  | O => false
  | S k' =>
      if isCorrupted dev i then
        let cnt' := u32 (cnt + 1) in
        if decide (blockNr = i) then bool_decide (cnt' = n)
        else isCorrupted_loop dev blockNr n k' (i + 1) cnt'
      else isCorrupted_loop dev blockNr n k' (i + 1) cnt
  end.

(** [FSDevice::isCorrupted(u32 blockNr, u32 n)] *)
Definition isCorrupted_nth (dev : FSDevice) (blockNr n : Z) : bool :=
  isCorrupted_loop dev blockNr n (length (blocks dev)) 0 0.

Fixpoint nextCorrupted_loop (dev : FSDevice) (blockNr : Z) (k : nat) (i : Z) : Z :=
  match k with
  | O => blockNr
  | S k' =>
      if isCorrupted dev i then i else nextCorrupted_loop dev blockNr k' (i + 1)
  end.

(** [FSDevice::nextCorrupted]; the loop starts at [blockNr + 1], a u32, and
    runs while [i < numBlocks]. *)
Definition nextCorrupted (dev : FSDevice) (blockNr : Z) : Z :=
  let i := u32 (blockNr + 1) in
  nextCorrupted_loop dev blockNr (Z.to_nat (Z.of_nat (length (blocks dev)) - i)) i.

Fixpoint prevCorrupted_loop (dev : FSDevice) (blockNr : Z) (k : nat) (i : Z) : Z :=
  match k with
  | O => blockNr
  | S k' =>
      if isCorrupted dev i then i else prevCorrupted_loop dev blockNr k' (i - 1)
  end.

(** [FSDevice::prevCorrupted]; the loop starts at [blockNr - 1], a u32, and
    runs while [i < numBlocks]: downward from there to block 0, after which
    [i--] wraps around to a number that no block has. *)
Definition prevCorrupted (dev : FSDevice) (blockNr : Z) : Z :=
  let i := u32 (blockNr - 1) in
  if decide (i < Z.of_nat (length (blocks dev)))
  then prevCorrupted_loop dev blockNr (Z.to_nat (i + 1)) i
  else blockNr.

End Corrupted.

(** The BAM bytes after [setAllocationBit(t, s, value)] on the BAM bytes
    [d]: nothing changes if the bit has the value already; otherwise the
    bit moves and the free count of the track moves along. *)
Definition bamAfter (d : list Z) (t s : Z) (value : bool) : list Z :=
  let byte := 4 * t + 1 + s / 8 in
  let bit := Z.land s 7 in
  let x := byteAt d byte in
  let c := byteAt d (4 * t) in
  if value then
    if GET_BIT x bit then d
    else <[Z.to_nat (4 * t) := u8 (c + 1)]> (<[Z.to_nat byte := SET_BIT x bit]> d)
  else
    if GET_BIT x bit
    then <[Z.to_nat (4 * t) := u8 (c - 1)]> (<[Z.to_nat byte := CLR_BIT x bit]> d)
    else d.

(** The number of block numbers in [from, from + len) that [P] holds of. *)
Definition countIn (P : Z -> bool) (from len : Z) : Z :=
  Z.of_nat (length (List.filter P (seqZ from len))).

(** A formatted disk without a free block. *)
Definition fullDisk : FSDevice :=
  set_blocks formatted
    (alter (fun b => set_data b ([18; 1] ++ replicate 254 0))
           357%nat (blocks formatted)).

End FSOps.

Module FlashBank.
Import Flash.

(** ** Banked access to the flash ROM *)

(** [FlashRom::isBankNumber] *)
Definition isBankNumber (bank : Z) : bool := bool_decide (bank < 64).

(** The address [bank * 0x2000 + addr] that the banked overloads of
    [peek], [poke], [doByteProgram] and [doSectorErase] pass on; [bank] is
    an [unsigned] and the sum is taken in 32 bits. *)
Definition bankAddr (bank addr : Z) : Z := u32 (bank * 0x2000 + addr).

(** The size of the flash ROM in bytes (512 KB). *)
Definition romSize : Z := 0x80000.

End FlashBank.

Module EmuTime.

(** ** Conversion between clock ticks and nanoseconds ([C64.h]) *)

(** [mach_timebase_info_data_t]: numerator and denominator, both 32 bits
    wide. *)
Record timebase_info := mkTimebase { numer : Z; denom : Z }.

(** Division of unsigned integers; a zero divisor ends the run. *)
Definition udiv (a b : Z) : option Z :=
  if decide (b = 0) then None else Some (a / b).

(** [C64::abs_to_nanos] *)
Definition abs_to_nanos (timebase : timebase_info) (abs : Z) : option Z :=
  udiv (u64 (abs * numer timebase)) (denom timebase).

(** [C64::nanos_to_abs] *)
Definition nanos_to_abs (timebase : timebase_info) (nanos : Z) : option Z :=
  udiv (u64 (nanos * denom timebase)) (numer timebase).

End EmuTime.

Module EmuSnapshots.
Import Emu.

(** ** Sequences of suspend and resume calls ([C64.h]) *)

Inductive SnapshotCall := CallSuspend | CallResume.

Definition runSnapshotCall (c : C64) (call : SnapshotCall) : option C64 :=
  match call with
  | CallSuspend => suspendAutoSnapshots c
  | CallResume => resumeAutoSnapshots c
  end.

(** The calls one after the other; a call without a result ends the run. *)
Fixpoint runSnapshotCalls (c : C64) (calls : list SnapshotCall) : option C64 :=
  match calls with
  | [] => Some c
  | call :: rest => c' ← runSnapshotCall c call; runSnapshotCalls c' rest
  end.

(** The number of resume calls minus the number of suspend calls. *)
Definition balance (calls : list SnapshotCall) : Z :=
  foldr (fun call acc =>
           match call with CallSuspend => acc - 1 | CallResume => acc + 1 end)
        0 calls.

End EmuSnapshots.

Module P00.

(** ** P00 archives ([Emulator/Files/P00File.cpp]) *)

(** An [AnyFile]: the [size] bytes at [data]. *)
Record P00File := mkP00File { data : list Z }.

Definition size (f : P00File) : Z := Z.of_nat (length (data f)).

(** The magic bytes of [P00File::isCompatibleStream], the letters of
    C64File. *)
Definition magicBytes : list Z := [0x43; 0x36; 0x34; 0x46; 0x69; 0x6C; 0x65].

(** [P00File::isCompatibleStream]; the stream is the list of its bytes,
    [streamLength] its length, and [matchingStreamHeader] compares the
    first bytes of the stream with the header (both helpers belong to a
    file that is not at hand). *)
Definition isCompatibleStream (stream : list Z) : bool :=
  if decide (Z.of_nat (length stream) < 0x1A) then false
  else bool_decide (take (length magicBytes) stream = magicBytes).

(** [P00File::collectionCount] *)
Definition collectionCount (f : P00File) : Z := 1.

(** [P00File::itemSize]; [size - 0x1A] is taken in 64 bits. *)
Definition itemSize (f : P00File) (nr : Z) : option Z :=
  _ ← FS.assertion (bool_decide (nr = 0));
  Some (u64 (size f - 0x1A)).

(** [P00File::readByte] *)
Definition readByte (f : P00File) (nr pos : Z) : option Z :=
  _ ← FS.assertion (bool_decide (nr = 0));
  n ← itemSize f nr;
  _ ← FS.assertion (bool_decide (pos < n));
  data f !! Z.to_nat (0x1A + pos).

(** What [makeWithFileSystem] asks the file system for: the number of
    files, and of the first file the size, the bytes that
    [fileName(item).write(p)] stores and the bytes that [copyFile] stores.
    These methods of [FSDevice] belong to a version of the class that is
    not at hand. *)
Record FileSystemView := mkFileSystemView {
  numFiles : Z;
  fileSize : Z;
  fileName : list Z;
  fileBytes : list Z
}.

(** Storing [bytes] at offset [p] of a buffer; [None] when they do not fit. *)
Definition store (buf : list Z) (p : Z) (bytes : list Z) : option (list Z) :=
  if decide (0 <= p /\ p + Z.of_nat (length bytes) <= Z.of_nat (length buf))
  then Some (take (Z.to_nat p) buf ++ bytes
               ++ drop (Z.to_nat p + length bytes) buf)
  else None.

(** The result of [makeWithFileSystem]: the archive, or the error thrown. *)
Inductive Made := MadeFile (f : P00File) | ERROR_FS_HAS_NO_FILES.

(** [P00File::makeWithFileSystem]; the new archive starts out with zero
    bytes, [strcpy] stores the seven letters and the terminating 0. *)
Definition makeWithFileSystem (fs : FileSystemView) : option Made :=
  let item := 0 in
  let itemSize := fileSize fs in
  if decide (numFiles fs <= item) then Some ERROR_FS_HAS_NO_FILES
  else
    let p00Size := u64 (itemSize + 8 + 17 + 1) in
    let d0 := replicate (Z.to_nat p00Size) 0 in
    d1 ← store d0 0 (magicBytes ++ [0]);
    d2 ← store d1 8 (fileName fs);
    d3 ← store d2 24 [0];
    d4 ← store d3 25 [0];
    d5 ← store d4 26 (fileBytes fs);
    Some (MadeFile (mkP00File d5)).

End P00.

Module FSBasics.
Import FS.

(** ** Queries outside the block range *)

Lemma blockPtr_None dev b :
  Z.of_nat (length (blocks dev)) <= b -> blockPtr dev b = None.
Proof. intros Hb. unfold blockPtr. case_decide; [lia | reflexivity]. Qed.

Lemma blockPtr_Some dev b :
  0 <= b < Z.of_nat (length (blocks dev)) -> blockPtr dev b = Some (Z.to_nat b).
Proof. intros Hb. unfold blockPtr. case_decide; [reflexivity | lia]. Qed.

(** C10, as the code has it: the four queries [blockPtr], [blockType],
    [itemType] and [getCorrupted] answer for each number of the u32 range;
    for a number at or beyond the number of blocks [blockPtr] is the null
    pointer, [blockType] is [FS_UNKNOWN_BLOCK], [itemType] is [FSI_UNUSED]
    and [getCorrupted] is 0.  The queries are functions of the device and
    return no device, so none of them modifies it. *)
Theorem queries_beyond_last_block {BT IT : Type} (FS_UNKNOWN_BLOCK : BT)
    (FSI_UNUSED : IT) (FSBlock_type : FSBlock -> BT)
    (FSBlock_itemType : FSBlock -> Z -> IT) (dev : FSDevice) (nr pos : Z) :
  Z.of_nat (length (blocks dev)) <= nr < 2 ^ 32 ->
  blockPtr dev nr = None
  /\ blockType FS_UNKNOWN_BLOCK FSBlock_type dev nr = FS_UNKNOWN_BLOCK
  /\ itemType FSI_UNUSED FSBlock_itemType dev nr pos = FSI_UNUSED
  /\ getCorrupted dev nr = 0.
Proof.
  intros [Hnr _]. unfold blockType, itemType, getCorrupted.
  rewrite (blockPtr_None dev nr Hnr). repeat split.
Qed.

Lemma queries_beyond_last_block_witness :
  blockPtr formatted 683 = None
  /\ blockType 0%nat (fun b => length (data b)) formatted 683 = 0%nat
  /\ itemType 0 (fun b pos => default 0 (data b !! Z.to_nat pos)) formatted 683 4 = 0
  /\ getCorrupted formatted 683 = 0.
Proof.
  apply (queries_beyond_last_block 0%nat 0 (fun b => length (data b))
           (fun b pos => default 0 (data b !! Z.to_nat pos)) formatted 683 4).
  split; vm_compute; [discriminate | reflexivity].
Defined.

(** [readByte] and [check(blockNr, pos, expected, strict)] have no answer
    for a block number at or beyond the number of blocks: the first runs
    into its assertion, the second reads outside the block storage. *)
Lemma partial_queries_beyond_last_block {R : Type}
    (blockCheckAt : FSBlock -> Z -> bool -> R) (dev : FSDevice) (nr pos : Z)
    (strict : bool) :
  Z.of_nat (length (blocks dev)) <= nr ->
  FSOps.readByte dev nr pos = None
  /\ FSOps.check_at blockCheckAt dev nr pos strict = None.
Proof.
  intros Hnr. split.
  - unfold FSOps.readByte. destruct (bool_decide (pos < 256)); [|reflexivity].
    cbn [assertion mbind option_bind].
    rewrite bool_decide_false by lia. reflexivity.
  - unfold FSOps.check_at. rewrite lookup_ge_None_2 by lia. reflexivity.
Qed.

(** C10 as stated does not hold of every query that takes a block number:
    on a disk of 683 blocks [readByte(683, 0)] fails its assertion
    [block < blocks.size()], and [check(683, 0, expected, strict)] reads
    [blocks[683]]. *)
Lemma readByte_beyond_last_block :
  length (blocks formatted) = 683%nat
  /\ FSOps.readByte formatted 683 0 = None
  /\ FSOps.check_at (fun b pos strict => byteAt (data b) pos) formatted 683 0 false
     = None.
Proof. vm_compute. repeat split. Qed.

(** ** Import *)

Lemma import_fold_lookup (f : nat -> FSBlock -> FSBlock) (k : nat)
    (bs : list FSBlock) (i : nat) :
  foldl (fun bs i => alter (f i) i bs) bs (seq 0 k) !! i
  = if decide (i < k)%nat then f i <$> bs !! i else bs !! i.
Proof.
  induction k as [|k IH].
  - destruct (decide (i < 0)%nat); [lia | reflexivity].
  - rewrite seq_S, foldl_snoc. cbn [Nat.add].
    destruct (decide (i = k)) as [->|Hne].
    + rewrite list_lookup_alter_eq, IH.
      repeat case_decide; try lia. reflexivity.
    + rewrite list_lookup_alter_ne by congruence. rewrite IH.
      repeat case_decide; try lia; reflexivity.
Qed.

Lemma import_fold_length (f : nat -> FSBlock -> FSBlock) (k : nat)
    (bs : list FSBlock) :
  length (foldl (fun bs i => alter (f i) i bs) bs (seq 0 k)) = length bs.
Proof.
  induction k as [|k IH]; [reflexivity|].
  rewrite seq_S, foldl_snoc. simpl. rewrite length_alter. exact IH.
Qed.

Lemma u64_small z : 0 <= z < 2 ^ 64 -> u64 z = z.
Proof. intros H. unfold u64. apply Z.mod_small. exact H. Qed.

Lemma u32_small z : 0 <= z < 2 ^ 32 -> u32 z = z.
Proof. intros H. unfold u32. apply Z.mod_small. exact H. Qed.

(** C5: a buffer whose length differs from 256 times the number of blocks
    makes [importVolume] return false with the error FS_WRONG_CAPACITY and
    leaves the device as it was; a buffer of the matching length makes it
    return true with the error FS_OK.  The number of blocks is a u32, as
    the constructor takes it. *)
Theorem importVolume_capacity (dev : FSDevice) (src : list Z)
    (error : option FSError) :
  Z.of_nat (length (blocks dev)) < 2 ^ 32 ->
  (Z.of_nat (length src) <> Z.of_nat (length (blocks dev)) * 256 ->
   importVolume dev src error = (dev, false, set_error error FS_WRONG_CAPACITY))
  /\ (Z.of_nat (length src) = Z.of_nat (length (blocks dev)) * 256 ->
      exists dev', importVolume dev src error = (dev', true, set_error error FS_OK)
                   /\ length (blocks dev') = length (blocks dev)).
Proof.
  intros Hcap. unfold importVolume.
  rewrite u64_small by lia. split; intros Hlen.
  - case_decide as Hd; [reflexivity|]. exfalso. apply Hlen. symmetry.
    destruct (decide (Z.of_nat (length (blocks dev)) * 256 = Z.of_nat (length src)))
      as [E|E]; [exact E | contradiction].
  - case_decide as Hd; [exfalso; apply Hd; symmetry; exact Hlen|].
    eexists. split; [reflexivity|]. simpl. apply import_fold_length.
Qed.

Lemma importVolume_capacity_witness :
  importVolume formatted [1; 2; 3] (Some FS_OK)
  = (formatted, false, Some FS_WRONG_CAPACITY)
  /\ exists dev', importVolume formatted (replicate (683 * 256) 7) (Some FS_WRONG_CAPACITY)
                  = (dev', true, Some FS_OK)
                  /\ length (blocks dev') = length (blocks formatted).
Proof.
  split.
  - apply (importVolume_capacity formatted [1; 2; 3] (Some FS_OK)).
    + vm_compute. reflexivity.
    + vm_compute. discriminate.
  - apply (importVolume_capacity formatted (replicate (683 * 256) 7)
             (Some FS_WRONG_CAPACITY)).
    + vm_compute. reflexivity.
    + vm_compute. reflexivity.
Defined.

End FSBasics.

Module FSRoundTrip.
Import FS.

(** ** Export after import *)

Lemma exportBlock_fold (bs : list FSBlock) (src d0 : list Z) (k : nat) :
  (k * 256 <= length src)%nat ->
  length d0 = length src ->
  (forall i, (i < k)%nat -> data (bs !!! i) = take 256 (drop (i * 256) src)) ->
  let out := foldl (fun d i => exportBlock (bs !!! (0 + i)%nat) d (i * 256))
                   d0 (seq 0 k) in
  length out = length src
  /\ take (k * 256) out = take (k * 256) src
  /\ drop (k * 256) out = drop (k * 256) d0.
Proof.
  induction k as [|k IH]; intros Hk Hd0 Hdata.
  - simpl. repeat split. exact Hd0.
  - rewrite seq_S, foldl_snoc. cbn [Nat.add].
    destruct IH as (Hlen & Htake & Hdrop);
      [lia | exact Hd0 | intros i Hi; apply Hdata; lia |].
    set (out := foldl _ d0 (seq 0 k)) in *.
    assert (Hb : data (bs !!! k) = take 256 (drop (k * 256) src))
      by (apply Hdata; lia).
    assert (Hblen : length (data (bs !!! k)) = 256%nat).
    { rewrite Hb, length_take, length_drop. lia. }
    unfold exportBlock.
    rewrite (take_ge (data (bs !!! k))) by lia.
    rewrite Hblen. repeat split.
    + rewrite !length_app, length_take, length_drop, Hblen. lia.
    + replace (S k * 256)%nat with (k * 256 + 256)%nat by lia.
      rewrite app_assoc, take_app_length'.
      2:{ rewrite length_app, length_take, Hblen. lia. }
      rewrite Htake, Hb. apply take_take_drop.
    + replace (S k * 256)%nat with (k * 256 + 256)%nat by lia.
      rewrite app_assoc, drop_app_length'.
      2:{ rewrite length_app, length_take, Hblen. lia. }
      rewrite <- !drop_drop. f_equal. exact Hdrop.
Qed.

Lemma importVolume_blocks (dev : FSDevice) (src : list Z) (error : option FSError) (i : nat) :
  Z.of_nat (length src) = Z.of_nat (length (blocks dev)) * 256 ->
  Z.of_nat (length (blocks dev)) < 2 ^ 32 ->
  (i < length (blocks dev))%nat ->
  data (blocks (importVolume dev src error).1.1 !!! i) = take 256 (drop (i * 256) src).
Proof.
  intros Hlen Hcap Hi. unfold importVolume.
  rewrite FSBasics.u64_small by lia.
  case_decide as Hd; [exfalso; apply Hd; symmetry; exact Hlen|].
  cbn [fst set_blocks blocks].
  apply lookup_lt_is_Some_2 in Hi as [b Hb].
  rewrite (list_lookup_total_correct _ i (importBlock b (drop (i * 256) src)));
    [reflexivity|].
  rewrite (FSBasics.import_fold_lookup
             (fun i b => importBlock b (drop (i * 256) src))).
  apply lookup_lt_Some in Hb as Hlt.
  case_decide; [|lia]. rewrite Hb. reflexivity.
Qed.

(** C1: on a device whose block storage has the size its layout gives
    (as [makeWithFormat] builds it, fewer than 2^24 blocks), importing a
    byte vector of 256 bytes per block succeeds, and exporting the volume
    into a buffer of the same size then succeeds and returns exactly the
    imported bytes. *)
Theorem exportVolume_importVolume (dev : FSDevice) (bytes dst : list Z)
    (e1 e2 : option FSError) :
  numBlocks (layout dev) = Z.of_nat (length (blocks dev)) ->
  0 < numBlocks (layout dev) < 2 ^ 24 ->
  Z.of_nat (length bytes) = numBlocks (layout dev) * 256 ->
  Z.of_nat (length dst) = Z.of_nat (length bytes) ->
  exists dev',
    importVolume dev bytes e1 = (dev', true, set_error e1 FS_OK)
    /\ exportVolume dev' dst e2 = Some (true, bytes, set_error e2 FS_OK).
Proof.
  intros Hn Hrange Hlen Hdst. apply Nat2Z.inj in Hdst.
  destruct (FSBasics.importVolume_capacity dev bytes e1) as [_ Himp]; [lia|].
  destruct Himp as (dev' & Himp & Hsize); [lia|].
  exists dev'. split; [exact Himp|].
  assert (Hlay : layout dev' = layout dev).
  { unfold importVolume in Himp. case_decide; inversion Himp; reflexivity. }
  unfold exportVolume, exportBlocks. rewrite Hlay.
  rewrite (FSBasics.u32_small (numBlocks (layout dev) - 1)) by lia.
  rewrite bool_decide_true by lia. cbn [assertion mbind option_bind].
  rewrite bool_decide_true by lia. cbn [assertion mbind option_bind].
  replace (numBlocks (layout dev) - 1 - 0 + 1) with (numBlocks (layout dev)) by lia.
  rewrite (FSBasics.u32_small (numBlocks (layout dev))) by lia.
  rewrite FSBasics.u32_small by lia.
  case_decide as Hd; [exfalso; apply Hd; rewrite Hdst; lia|].
  do 3 f_equal.
  change (Z.to_nat 0) with 0%nat.
  destruct (exportBlock_fold (blocks dev') bytes (replicate (length dst) 0)
              (Z.to_nat (numBlocks (layout dev)))) as (Hl & Ht & _).
  - lia.
  - rewrite length_replicate. exact Hdst.
  - intros i Hi.
    replace dev' with (importVolume dev bytes e1).1.1 by (rewrite Himp; reflexivity).
    apply importVolume_blocks; lia.
  - rewrite take_ge in Ht by lia.
    rewrite (take_ge bytes) in Ht by lia. exact Ht.
Qed.

Lemma exportVolume_importVolume_witness :
  exists dev',
    importVolume formatted (mjoin (replicate 683 (seqZ 0 256))) None
    = (dev', true, None)
    /\ exportVolume dev' (replicate (683 * 256) 1) (Some FS_WRONG_CAPACITY)
       = Some (true, mjoin (replicate 683 (seqZ 0 256)), Some FS_OK).
Proof.
  apply (exportVolume_importVolume formatted
           (mjoin (replicate 683 (seqZ 0 256)))
           (replicate (683 * 256) 1) None (Some FS_WRONG_CAPACITY)).
  - vm_compute. reflexivity.
  - split; vm_compute; reflexivity.
  - vm_compute. reflexivity.
  - vm_compute. reflexivity.
Defined.

End FSRoundTrip.

Module FSBam.
Import FS.

(** ** Reading and writing block bytes *)

Lemma peek_eq dev p blk off :
  blocks dev !! p = Some blk ->
  0 <= off < Z.of_nat (length (data blk)) ->
  peek dev p off = Some (byteAt (data blk) off).
Proof.
  intros Hb Hoff. unfold peek, byteAt. rewrite Hb. cbn [mbind option_bind].
  case_decide; [|lia].
  destruct (lookup_lt_is_Some_2 (data blk) (Z.to_nat off)) as [x Hx]; [lia|].
  rewrite Hx. reflexivity.
Qed.

Lemma poke_eq dev p blk off v :
  blocks dev !! p = Some blk ->
  0 <= off < Z.of_nat (length (data blk)) ->
  poke dev p off v
  = Some (set_blocks dev
            (<[p := set_data blk (<[Z.to_nat off := v]> (data blk))]> (blocks dev))).
Proof.
  intros Hb Hoff. unfold poke. rewrite Hb. cbn [mbind option_bind].
  case_decide; [reflexivity | lia].
Qed.

Lemma byteAt_insert d i j v :
  0 <= i -> 0 <= j < Z.of_nat (length d) ->
  byteAt (<[Z.to_nat j := v]> d) i = if decide (i = j) then v else byteAt d i.
Proof.
  intros Hi Hj. unfold byteAt. case_decide as Hd.
  - subst. rewrite list_lookup_insert_eq by lia. reflexivity.
  - rewrite list_lookup_insert_ne by lia. reflexivity.
Qed.

(** ** Bits of a byte *)

Lemma bits_enum :
  forallb (fun x => forallb (fun b =>
      (0 <=? SET_BIT x b) && (SET_BIT x b <? 256)
      && (0 <=? CLR_BIT x b) && (CLR_BIT x b <? 256)
      && (0 <=? popcount8 x) && (popcount8 x <=? 8)
      && (if GET_BIT x b
          then (popcount8 (CLR_BIT x b) =? popcount8 x - 1) && (1 <=? popcount8 x)
          else (popcount8 (SET_BIT x b) =? popcount8 x + 1) && (popcount8 x <=? 7)))
    (seqZ 0 8)) (seqZ 0 256) = true.
Proof. vm_compute. reflexivity. Qed.

Lemma bits_of_byte x b :
  0 <= x < 256 -> 0 <= b < 8 ->
  0 <= SET_BIT x b < 256 /\ 0 <= CLR_BIT x b < 256 /\ 0 <= popcount8 x <= 8
  /\ (GET_BIT x b = true ->
      popcount8 (CLR_BIT x b) = popcount8 x - 1 /\ 1 <= popcount8 x)
  /\ (GET_BIT x b = false ->
      popcount8 (SET_BIT x b) = popcount8 x + 1 /\ popcount8 x <= 7).
Proof.
  intros Hx Hb. pose proof bits_enum as H.
  rewrite forallb_forall in H. specialize (H x).
  rewrite forallb_forall in H.
  assert (Hin : In b (seqZ 0 8)) by (apply list_elem_of_In, elem_of_seqZ; lia).
  assert (Hinx : In x (seqZ 0 256)) by (apply list_elem_of_In, elem_of_seqZ; lia).
  specialize (H Hinx b Hin).
  destruct (GET_BIT x b);
    repeat (apply andb_prop in H as [H ?]);
    repeat match goal with
           | H : (_ <=? _) = true |- _ => apply Z.leb_le in H
           | H : (_ <? _) = true |- _ => apply Z.ltb_lt in H
           | H : (_ =? _) = true |- _ => apply Z.eqb_eq in H
           end;
    repeat split; try lia; intros; try discriminate; lia.
Qed.

Lemma clear_low_bits_enum :
  forallb (fun a => Z.land a (Z.lnot 3) =? 4 * (a / 4)) (seqZ 0 256) = true.
Proof. vm_compute. reflexivity. Qed.

Lemma locate_arith t s :
  0 <= t < 64 -> 0 <= s < 24 ->
  let byte := u32 (4 * t + 1 + Z.shiftr s 3) in
  byte = 4 * t + 1 + s / 8 /\ 0 <= s / 8 <= 2
  /\ Z.land byte (Z.lnot 3) = 4 * t /\ 0 <= Z.land s 7 < 8.
Proof.
  intros Ht Hs. cbn zeta.
  rewrite Z.shiftr_div_pow2 by lia. change (2 ^ 3) with 8.
  assert (Hk : 0 <= s / 8 <= 2).
  { split; [apply Z.div_pos; lia | apply Z.lt_succ_r, Z.div_lt_upper_bound; lia]. }
  rewrite FSBasics.u32_small by lia.
  repeat split; try lia.
  - pose proof clear_low_bits_enum as H. rewrite forallb_forall in H.
    specialize (H (4 * t + 1 + s / 8)).
    rewrite Z.eqb_eq in H. rewrite H.
    + assert ((4 * t + 1 + s / 8) / 4 = t); [|lia].
      symmetry. apply (Z.div_unique _ 4 t (1 + s / 8)); lia.
    + apply list_elem_of_In, elem_of_seqZ. lia.
  - change 7 with (Z.ones 3). rewrite Z.land_ones by lia.
    apply Z.mod_pos_bound. lia.
  - change 7 with (Z.ones 3). rewrite Z.land_ones by lia.
    apply Z.mod_pos_bound. lia.
Qed.

(** ** One allocation step *)

Lemma bamPtr_set_blocks dev bs :
  length bs = length (blocks dev) -> bamPtr (set_blocks dev bs) = bamPtr dev.
Proof.
  intros Hlen. unfold bamPtr, blockPtr_ts, blockPtr. simpl. rewrite Hlen. reflexivity.
Qed.

(** What [setAllocationBit] does to a well-formed BAM [d]: nothing if the
    bit already has the value asked for, otherwise the bit flips and the
    free count of the track moves by one. *)
Lemma setAllocationBit_spec (dev : FSDevice) (d : list Z) (t s : Z) (value : bool) :
  bamBlock dev d ->
  isTrackSectorPair (layout dev) t s = true ->
  0 <= t < 64 -> 0 <= s < 24 ->
  let byte := 4 * t + 1 + s / 8 in
  let bit := Z.land s 7 in
  let x := byteAt d byte in
  let c := byteAt d (4 * t) in
  let d' := if value then
              if GET_BIT x bit then d
              else <[Z.to_nat (4 * t) := u8 (c + 1)]> (<[Z.to_nat byte := SET_BIT x bit]> d)
            else
              if GET_BIT x bit
              then <[Z.to_nat (4 * t) := u8 (c - 1)]> (<[Z.to_nat byte := CLR_BIT x bit]> d)
              else d in
  exists dev' p blk,
    setAllocationBit dev t s value = Some dev'
    /\ layout dev' = layout dev
    /\ bamPtr dev = Some p /\ blocks dev !! p = Some blk
    /\ blocks dev' = <[p := set_data blk d']> (blocks dev).
Proof.
  intros (p & blk & Hbam & Hblk & Hd & Hlen & Hbytes) Hpair Ht Hs.
  subst d. cbn zeta.
  destruct (locate_arith t s Ht Hs) as (Hbyte & Hk & Hcnt & Hbit).
  cbn zeta in Hbyte, Hcnt.
  unfold setAllocationBit, locateAllocationBit.
  rewrite Hpair. cbn [assertion mbind option_bind].
  rewrite Hbam. cbn [mbind option_bind].
  rewrite Hcnt, Hbyte. clear Hcnt Hbyte.
  set (byte := 4 * t + 1 + s / 8).
  assert (Hbr : 0 <= byte < 256) by (unfold byte; lia).
  rewrite (peek_eq dev p blk byte Hblk) by lia. cbn [mbind option_bind].
  set (x := byteAt (data blk) byte). set (bit := Z.land s 7).
  assert (Hsame : <[p := set_data blk (data blk)]> (blocks dev) = blocks dev).
  { apply list_insert_id. rewrite Hblk. f_equal. destruct blk; reflexivity. }
  destruct value, (GET_BIT x bit) eqn:Hget; cbn [andb negb mbind option_bind].
  - (* set, already set *)
    rewrite (peek_eq dev p blk byte Hblk) by lia. cbn [mbind option_bind].
    exists dev, p, blk. rewrite Hsame. repeat split; assumption.
  - (* set, was clear *)
    rewrite (poke_eq dev p blk byte _ Hblk) by lia. cbn [mbind option_bind].
    set (dev1 := set_blocks dev _).
    assert (Hblk1 : blocks dev1 !! p
                    = Some (set_data blk (<[Z.to_nat byte := SET_BIT x bit]> (data blk)))).
    { unfold dev1. simpl. apply list_lookup_insert_eq. eapply lookup_lt_Some, Hblk. }
    rewrite (peek_eq dev1 p _ (4 * t) Hblk1) by (simpl; rewrite length_insert; lia).
    cbn [mbind option_bind].
    rewrite (poke_eq dev1 p _ (4 * t) _ Hblk1) by (simpl; rewrite length_insert; lia).
    cbn [mbind option_bind].
    set (dev2 := set_blocks dev1 _).
    assert (Hblk2 : exists b2, blocks dev2 !! p = Some b2 /\ length (data b2) = 256%nat
              /\ byteAt (data b2) byte = SET_BIT x bit).
    { eexists. split.
      - unfold dev2. simpl. apply list_lookup_insert_eq.
        unfold dev1. simpl. rewrite length_insert. eapply lookup_lt_Some, Hblk.
      - simpl. rewrite !length_insert. split; [assumption|].
        rewrite byteAt_insert by (rewrite ?length_insert; lia).
        case_decide; [unfold byte in *; lia|].
        rewrite byteAt_insert by lia. case_decide; [reflexivity | lia]. }
    destruct Hblk2 as (b2 & Hb2 & Hb2len & Hb2x).
    rewrite (peek_eq dev2 p b2 byte Hb2) by lia. cbn [mbind option_bind andb negb].
    exists dev2, p, blk. repeat split; try assumption.
    unfold dev2, dev1. simpl. rewrite list_insert_insert_eq.
    rewrite byteAt_insert by lia. case_decide; [unfold byte in *; lia|].
    reflexivity.
  - (* clear, was set *)
    rewrite (peek_eq dev p blk byte Hblk) by lia. cbn [mbind option_bind].
    fold x. rewrite Hget. cbn [andb negb mbind option_bind].
    rewrite (poke_eq dev p blk byte _ Hblk) by lia. cbn [mbind option_bind].
    set (dev1 := set_blocks dev _).
    assert (Hblk1 : blocks dev1 !! p
                    = Some (set_data blk (<[Z.to_nat byte := CLR_BIT x bit]> (data blk)))).
    { unfold dev1. simpl. apply list_lookup_insert_eq. eapply lookup_lt_Some, Hblk. }
    rewrite (peek_eq dev1 p _ (4 * t) Hblk1) by (simpl; rewrite length_insert; lia).
    cbn [mbind option_bind].
    rewrite (poke_eq dev1 p _ (4 * t) _ Hblk1) by (simpl; rewrite length_insert; lia).
    exists (set_blocks dev1
              (<[p := set_data
                        (set_data blk (<[Z.to_nat byte := CLR_BIT x bit]> (data blk)))
                        (<[Z.to_nat (4 * t) :=
                             u8 (byteAt (data (set_data blk
                                   (<[Z.to_nat byte := CLR_BIT x bit]> (data blk))))
                                   (4 * t) - 1)]>
                           (data (set_data blk
                                   (<[Z.to_nat byte := CLR_BIT x bit]> (data blk)))))]>
                 (blocks dev1))), p, blk.
    repeat split; try assumption.
    unfold dev1. simpl. rewrite list_insert_insert_eq.
    rewrite byteAt_insert by lia. case_decide; [unfold byte in *; lia|].
    reflexivity.
  - (* clear, already clear *)
    rewrite (peek_eq dev p blk byte Hblk) by lia. cbn [mbind option_bind].
    fold x. rewrite Hget. cbn [andb negb].
    exists dev, p, blk. rewrite Hsame. repeat split; assumption.
Qed.

Lemma byteAt_range d i :
  Forall (fun x => 0 <= x < 256) d -> 0 <= i < Z.of_nat (length d) ->
  0 <= byteAt d i < 256.
Proof.
  intros Hall Hi. unfold byteAt.
  destruct (lookup_lt_is_Some_2 d (Z.to_nat i)) as [x Hx]; [lia|].
  rewrite Hx. simpl. rewrite Forall_lookup in Hall. exact (Hall _ _ Hx).
Qed.

Lemma popcount8_byteAt d i :
  Forall (fun x => 0 <= x < 256) d -> 0 <= i < Z.of_nat (length d) ->
  0 <= popcount8 (byteAt d i) <= 8.
Proof.
  intros Hall Hi.
  destruct (bits_of_byte (byteAt d i) 0 (byteAt_range d i Hall Hi)) as (_ & _ & H & _);
    [lia | exact H].
Qed.

(** A bitmap byte of track [t] changes its number of set bits by [delta]
    and the free count moves along: the entry of every track stays
    consistent. *)
Lemma entry_update d t k x' delta t' :
  length d = 256%nat -> Forall (fun x => 0 <= x < 256) d ->
  0 <= t < 64 -> 1 <= k <= 3 -> 0 <= t' < 64 ->
  popcount8 x' = popcount8 (byteAt d (4 * t + k)) + delta ->
  (freeCount d t = bitmapCount d t -> 0 <= bitmapCount d t + delta < 256) ->
  let d' := <[Z.to_nat (4 * t) := u8 (freeCount d t + delta)]>
              (<[Z.to_nat (4 * t + k) := x']> d) in
  freeCount d t' = bitmapCount d t' -> freeCount d' t' = bitmapCount d' t'.
Proof.
  intros Hlen Hall Ht Hk Ht' Hpop Hroom. cbn zeta. intros Hinv.
  unfold freeCount, bitmapCount in *.
  assert (Hcases : k = 1 \/ k = 2 \/ k = 3) by lia.
  destruct (decide (t' = t)) as [Heq | Hne].
  - subst t'. specialize (Hroom Hinv).
    assert (Hu : u8 (byteAt d (4 * t) + delta) = byteAt d (4 * t) + delta)
      by (unfold u8; apply Z.mod_small; lia).
    rewrite Hu.
    destruct Hcases as [Hc | [Hc | Hc]]; subst k;
      rewrite !byteAt_insert by (rewrite ?length_insert; lia);
      repeat case_decide; lia.
  - destruct Hcases as [Hc | [Hc | Hc]]; subst k;
      rewrite !byteAt_insert by (rewrite ?length_insert; lia);
      repeat case_decide; lia.
Qed.

Lemma setAllocationBit_invariant dev d t s value t' :
  layoutFitsBAM (layout dev) -> bamBlock dev d ->
  isTrackSectorPair (layout dev) t s = true ->
  0 <= t' < 64 ->
  exists dev' d',
    setAllocationBit dev t s value = Some dev'
    /\ layout dev' = layout dev /\ bamBlock dev' d'
    /\ (freeCount d t' = bitmapCount d t' -> freeCount d' t' = bitmapCount d' t').
Proof.
  intros Hfit Hbam Hpair Ht'.
  destruct (Hfit t s Hpair) as [Ht Hs].
  destruct (setAllocationBit_spec dev d t s value Hbam Hpair Ht Hs)
    as (dev' & p & blk & Hrun & Hlay & Hp & Hblk & Hblocks).
  destruct Hbam as (p0 & blk0 & Hp0 & Hblk0 & Hd & Hlen & Hall).
  assert (p0 = p) by congruence. subst p0.
  assert (blk0 = blk) by congruence. subst blk0.
  destruct (locate_arith t s Ht Hs) as (_ & Hk & _ & Hbit).
  set (byte := 4 * t + 1 + s / 8) in *. set (bit := Z.land s 7) in *.
  set (x := byteAt d byte) in *.
  assert (Hx : 0 <= x < 256) by (apply byteAt_range; [assumption | unfold byte; lia]).
  destruct (bits_of_byte x bit Hx Hbit) as (Hset & Hclr & Hpc & Hwas1 & Hwas0).
  pose proof (popcount8_byteAt d (4 * t + 1) Hall) as Hp1.
  pose proof (popcount8_byteAt d (4 * t + 2) Hall) as Hp2.
  pose proof (popcount8_byteAt d (4 * t + 3) Hall) as Hp3.
  specialize (Hp1 ltac:(lia)). specialize (Hp2 ltac:(lia)). specialize (Hp3 ltac:(lia)).
  assert (Hbound : 0 <= bitmapCount d t <= 24) by (unfold bitmapCount; lia).
  assert (Hbx : popcount8 x <= bitmapCount d t <= popcount8 x + 16).
  { unfold bitmapCount, x, byte.
    assert (s / 8 = 0 \/ s / 8 = 1 \/ s / 8 = 2) as [E | [E | E]] by lia;
      rewrite E; simpl (4 * t + 1 + _);
      rewrite ?Z.add_0_r;
      replace (4 * t + 1 + 1) with (4 * t + 2) by lia;
      replace (4 * t + 1 + 2) with (4 * t + 3) by lia; lia. }
  cbn zeta in Hblocks.
  assert (Hwf : forall d', length d' = 256%nat -> Forall (fun x => 0 <= x < 256) d' ->
                 blocks dev' = <[p := set_data blk d']> (blocks dev) ->
                 bamBlock dev' d').
  { intros d' Hl' Ha' Hb'. exists p, (set_data blk d'). repeat split; try assumption.
    - unfold bamPtr, blockPtr_ts, blockPtr in *. rewrite Hlay, Hb', length_insert.
      exact Hp.
    - rewrite Hb'. apply list_lookup_insert_eq. eapply lookup_lt_Some, Hblk. }
  assert (Hbyte : byte = 4 * t + (1 + s / 8)) by (unfold byte; lia).
  assert (Hxk : x = byteAt d (4 * t + (1 + s / 8))) by (unfold x; rewrite Hbyte; reflexivity).
  exists dev'. fold byte bit x in Hblocks. rewrite Hbyte in Hblocks.
  fold (freeCount d t) in Hblocks.
  destruct value, (GET_BIT x bit) eqn:Hget.
  - exists d. repeat split; try assumption; [|tauto].
    apply Hwf; assumption.
  - destruct (Hwas0 eq_refl) as [Hpx Hle].
    exists (<[Z.to_nat (4 * t) := u8 (freeCount d t + 1)]>
              (<[Z.to_nat (4 * t + (1 + s / 8)) := SET_BIT x bit]> d)).
    split; [assumption|]. split; [assumption|]. split.
    + apply Hwf; [| | exact Hblocks].
      * rewrite !length_insert. assumption.
      * apply Forall_insert; [apply Forall_insert; assumption|].
        unfold u8. apply Z.mod_pos_bound. lia.
    + apply (entry_update d t (1 + s / 8) (SET_BIT x bit) 1 t'); try assumption; try lia.
      rewrite <- Hxk. exact Hpx.
  - destruct (Hwas1 eq_refl) as [Hpx Hge].
    exists (<[Z.to_nat (4 * t) := u8 (freeCount d t + -1)]>
              (<[Z.to_nat (4 * t + (1 + s / 8)) := CLR_BIT x bit]> d)).
    split; [assumption|]. split; [assumption|]. split.
    + apply Hwf; [| | exact Hblocks].
      * rewrite !length_insert. assumption.
      * apply Forall_insert; [apply Forall_insert; assumption|].
        unfold u8. apply Z.mod_pos_bound. lia.
    + apply (entry_update d t (1 + s / 8) (CLR_BIT x bit) (-1) t'); try assumption; try lia.
      rewrite <- Hxk. lia.
  - exists d. repeat split; try assumption; [|tauto].
    apply Hwf; assumption.
Qed.

Lemma runBamOp_valid dev op dev' :
  runBamOp dev op = Some dev' ->
  isTrackSectorPair (layout dev) (bamOp_track op) (bamOp_sector op) = true.
Proof.
  destruct op as [t s v | t s]; simpl;
    unfold markAsAllocated, setAllocationBit, locateAllocationBit;
    destruct (isTrackSectorPair (layout dev) t s); simpl; congruence.
Qed.

Lemma runBamOp_invariant dev d op t' :
  layoutFitsBAM (layout dev) -> bamBlock dev d ->
  isTrackSectorPair (layout dev) (bamOp_track op) (bamOp_sector op) = true ->
  0 <= t' < 64 ->
  exists dev' d',
    runBamOp dev op = Some dev'
    /\ layout dev' = layout dev /\ bamBlock dev' d'
    /\ (freeCount d t' = bitmapCount d t' -> freeCount d' t' = bitmapCount d' t').
Proof.
  destruct op as [t s v | t s]; simpl; intros; unfold markAsAllocated;
    apply setAllocationBit_invariant; assumption.
Qed.

(** C4: on a device whose layout fits the BAM, the free count of a track
    (the byte at offset 4t of the BAM block) that equals the number of bits
    set in the three bitmap bytes behind it still does so after any
    sequence of [setAllocationBit] and [markAsAllocated] calls.  The
    sequence runs to its end unless one of its calls names a track and
    sector pair that is not of the layout, which the assertion refuses. *)
Theorem bam_free_count_invariant (dev : FSDevice) (d : list Z)
    (ops : list BamOp) (t : Z) :
  layoutFitsBAM (layout dev) ->
  bamBlock dev d ->
  0 <= t < 64 ->
  freeCount d t = bitmapCount d t ->
  match runBamOps dev ops with
  | Some dev' => exists d', bamBlock dev' d' /\ freeCount d' t = bitmapCount d' t
  | None => ~ Forall (fun op => isTrackSectorPair (layout dev) (bamOp_track op)
                                  (bamOp_sector op) = true) ops
  end.
Proof.
  revert dev d. induction ops as [|op ops IH]; intros dev d Hfit Hbam Ht Hinv.
  - simpl. exists d. split; assumption.
  - cbn [runBamOps].
    destruct (isTrackSectorPair (layout dev) (bamOp_track op) (bamOp_sector op))
      eqn:Hvalid.
    + destruct (runBamOp_invariant dev d op t Hfit Hbam Hvalid Ht)
        as (dev1 & d1 & Hop & Hlay & Hbam1 & Hstep).
      rewrite Hop. cbn [mbind option_bind].
      specialize (IH dev1 d1). rewrite Hlay in IH.
      specialize (IH Hfit Hbam1 Ht (Hstep Hinv)).
      destruct (runBamOps dev1 ops); [exact IH|].
      intros Hall. apply Forall_cons in Hall as [_ Hall]. exact (IH Hall).
    + destruct (runBamOp dev op) as [dev1|] eqn:Hop.
      * apply runBamOp_valid in Hop. congruence.
      * cbn [mbind option_bind]. intros Hall.
        apply Forall_cons in Hall as [Hv _]. congruence.
Qed.

Lemma DISK_SS_SD_fits : layoutFitsBAM DISK_SS_SD.
Proof.
  intros t s Hpair. simpl in Hpair. unfold SS_SD_isTrackSectorPair in Hpair.
  apply bool_decide_eq_true in Hpair. unfold numSectors, numTracks in Hpair.
  repeat case_decide; lia.
Qed.

Lemma formatted_bamBlock : bamBlock formatted emptyBAM.
Proof.
  exists 357%nat, (mkFSBlock 357 emptyBAM 0).
  split; [vm_compute; reflexivity|].
  split; [vm_compute; reflexivity|].
  split; [reflexivity|].
  split; [vm_compute; reflexivity|].
  apply (bool_decide_unpack (Forall (fun x => 0 <= x < 256) emptyBAM)).
  vm_compute. exact I.
Qed.

Lemma bam_free_count_invariant_witness :
  match runBamOps formatted
          [MarkAsAllocated 1 0; MarkAsAllocated 1 10; SetAllocationBit 1 0 true;
           SetAllocationBit 17 20 false; MarkAsAllocated 1 10] with
  | Some dev' => exists d', bamBlock dev' d' /\ freeCount d' 1 = bitmapCount d' 1
  | None => ~ Forall (fun op => isTrackSectorPair (layout formatted) (bamOp_track op)
                                  (bamOp_sector op) = true)
                [MarkAsAllocated 1 0; MarkAsAllocated 1 10; SetAllocationBit 1 0 true;
                 SetAllocationBit 17 20 false; MarkAsAllocated 1 10]
  end.
Proof.
  apply (bam_free_count_invariant formatted emptyBAM
           [MarkAsAllocated 1 0; MarkAsAllocated 1 10; SetAllocationBit 1 0 true;
            SetAllocationBit 17 20 false; MarkAsAllocated 1 10] 1).
  - exact DISK_SS_SD_fits.
  - exact formatted_bamBlock.
  - lia.
  - vm_compute. reflexivity.
Defined.

End FSBam.

Module FSDirectory.
Import FS.

(** ** Pointers and entries of a well-formed device *)

Lemma u32_range z : 0 <= u32 z < 2 ^ 32.
Proof. unfold u32. apply Z.mod_pos_bound. lia. Qed.

Lemma blockPtr_valid dev b p :
  0 <= b -> blockPtr dev b = Some p -> (p < length (blocks dev))%nat.
Proof.
  intros Hb. unfold blockPtr. case_decide; intros [= <-]. lia.
Qed.

Lemma blockPtr_ts_valid dev t s p :
  blockPtr_ts dev t s = Some p -> (p < length (blocks dev))%nat.
Proof.
  apply blockPtr_valid. pose proof (u32_range (translateBlockNr (layout dev) t s)). lia.
Qed.

Lemma entryBytes_wf dev p slot :
  wfBlocks dev -> (p < length (blocks dev))%nat -> 0 <= slot < 8 ->
  exists e, entryBytes dev (mkEntryPtr p slot) = Some e /\ length e = 32%nat.
Proof.
  intros Hwf Hp Hslot.
  destruct (lookup_lt_is_Some_2 (blocks dev) p Hp) as [blk Hblk].
  unfold entryBytes. simpl. rewrite Hblk. cbn [mbind option_bind].
  assert (Hl : length (take 32 (drop (Z.to_nat (32 * slot)) (data blk))) = 32%nat).
  { rewrite length_take, length_drop, (Hwf p blk Hblk). lia. }
  case_decide; [|contradiction]. eexists. split; [reflexivity | exact Hl].
Qed.

Lemma nextBlockPtr_wf dev p :
  wfBlocks dev -> (p < length (blocks dev))%nat ->
  exists ptr', nextBlockPtr dev (Some p) = Some ptr'
               /\ (forall q, ptr' = Some q -> (q < length (blocks dev))%nat).
Proof.
  intros Hwf Hp.
  destruct (lookup_lt_is_Some_2 (blocks dev) p Hp) as [blk Hblk].
  pose proof (Hwf p blk Hblk) as Hlen.
  unfold nextBlockPtr.
  rewrite (FSBam.peek_eq dev p blk 0 Hblk) by lia.
  rewrite (FSBam.peek_eq dev p blk 1 Hblk) by lia.
  cbn [mbind option_bind]. eexists. split; [reflexivity|].
  intros q Hq. eapply blockPtr_ts_valid, Hq.
Qed.

(** ** The scan stops at the first empty slot *)

Section Scan.

Variable isEmpty : list Z -> bool.
Variable isHidden : list Z -> bool.
Variable dev : FSDevice.
Variable skipInvisible : bool.
Hypothesis dev_wf : wfBlocks dev.

Let visible (e : FSDirEntryPtr) : bool :=
  negb (skipInvisible && isHidden (entryOf dev e)).
Let empty (e : FSDirEntryPtr) : bool := isEmpty (entryOf dev e).

Lemma scanDirectory_loop_spec (n : nat) (i : Z) (ptr : option nat)
    (acc : list FSDirEntryPtr) :
  (forall p, ptr = Some p -> (p < length (blocks dev))%nat) ->
  exists slots,
    dirSlots dev n i ptr = Some slots
    /\ (length slots <= n)%nat
    /\ scanDirectory_loop isEmpty isHidden dev skipInvisible n i ptr acc
       = Some (acc ++ List.filter visible (before empty slots)).
Proof.
  revert i ptr acc. induction n as [|n IH]; intros i ptr acc Hptr.
  - exists []. simpl. rewrite app_nil_r.
    split; [reflexivity|]. split; [lia | reflexivity].
  - destruct ptr as [p|].
    2:{ exists []. simpl. rewrite app_nil_r.
        split; [reflexivity|]. split; [lia | reflexivity]. }
    specialize (Hptr p eq_refl).
    assert (Hslot : 0 <= i mod 8 < 8) by (apply Z.mod_pos_bound; lia).
    destruct (entryBytes_wf dev p (i mod 8) dev_wf Hptr Hslot) as (e & He & _).
    assert (Hnext : exists ptr',
               (if decide (i mod 8 = 7) then nextBlockPtr dev (Some p) else Some (Some p))
               = Some ptr'
               /\ (forall q, ptr' = Some q -> (q < length (blocks dev))%nat)).
    { case_decide.
      - apply nextBlockPtr_wf; assumption.
      - exists (Some p). split; [reflexivity|]. intros q [= <-]. exact Hptr. }
    destruct Hnext as (ptr' & Hnext & Hptr').
    destruct (IH (i + 1) ptr'
                (if negb (skipInvisible && isHidden e)
                 then acc ++ [mkEntryPtr p (i mod 8)] else acc) Hptr')
      as (rest & Hrest & Hlen & Hloop).
    exists (mkEntryPtr p (i mod 8) :: rest).
    cbn [dirSlots scanDirectory_loop]. rewrite Hnext, He.
    cbn [mbind option_bind]. rewrite Hrest. cbn [mbind option_bind].
    split; [reflexivity|]. split; [simpl; lia|].
    cbn [before]. unfold empty at 1, entryOf. rewrite He. cbn [default from_option id].
    destruct (isEmpty e).
    + simpl. rewrite app_nil_r. reflexivity.
    + rewrite Hloop. cbn [List.filter].
      unfold visible at 2, entryOf. rewrite He. cbn [default from_option id].
      destruct (negb (skipInvisible && isHidden e)).
      * rewrite <- app_assoc. reflexivity.
      * reflexivity.
Qed.

End Scan.

(** C6, as the code has it: on a device whose blocks have their 256 bytes,
    [scanDirectory] walks the directory slots in chain order from (18,1),
    eight per block and at most 144, and stops at the first empty slot,
    whichever place in its block that slot has; the slots before it, all of
    them not empty, are the result in order, without the hidden ones when
    those are skipped. *)
Theorem scanDirectory_stops_at_first_empty (isEmpty isHidden : list Z -> bool)
    (dev : FSDevice) (skipInvisible : bool) :
  wfBlocks dev ->
  exists slots,
    dirSlots dev 144 0 (blockPtr_ts dev 18 1) = Some slots
    /\ (length slots <= 144)%nat
    /\ scanDirectory isEmpty isHidden dev skipInvisible
       = Some (List.filter
                 (fun e => negb (skipInvisible && isHidden (entryOf dev e)))
                 (before (fun e => isEmpty (entryOf dev e)) slots)).
Proof.
  intros Hwf.
  destruct (scanDirectory_loop_spec isEmpty isHidden dev skipInvisible Hwf
              144 0 (blockPtr_ts dev 18 1) [])
    as (slots & Hslots & Hlen & Hscan).
  - intros p Hp. eapply blockPtr_ts_valid, Hp.
  - exists slots. repeat split; assumption.
Qed.

Lemma formatted_wf : wfBlocks formatted.
Proof.
  intros p blk Hblk.
  assert (Hall : Forall (fun b => length (data b) = 256%nat) (blocks formatted)).
  { apply (bool_decide_unpack
             (Forall (fun b => length (data b) = 256%nat) (blocks formatted))).
    vm_compute. exact I. }
  rewrite Forall_lookup in Hall. exact (Hall p blk Hblk).
Qed.

Lemma dirWithGap_wf : wfBlocks dirWithGap.
Proof.
  intros p blk Hblk.
  assert (Hall : Forall (fun b => length (data b) = 256%nat) (blocks dirWithGap)).
  { apply (bool_decide_unpack
             (Forall (fun b => length (data b) = 256%nat) (blocks dirWithGap))).
    vm_compute. exact I. }
  rewrite Forall_lookup in Hall. exact (Hall p blk Hblk).
Qed.

Lemma scanDirectory_stops_at_first_empty_witness :
  exists slots,
    dirSlots dirWithGap 144 0 (blockPtr_ts dirWithGap 18 1) = Some slots
    /\ (length slots <= 144)%nat
    /\ scanDirectory FSDirEntry_isEmpty (fun _ => false) dirWithGap true
       = Some (List.filter
                 (fun e => negb (true && (fun _ => false) (entryOf dirWithGap e)))
                 (before (fun e => FSDirEntry_isEmpty (entryOf dirWithGap e)) slots)).
Proof.
  apply (scanDirectory_stops_at_first_empty FSDirEntry_isEmpty (fun _ => false)
           dirWithGap true).
  exact dirWithGap_wf.
Defined.

(** C6 as stated does not hold: in [dirWithGap] the first slot of the
    directory block is in use, the second is empty and the third is in use
    again.  A walk that stops only at an empty first slot of a sector lists
    slots 0 and 2; [scanDirectory] stops at slot 1 and lists slot 0 alone. *)
Lemma scanDirectory_stops_within_sector :
  scanDirectory FSDirEntry_isEmpty (fun _ => false) dirWithGap false
  = Some [mkEntryPtr 358 0]
  /\ scanDirectory_stated FSDirEntry_isEmpty (fun _ => false) dirWithGap false
     = Some [mkEntryPtr 358 0; mkEntryPtr 358 2]
  /\ FSDirEntry_isEmpty (entryOf dirWithGap (mkEntryPtr 358 2)) = false.
Proof. vm_compute. repeat split. Qed.

End FSDirectory.

Module FSAllocate.
Import FS.

(** ** Writes seen byte by byte *)

Lemma sameShape_refl dev : sameShape dev dev.
Proof. split; reflexivity. Qed.

Lemma sameShape_trans dev1 dev2 dev3 :
  sameShape dev1 dev2 -> sameShape dev2 dev3 -> sameShape dev1 dev3.
Proof. intros [? ?] [? ?]. split; congruence. Qed.

Lemma cell_lookup dev p blk off :
  blocks dev !! p = Some blk -> cell dev p off = byteAt (data blk) off.
Proof.
  intros Hb. unfold cell. rewrite (list_lookup_total_correct _ _ _ Hb). reflexivity.
Qed.

Lemma poke_cell dev p off v :
  wfBlocks dev -> (p < length (blocks dev))%nat -> 0 <= off < 256 ->
  exists dev',
    poke dev p off v = Some dev'
    /\ sameShape dev dev' /\ wfBlocks dev'
    /\ (forall q, q <> p -> blocks dev' !! q = blocks dev !! q)
    /\ (forall q o, 0 <= o ->
          cell dev' q o = if decide (q = p /\ o = off) then v else cell dev q o).
Proof.
  intros Hwf Hp Hoff.
  destruct (lookup_lt_is_Some_2 (blocks dev) p Hp) as [blk Hblk].
  pose proof (Hwf p blk Hblk) as Hlen.
  rewrite (FSBam.poke_eq dev p blk off v Hblk) by lia.
  eexists. split; [reflexivity|]. split; [|split; [|split]].
  - split; [reflexivity|]. simpl. apply length_insert.
  - intros q b Hq. simpl in Hq.
    destruct (decide (q = p)) as [->|Hne].
    + rewrite list_lookup_insert_eq in Hq by assumption.
      injection Hq as <-. simpl. rewrite length_insert. exact Hlen.
    + rewrite list_lookup_insert_ne in Hq by congruence. exact (Hwf q b Hq).
  - intros q Hne. simpl. apply list_lookup_insert_ne. congruence.
  - intros q o Ho. unfold cell. simpl.
    destruct (decide (q = p)) as [->|Hne].
    + rewrite list_lookup_total_insert_eq by assumption. simpl.
      rewrite (list_lookup_total_correct _ _ _ Hblk).
      rewrite FSBam.byteAt_insert by lia.
      repeat case_decide; try reflexivity; exfalso; intuition congruence.
    + rewrite list_lookup_total_insert_ne by congruence.
      case_decide; [exfalso; intuition congruence | reflexivity].
Qed.

Lemma bamBlock_frame dev dev' d pb :
  bamBlock dev d -> bamPtr dev = Some pb -> sameShape dev dev' ->
  blocks dev' !! pb = blocks dev !! pb ->
  bamBlock dev' d /\ bamPtr dev' = Some pb.
Proof.
  intros (p & blk & Hp & Hblk & Hd & Hlen & Hall) Hpb [Hlay Hsz] Hsame.
  assert (p = pb) by congruence. subst p.
  assert (Hptr : bamPtr dev' = Some pb).
  { unfold bamPtr, blockPtr_ts, blockPtr in *. rewrite Hlay, Hsz. exact Hpb. }
  split; [|exact Hptr].
  exists pb, blk. repeat split; try assumption. congruence.
Qed.

(** [markAsAllocated] changes the BAM block and nothing else. *)
Lemma markAsAllocated_frame dev d pb t s :
  wfBlocks dev -> layoutFitsBAM (layout dev) -> bamBlock dev d ->
  bamPtr dev = Some pb ->
  isTrackSectorPair (layout dev) t s = true ->
  exists dev' d',
    markAsAllocated dev t s = Some dev'
    /\ sameShape dev dev' /\ wfBlocks dev' /\ bamBlock dev' d'
    /\ bamPtr dev' = Some pb
    /\ (forall q, q <> pb -> blocks dev' !! q = blocks dev !! q).
Proof.
  intros Hwf Hfit Hbam Hpb Hpair.
  destruct (Hfit t s Hpair) as [Ht Hs].
  destruct (FSBam.setAllocationBit_invariant dev d t s false 0 Hfit Hbam Hpair)
    as (dev' & d' & Hrun & Hlay & Hbam' & _); [lia|].
  destruct (FSBam.setAllocationBit_spec dev d t s false Hbam Hpair Ht Hs)
    as (dev'' & p & blk & Hrun' & _ & Hp & Hblk & Hblocks).
  assert (dev'' = dev') by congruence. subst dev''.
  assert (p = pb) by congruence. subst p.
  cbn zeta in Hblocks.
  exists dev', d'. unfold markAsAllocated.
  assert (Hshape : sameShape dev dev').
  { split; [exact Hlay|]. rewrite Hblocks. apply length_insert. }
  split; [exact Hrun|]. split; [exact Hshape|]. split; [|split; [exact Hbam'|split]].
  - destruct Hbam' as (p' & blk' & Hp' & Hblk' & Hd' & Hlen' & _).
    assert (Hpb' : bamPtr dev' = Some pb).
    { unfold bamPtr, blockPtr_ts, blockPtr in *.
      destruct Hshape as [-> ->]. exact Hpb. }
    assert (p' = pb) by congruence. subst p'.
    intros q b Hq. destruct (decide (q = pb)) as [->|Hne].
    + assert (b = blk') by congruence. subst b. congruence.
    + rewrite Hblocks, list_lookup_insert_ne in Hq by congruence.
      exact (Hwf q b Hq).
  - unfold bamPtr, blockPtr_ts, blockPtr in *.
    destruct Hshape as [-> ->]. exact Hpb.
  - intros q Hne. rewrite Hblocks. apply list_lookup_insert_ne. congruence.
Qed.

Lemma cell_same_block dev dev' q o :
  blocks dev' !! q = blocks dev !! q -> cell dev' q o = cell dev q o.
Proof.
  intros H. unfold cell. rewrite !list_lookup_total_alt, H. reflexivity.
Qed.

(** ** The chain of a file *)

Lemma blockOf_nonneg l r : 0 <= blockOf l r.
Proof. unfold blockOf. pose proof (FSDirectory.u32_range (translateBlockNr l (ref_t r) (ref_s r))). lia. Qed.

Lemma blockPtr_ref_ptrOf dev r :
  blockOf (layout dev) r < Z.of_nat (length (blocks dev)) ->
  blockPtr_ref dev r = Some (ptrOf (layout dev) r)
  /\ blockPtr_ts dev (ref_t r) (ref_s r) = Some (ptrOf (layout dev) r)
  /\ (ptrOf (layout dev) r < length (blocks dev))%nat.
Proof.
  intros Hlt. pose proof (blockOf_nonneg (layout dev) r) as H0.
  unfold blockPtr_ref, blockPtr_ts, blockPtr, ptrOf. fold (blockOf (layout dev) r).
  case_decide; [|lia]. repeat split. lia.
Qed.

Lemma ptrOf_inj l r1 r2 : ptrOf l r1 = ptrOf l r2 -> blockOf l r1 = blockOf l r2.
Proof.
  unfold ptrOf. intros H.
  pose proof (blockOf_nonneg l r1). pose proof (blockOf_nonneg l r2). lia.
Qed.

Lemma chainOk_cons l n r refs :
  chainOk l n (r :: refs) ->
  chainOk l n refs /\ (ptrOf l r ∉ (ptrOf l <$> refs))
  /\ isTrackSectorPair l (ref_t r) (ref_s r) = true
  /\ blockOf l r < n
  /\ blockOf l r <> blockOf l (mkBlockRef 18 0).
Proof.
  intros [Hall Hnd]. apply Forall_cons in Hall as [(Hp & _ & _ & Hlt & Hb & _) Hall].
  rewrite fmap_cons in Hnd. apply NoDup_cons in Hnd as [Hnot Hnd].
  repeat split; try assumption.
  intros Hin. apply Hnot.
  apply list_elem_of_fmap in Hin as (r' & Heq & Hin).
  apply list_elem_of_fmap. exists r'. split; [|exact Hin].
  apply ptrOf_inj. exact Heq.
Qed.

Lemma bamPtr_blockOf dev pb :
  bamPtr dev = Some pb -> pb = ptrOf (layout dev) (mkBlockRef 18 0).
Proof.
  unfold bamPtr, blockPtr_ts, blockPtr, ptrOf, blockOf. simpl.
  case_decide; intros [= <-]. reflexivity.
Qed.

Lemma chainRefs_lookup_S l n r j rj :
  chainRefs l n r !! j = Some rj ->
  chainRefs l n r !! S j = if decide (S j < n)%nat then Some (nextRef l rj) else None.
Proof.
  revert r j. induction n as [|n IH]; intros r j Hj; [discriminate|].
  destruct j as [|j].
  - injection Hj as <-. cbn [chainRefs lookup list_lookup].
    destruct n as [|n]; [case_decide; [lia | reflexivity]|].
    case_decide; [reflexivity | lia].
  - cbn [chainRefs] in Hj. cbn [chainRefs].
    rewrite lookup_cons in Hj. rewrite lookup_cons.
    rewrite (IH _ _ Hj). repeat case_decide; try lia; reflexivity.
Qed.

Lemma chainRefs_length l n r : length (chainRefs l n r) = n.
Proof. revert r. induction n as [|n IH]; intros r; simpl; [|rewrite IH]; reflexivity. Qed.

(** The loop of [allocate] takes the [n] references from [ref] on, one
    after the other: it marks each in the BAM and writes the reference
    that follows into the first two bytes of its block. *)
Lemma allocate_loop_spec l pb n :
  forall dev r acc blk d,
  layout dev = l -> wfBlocks dev -> layoutFitsBAM l -> bamBlock dev d ->
  bamPtr dev = Some pb ->
  chainOk l (Z.of_nat (length (blocks dev))) (chainRefs l n r) ->
  exists dev' d' blk',
    allocate_loop n dev r acc blk = Some (dev', acc ++ chainRefs l n r, blk')
    /\ sameShape dev dev' /\ wfBlocks dev' /\ bamBlock dev' d'
    /\ bamPtr dev' = Some pb
    /\ blk' = from_option Some blk (last (ptrOf l <$> chainRefs l n r))
    /\ (forall q o, 0 <= o -> q <> pb ->
          q ∉ (ptrOf l <$> chainRefs l n r) \/ 2 <= o ->
          cell dev' q o = cell dev q o)
    /\ (forall j rj, chainRefs l n r !! j = Some rj ->
          cell dev' (ptrOf l rj) 0 = u8 (ref_t (nextRef l rj))
          /\ cell dev' (ptrOf l rj) 1 = u8 (ref_s (nextRef l rj))).
Proof.
  induction n as [|n IH]; intros dev r acc blk d Hlay Hwf Hfit Hbam Hpb Hchain.
  - exists dev, d, blk. cbn [allocate_loop chainRefs]. rewrite app_nil_r.
    split; [reflexivity|]. split; [apply sameShape_refl|].
    split; [exact Hwf|]. split; [exact Hbam|]. split; [exact Hpb|].
    split; [reflexivity|]. split; [intros; reflexivity|].
    intros j rj Hj; discriminate.
  - cbn [chainRefs] in Hchain |- *.
    apply chainOk_cons in Hchain as (Htail & Hfresh & Hpair & Hlt & Hnotbam).
    (* mark the block *)
    destruct (markAsAllocated_frame dev d pb (ref_t r) (ref_s r) Hwf)
      as (dev1 & d1 & Hmark & Hsh1 & Hwf1 & Hbam1 & Hpb1 & Hfr1);
      try (rewrite Hlay); try assumption.
    cbn [allocate_loop]. rewrite Hmark. cbn [mbind option_bind].
    pose proof Hsh1 as [Hlay1 Hsz1].
    (* its pointer *)
    assert (Hlt1 : blockOf (layout dev1) r < Z.of_nat (length (blocks dev1)))
      by (rewrite Hlay1, Hsz1, Hlay; exact Hlt).
    destruct (blockPtr_ref_ptrOf dev1 r Hlt1) as (_ & Hptr & Hp).
    rewrite Hlay1, Hlay in Hptr, Hp. rewrite Hptr.
    set (p := ptrOf l r) in *.
    assert (Hppb : p <> pb).
    { intros Heq. apply Hnotbam. apply ptrOf_inj.
      rewrite (bamPtr_blockOf dev pb Hpb) in Heq. rewrite Hlay in Heq. exact Heq. }
    (* the link *)
    rewrite Hlay1, Hlay.
    assert (Hnext : nextRef l r
                    = let '(_, (t', s')) := nextTrackAndSector l (ref_t r) (ref_s r) in
                      mkBlockRef t' s') by reflexivity.
    destruct (nextTrackAndSector l (ref_t r) (ref_s r)) as [ok [t' s']].
    cbn [mbind option_bind].
    destruct (poke_cell dev1 p 0 (u8 t') Hwf1 Hp)
      as (dev2 & Hpoke2 & Hsh2 & Hwf2 & Hfr2 & Hcell2); [lia|].
    rewrite Hpoke2. cbn [mbind option_bind].
    pose proof Hsh2 as [Hlay2 Hsz2].
    destruct (poke_cell dev2 p 1 (u8 s') Hwf2)
      as (dev3 & Hpoke3 & Hsh3 & Hwf3 & Hfr3 & Hcell3); [lia | lia |].
    rewrite Hpoke3. cbn [mbind option_bind].
    pose proof Hsh3 as [Hlay3 Hsz3].
    (* the BAM block is still in place *)
    destruct (bamBlock_frame dev1 dev3 d1 pb Hbam1 Hpb1) as [Hbam3 Hpb3].
    { eapply sameShape_trans; eassumption. }
    { rewrite Hfr3, Hfr2 by congruence. reflexivity. }
    (* the rest of the chain *)
    destruct (IH dev3 (mkBlockRef t' s') (acc ++ [r]) (Some p) d1)
      as (dev' & d' & blk' & Hloop & Hsh' & Hwf' & Hbam' & Hpb' & Hblk' & Hframe & Hlinks);
      try assumption.
    { congruence. }
    { rewrite Hsz3, Hsz2, Hsz1, <- Hnext. exact Htail. }
    rewrite Hloop. rewrite <- Hnext in *.
    exists dev', d', blk'. rewrite <- app_assoc. split; [reflexivity|].
    split; [repeat (eapply sameShape_trans; [eassumption|]); apply sameShape_refl|].
    split; [exact Hwf'|]. split; [exact Hbam'|]. split; [exact Hpb'|].
    split; [|split].
    + rewrite Hblk'. rewrite fmap_cons.
      destruct (ptrOf l <$> chainRefs l n (nextRef l r)) as [|x xs];
        [reflexivity|].
      rewrite last_cons_cons. destruct (last (x :: xs)) eqn:El; [reflexivity|].
      apply last_None in El. discriminate.
    + intros q o Ho Hq Hcond.
      rewrite Hframe; [|exact Ho|exact Hq|].
      2:{ destruct Hcond as [Hnin|]; [left|right; assumption].
          rewrite fmap_cons in Hnin. intros Hin. apply Hnin. right. exact Hin. }
      rewrite Hcell3 by exact Ho. case_decide as Hd3.
      { destruct Hd3 as [-> ->]. destruct Hcond as [Hnin|]; [|lia].
        exfalso. apply Hnin. rewrite fmap_cons. left. }
      rewrite Hcell2 by exact Ho. case_decide as Hd2.
      { destruct Hd2 as [-> ->]. destruct Hcond as [Hnin|]; [|lia].
        exfalso. apply Hnin. rewrite fmap_cons. left. }
      apply cell_same_block, Hfr1. exact Hq.
    + intros j rj Hj. destruct j as [|j].
      * injection Hj as <-. fold p.
        rewrite !Hframe by (try lia; try assumption; left; exact Hfresh).
        rewrite !Hcell3, !Hcell2 by lia.
        repeat case_decide; try lia; try (exfalso; intuition congruence).
        rewrite Hnext. split; reflexivity.
      * rewrite lookup_cons in Hj. apply Hlinks in Hj. exact Hj.
Qed.

Lemma chainOk_NoDup l n refs : chainOk l n refs -> NoDup (ptrOf l <$> refs).
Proof.
  induction refs as [|r refs IH]; intros Hok.
  - constructor.
  - apply chainOk_cons in Hok as (Htail & Hfresh & _).
    rewrite fmap_cons. apply NoDup_cons. split; [exact Hfresh | exact (IH Htail)].
Qed.

Lemma chainOk_lookup l n refs j r :
  chainOk l n refs -> refs !! j = Some r ->
  isTrackSectorPair l (ref_t r) (ref_s r) = true
  /\ 1 <= ref_t r < 256 /\ 0 <= ref_s r < 256 /\ blockOf l r < n
  /\ blockOf l r <> blockOf l (mkBlockRef 18 0)
  /\ blockOf l r <> blockOf l (mkBlockRef 18 1).
Proof.
  intros [Hall _] Hj. rewrite Forall_lookup in Hall. exact (Hall j r Hj).
Qed.

Lemma chainOk_distinct l n refs i j ri rj :
  chainOk l n refs -> refs !! i = Some ri -> refs !! j = Some rj ->
  ptrOf l ri = ptrOf l rj -> i = j.
Proof.
  intros Hok Hi Hj Heq. apply chainOk_NoDup in Hok.
  eapply NoDup_lookup; [exact Hok | |].
  - rewrite list_lookup_fmap, Hi. reflexivity.
  - rewrite list_lookup_fmap, Hj. simpl. congruence.
Qed.

(** What [allocate] does once the walk has found [start] free: it takes
    [start] and the [k - 1] references that follow it, whether their
    blocks are free or not, links them and ends the chain with (0,0). *)
Lemma allocate_spec l pb fuel dev start k d :
  layout dev = l -> wfBlocks dev -> layoutFitsBAM l -> bamBlock dev d ->
  bamPtr dev = Some pb ->
  isValidRef l start = true -> isFree_ref dev start = Some true ->
  ref_t start <> 0 -> (0 < fuel)%nat -> (0 < k)%nat ->
  chainOk l (Z.of_nat (length (blocks dev))) (chainRefs l k start) ->
  exists dev' d',
    allocate fuel dev start (Z.of_nat k) = Some (dev', chainRefs l k start)
    /\ sameShape dev dev' /\ wfBlocks dev' /\ bamBlock dev' d'
    /\ (forall q o, 0 <= o -> q <> pb ->
          q ∉ (ptrOf l <$> chainRefs l k start) \/ 2 <= o ->
          cell dev' q o = cell dev q o)
    /\ (forall j rj, chainRefs l k start !! j = Some rj ->
          cell dev' (ptrOf l rj) 0
          = from_option (fun r => u8 (ref_t r)) 0 (chainRefs l k start !! S j)
          /\ cell dev' (ptrOf l rj) 1
             = from_option (fun r => u8 (ref_s r)) 0 (chainRefs l k start !! S j)).
Proof.
  intros Hlay Hwf Hfit Hbam Hpb Hvalid Hfree Ht Hfuel Hk Hchain.
  unfold allocate. rewrite bool_decide_true by lia. cbn [assertion mbind option_bind].
  unfold nextFreeBlock. rewrite Hlay, Hvalid.
  destruct fuel as [|fuel]; [lia|]. cbn [nextFreeBlock_loop].
  case_decide; [contradiction|]. rewrite Hfree. cbn [mbind option_bind].
  case_decide; [|contradiction].
  rewrite Nat2Z.id.
  destruct (allocate_loop_spec l pb k dev start [] None d Hlay Hwf Hfit Hbam Hpb Hchain)
    as (dev1 & d1 & blk1 & Hloop & Hsh1 & Hwf1 & Hbam1 & Hpb1 & Hblk1 & Hframe & Hlinks).
  rewrite Hloop. cbn [mbind option_bind app].
  (* the last block *)
  set (chain := chainRefs l k start) in *.
  assert (Hlen : length chain = k) by apply chainRefs_length.
  destruct (lookup_lt_is_Some_2 chain (pred k)) as [rl Hrl]; [lia|].
  assert (Hlast : last (ptrOf l <$> chain) = Some (ptrOf l rl)).
  { rewrite last_lookup, length_fmap, Hlen, list_lookup_fmap, Hrl. reflexivity. }
  rewrite Hlast in Hblk1. cbn [from_option] in Hblk1. subst blk1.
  cbn [mbind option_bind].
  destruct (chainOk_lookup _ _ _ _ _ Hchain Hrl) as (_ & _ & _ & Hlt & Hnb & _).
  pose proof Hsh1 as [Hlay1 Hsz1].
  assert (Hp : (ptrOf l rl < length (blocks dev1))%nat).
  { rewrite Hsz1. unfold ptrOf. pose proof (blockOf_nonneg l rl). lia. }
  set (p := ptrOf l rl) in *.
  destruct (poke_cell dev1 p 0 0 Hwf1 Hp)
    as (dev2 & Hpoke2 & Hsh2 & Hwf2 & Hfr2 & Hcell2); [lia|].
  rewrite Hpoke2. cbn [mbind option_bind].
  destruct (poke_cell dev2 p 1 0 Hwf2)
    as (dev3 & Hpoke3 & Hsh3 & Hwf3 & Hfr3 & Hcell3);
    [destruct Hsh2 as [_ ->]; exact Hp | lia |].
  rewrite Hpoke3. cbn [mbind option_bind].
  assert (Hppb : p <> pb).
  { intros Heq. apply Hnb. apply ptrOf_inj.
    rewrite (bamPtr_blockOf dev pb Hpb) in Heq. rewrite Hlay in Heq. exact Heq. }
  destruct (bamBlock_frame dev1 dev3 d1 pb Hbam1 Hpb1) as [Hbam3 Hpb3].
  { eapply sameShape_trans; eassumption. }
  { rewrite Hfr3, Hfr2 by congruence. reflexivity. }
  exists dev3, d1. split; [reflexivity|].
  split; [repeat (eapply sameShape_trans; [eassumption|]); apply sameShape_refl|].
  split; [exact Hwf3|]. split; [exact Hbam3|]. split.
  - intros q o Ho Hq Hcond.
    rewrite Hcell3 by exact Ho. case_decide as Hd3.
    { destruct Hd3 as [-> ->]. destruct Hcond as [Hnin|]; [|lia].
      exfalso. apply Hnin. apply list_elem_of_fmap. exists rl.
      split; [reflexivity|]. eapply list_elem_of_lookup_2, Hrl. }
    rewrite Hcell2 by exact Ho. case_decide as Hd2.
    { destruct Hd2 as [-> ->]. destruct Hcond as [Hnin|]; [|lia].
      exfalso. apply Hnin. apply list_elem_of_fmap. exists rl.
      split; [reflexivity|]. eapply list_elem_of_lookup_2, Hrl. }
    apply Hframe; assumption.
  - intros j rj Hj.
    pose proof (chainRefs_lookup_S l k start j rj Hj) as HS. fold chain in HS.
    rewrite HS. clear HS.
    apply lookup_lt_Some in Hj as Hjlt. rewrite Hlen in Hjlt.
    destruct (decide (S j < k)%nat) as [Hlt'|Hge]; cbn [from_option].
    + assert (Hpne : ptrOf l rj <> p).
      { intros Heq. assert (j = pred k); [|lia].
        eapply (chainOk_distinct l _ chain j (pred k) rj rl); eassumption. }
      rewrite !Hcell3, !Hcell2 by lia.
      repeat case_decide; try (exfalso; intuition (congruence || lia)).
      exact (Hlinks j rj Hj).
    + assert (j = pred k) by lia. subst j.
      assert (rj = rl) by congruence. subst rj. fold p.
      rewrite !Hcell3, !Hcell2 by lia.
      split; repeat case_decide; try reflexivity; exfalso; intuition (congruence || lia).
Qed.

(** C3 at a failing input: on [oneFreeBlock] only (1,0) is free, and
    (1,10), the next block in the order, is in use.  Asked for two blocks,
    [allocate] returns (1,0) and (1,10): the second block was not free when
    it was picked, and the list is not empty although the disk has a single
    free block. *)
Theorem allocate_takes_block_in_use :
  isFree oneFreeBlock 1 0 = Some true
  /\ isFree oneFreeBlock 1 10 = Some false
  /\ nextFreeBlock 700 oneFreeBlock (mkBlockRef 1 10) = Some (mkBlockRef 0 0)
  /\ (r ← allocate 700 oneFreeBlock (mkBlockRef 1 0) 2; Some r.2)
     = Some [mkBlockRef 1 0; mkBlockRef 1 10].
Proof. vm_compute. repeat split. Qed.

End FSAllocate.

Module FSFile.
Import FS.

(** ** The data loop of [makeFile] *)

Lemma byteAt_cons x l i :
  0 <= i -> byteAt (x :: l) i = if decide (i = 0) then x else byteAt l (i - 1).
Proof.
  intros Hi. unfold byteAt. case_decide as H.
  - subst. reflexivity.
  - replace (Z.to_nat i) with (S (Z.to_nat (i - 1))) by lia. reflexivity.
Qed.

Lemma chainOk_ptr l dev refs a ra :
  layout dev = l ->
  chainOk l (Z.of_nat (length (blocks dev))) refs -> refs !! a = Some ra ->
  blockPtr_ref dev ra = Some (ptrOf l ra)
  /\ (ptrOf l ra < length (blocks dev))%nat
  /\ ptrOf l ra ∈ (ptrOf l <$> refs).
Proof.
  intros Hlay Hok Ha.
  destruct (FSAllocate.chainOk_lookup _ _ _ _ _ Hok Ha) as (_ & _ & _ & Hlt & _).
  rewrite <- Hlay in Hlt.
  destruct (FSAllocate.blockPtr_ref_ptrOf dev ra Hlt) as (Hp & _ & Hlen).
  rewrite Hlay in Hp, Hlen. repeat split; try assumption.
  apply list_elem_of_fmap. exists ra. split; [reflexivity|].
  eapply list_elem_of_lookup_2, Ha.
Qed.

(** The loop writes the bytes of [buf] to the data area (offsets 2 to
    255) of the blocks of the list, in order: byte number [n] of the data
    areas laid end to end, counted from the place where the loop starts,
    receives [buf[n]]; nothing else changes. *)
Lemma makeFile_write_spec l refs :
  forall buf dev it j rit,
  layout dev = l -> wfBlocks dev ->
  chainOk l (Z.of_nat (length (blocks dev))) refs ->
  refs !! it = Some rit -> 2 <= j <= 256 ->
  254 * Z.of_nat it + (j - 2) + Z.of_nat (length buf) <= 254 * Z.of_nat (length refs) ->
  exists dev',
    makeFile_write dev refs it (Some (ptrOf l rit)) j buf = Some dev'
    /\ sameShape dev dev' /\ wfBlocks dev'
    /\ (forall q, q ∉ (ptrOf l <$> refs) -> blocks dev' !! q = blocks dev !! q)
    /\ (forall q o, 0 <= o < 2 -> cell dev' q o = cell dev q o)
    /\ (forall a ra o, refs !! a = Some ra -> 2 <= o < 256 ->
          cell dev' (ptrOf l ra) o
          = if decide (254 * Z.of_nat it + (j - 2) <= 254 * Z.of_nat a + (o - 2)
                       < 254 * Z.of_nat it + (j - 2) + Z.of_nat (length buf))
            then byteAt buf (254 * Z.of_nat a + (o - 2) - (254 * Z.of_nat it + (j - 2)))
            else cell dev (ptrOf l ra) o).
Proof.
  induction buf as [|byte rest IH]; intros dev it j rit Hlay Hwf Hok Hit Hj Hcap.
  - exists dev. cbn [makeFile_write]. split; [reflexivity|].
    split; [apply FSAllocate.sameShape_refl|]. split; [exact Hwf|].
    split; [reflexivity|]. split; [reflexivity|].
    intros a ra o Ha Ho. simpl length. case_decide; [lia | reflexivity].
  - cbn [makeFile_write]. cbn [length] in Hcap.
    destruct (decide (j = 256)) as [->|Hj256].
    + (* on to the next block of the list *)
      destruct (lookup_lt_is_Some_2 refs (S it)) as [r' Hr'].
      { apply lookup_lt_Some in Hit. lia. }
      rewrite Hr'. cbn [mbind option_bind].
      destruct (chainOk_ptr l dev refs (S it) r' Hlay Hok Hr') as (Hptr & Hp & Hin).
      rewrite Hptr. cbn [mbind option_bind].
      destruct (FSAllocate.poke_cell dev (ptrOf l r') 2 byte Hwf Hp)
        as (dev1 & Hpoke & Hsh1 & Hwf1 & Hfr1 & Hcell1); [lia|].
      rewrite Hpoke. cbn [mbind option_bind].
      pose proof Hsh1 as [Hlay1 Hsz1].
      destruct (IH dev1 (S it) 3 r') as (dev' & Hrun & Hsh' & Hwf' & Hfr' & Hlow' & Hval');
        try assumption; try lia.
      { congruence. }
      { rewrite Hsz1. exact Hok. }
      exists dev'. split; [exact Hrun|].
      split; [eapply FSAllocate.sameShape_trans; eassumption|].
      split; [exact Hwf'|]. split; [|split].
      * intros q Hq. rewrite Hfr' by exact Hq. apply Hfr1. intros ->. contradiction.
      * intros q o Ho. rewrite Hlow' by exact Ho. rewrite Hcell1 by lia.
        case_decide; [lia | reflexivity].
      * intros a ra o Ha Ho. rewrite (Hval' a ra o Ha Ho).
        rewrite Hcell1 by lia.
        assert (Hsame : ptrOf l ra = ptrOf l r' <-> a = S it).
        { split; [intros Heq|intros ->; congruence].
          eapply (FSAllocate.chainOk_distinct l _ refs a (S it) ra r'); eassumption. }
        cbn [length].
        repeat case_decide; rewrite ?(byteAt_cons byte rest) by lia;
          repeat case_decide; try reflexivity; try lia;
          try (f_equal; lia);
          try (exfalso; intuition lia).
    + (* within the block *)
      destruct (chainOk_ptr l dev refs it rit Hlay Hok Hit) as (Hptr & Hp & Hin).
      cbn [mbind option_bind].
      destruct (FSAllocate.poke_cell dev (ptrOf l rit) j byte Hwf Hp)
        as (dev1 & Hpoke & Hsh1 & Hwf1 & Hfr1 & Hcell1); [lia|].
      rewrite Hpoke. cbn [mbind option_bind].
      pose proof Hsh1 as [Hlay1 Hsz1].
      destruct (IH dev1 it (j + 1) rit) as (dev' & Hrun & Hsh' & Hwf' & Hfr' & Hlow' & Hval');
        try assumption; try lia.
      { congruence. }
      { rewrite Hsz1. exact Hok. }
      exists dev'. split; [exact Hrun|].
      split; [eapply FSAllocate.sameShape_trans; eassumption|].
      split; [exact Hwf'|]. split; [|split].
      * intros q Hq. rewrite Hfr' by exact Hq. apply Hfr1. intros ->. contradiction.
      * intros q o Ho. rewrite Hlow' by exact Ho. rewrite Hcell1 by lia.
        case_decide; [lia | reflexivity].
      * intros a ra o Ha Ho. rewrite (Hval' a ra o Ha Ho).
        rewrite Hcell1 by lia.
        assert (Hsame : ptrOf l ra = ptrOf l rit <-> a = it).
        { split; [intros Heq|intros ->; congruence].
          eapply (FSAllocate.chainOk_distinct l _ refs a it ra rit); eassumption. }
        cbn [length].
        repeat case_decide; rewrite ?(byteAt_cons byte rest) by lia;
          repeat case_decide; try reflexivity; try lia;
          try (f_equal; lia);
          try (exfalso; intuition lia).
Qed.

(** ** Directory entries *)

Lemma poke_list_spec :
  forall bytes dev p off,
  wfBlocks dev -> (p < length (blocks dev))%nat ->
  0 <= off -> off + Z.of_nat (length bytes) <= 256 ->
  exists dev',
    poke_list dev p off bytes = Some dev'
    /\ sameShape dev dev' /\ wfBlocks dev'
    /\ (forall q, q <> p -> blocks dev' !! q = blocks dev !! q)
    /\ (forall o, 0 <= o ->
          cell dev' p o
          = if decide (off <= o < off + Z.of_nat (length bytes))
            then byteAt bytes (o - off) else cell dev p o).
Proof.
  induction bytes as [|b rest IH]; intros dev p off Hwf Hp Hoff Hcap.
  - exists dev. cbn [poke_list]. split; [reflexivity|].
    split; [apply FSAllocate.sameShape_refl|]. split; [exact Hwf|].
    split; [reflexivity|]. intros o Ho. simpl length. case_decide; [lia | reflexivity].
  - cbn [poke_list]. cbn [length] in Hcap.
    destruct (FSAllocate.poke_cell dev p off b Hwf Hp)
      as (dev1 & Hpoke & Hsh1 & Hwf1 & Hfr1 & Hcell1); [lia|].
    rewrite Hpoke. cbn [mbind option_bind].
    pose proof Hsh1 as [Hlay1 Hsz1].
    destruct (IH dev1 p (off + 1)) as (dev' & Hrun & Hsh' & Hwf' & Hfr' & Hval');
      try assumption; try lia.
    exists dev'. split; [exact Hrun|].
    split; [eapply FSAllocate.sameShape_trans; eassumption|].
    split; [exact Hwf'|]. split.
    + intros q Hq. rewrite Hfr' by exact Hq. apply Hfr1. exact Hq.
    + intros o Ho. rewrite (Hval' o Ho). rewrite Hcell1 by lia. cbn [length].
      repeat case_decide; rewrite ?(byteAt_cons b rest) by lia;
        repeat case_decide; try reflexivity; try lia;
        try (f_equal; lia);
        try (exfalso; intuition lia).
Qed.

Lemma padName_length name : length (padName name) = 16%nat.
Proof.
  unfold padName. rewrite length_take, length_app, length_replicate. lia.
Qed.

(** What [FSDirEntry::init] leaves in the block of the entry. *)
Lemma FSDirEntry_init_spec dev p slot name ref nb :
  wfBlocks dev -> (p < length (blocks dev))%nat -> 0 <= slot < 8 ->
  exists dev',
    FSDirEntry_init dev (mkEntryPtr p slot) name ref nb = Some dev'
    /\ sameShape dev dev' /\ wfBlocks dev'
    /\ (forall q, q <> p -> blocks dev' !! q = blocks dev !! q)
    /\ (forall o, 0 <= o ->
          cell dev' p o
          = if decide (32 * slot + 2 <= o < 32 * slot + 21)
            then byteAt ([FILETYPE_PRG; u8 (ref_t ref); u8 (ref_s ref)] ++ padName name)
                        (o - (32 * slot + 2))
            else if decide (32 * slot + 30 <= o < 32 * slot + 32)
            then byteAt [Z.land nb 255; Z.land (Z.shiftr nb 8) 255] (o - (32 * slot + 30))
            else cell dev p o).
Proof.
  intros Hwf Hp Hslot. unfold FSDirEntry_init. cbn [entry_block entry_slot].
  destruct (poke_list_spec
              ([FILETYPE_PRG; u8 (ref_t ref); u8 (ref_s ref)] ++ padName name)
              dev p (32 * slot + 2) Hwf Hp)
    as (dev1 & Hrun1 & Hsh1 & Hwf1 & Hfr1 & Hval1).
  { lia. }
  { rewrite length_app, padName_length. simpl. lia. }
  rewrite Hrun1. cbn [mbind option_bind].
  pose proof Hsh1 as [Hlay1 Hsz1].
  destruct (poke_list_spec [Z.land nb 255; Z.land (Z.shiftr nb 8) 255]
              dev1 p (32 * slot + 30) Hwf1)
    as (dev2 & Hrun2 & Hsh2 & Hwf2 & Hfr2 & Hval2).
  { lia. } { lia. } { simpl. lia. }
  exists dev2. split; [exact Hrun2|].
  split; [eapply FSAllocate.sameShape_trans; eassumption|].
  split; [exact Hwf2|]. split.
  - intros q Hq. rewrite Hfr2 by exact Hq. apply Hfr1. exact Hq.
  - intros o Ho. rewrite (Hval2 o Ho), (Hval1 o Ho).
    rewrite length_app, padName_length. cbn [length].
    repeat case_decide; try reflexivity; lia.
Qed.

Lemma data_lookup_cell dev p blk i :
  wfBlocks dev -> blocks dev !! p = Some blk -> (i < 256)%nat ->
  data blk !! i = Some (cell dev p (Z.of_nat i)).
Proof.
  intros Hwf Hblk Hi. rewrite (FSAllocate.cell_lookup dev p blk _ Hblk).
  unfold byteAt. rewrite Nat2Z.id.
  destruct (lookup_lt_is_Some_2 (data blk) i) as [x Hx];
    [rewrite (Hwf p blk Hblk); lia|].
  rewrite Hx. reflexivity.
Qed.

Lemma entryOf_lookup dev p slot i :
  wfBlocks dev -> (p < length (blocks dev))%nat -> 0 <= slot < 8 -> (i < 32)%nat ->
  entryBytes dev (mkEntryPtr p slot) = Some (entryOf dev (mkEntryPtr p slot))
  /\ length (entryOf dev (mkEntryPtr p slot)) = 32%nat
  /\ entryOf dev (mkEntryPtr p slot) !! i = Some (cell dev p (32 * slot + Z.of_nat i)).
Proof.
  intros Hwf Hp Hslot Hi.
  destruct (FSDirectory.entryBytes_wf dev p slot Hwf Hp Hslot) as (e & He & Hlen).
  unfold entryOf. rewrite He. cbn [default from_option id].
  split; [reflexivity|]. split; [exact Hlen|].
  unfold entryBytes in He. cbn [entry_block entry_slot] in He.
  destruct (blocks dev !! p) as [blk|] eqn:Hblk; [|discriminate].
  cbn [mbind option_bind] in He. case_decide; [|discriminate].
  injection He as <-.
  rewrite lookup_take_lt by lia. rewrite lookup_drop.
  rewrite (data_lookup_cell dev p blk _ Hwf Hblk) by lia.
  do 2 f_equal. lia.
Qed.

Lemma entryOf_ext dev dev' p slot :
  wfBlocks dev -> wfBlocks dev' ->
  (p < length (blocks dev))%nat -> (p < length (blocks dev'))%nat -> 0 <= slot < 8 ->
  (forall o, 32 * slot <= o < 32 * slot + 32 -> cell dev' p o = cell dev p o) ->
  entryOf dev' (mkEntryPtr p slot) = entryOf dev (mkEntryPtr p slot).
Proof.
  intros Hwf Hwf' Hp Hp' Hslot Hcells. apply list_eq. intros i.
  destruct (decide (i < 32)%nat) as [Hi|Hi].
  - destruct (entryOf_lookup dev p slot i Hwf Hp Hslot Hi) as (_ & _ & ->).
    destruct (entryOf_lookup dev' p slot i Hwf' Hp' Hslot Hi) as (_ & _ & ->).
    f_equal. apply Hcells. lia.
  - destruct (entryOf_lookup dev p slot 0 Hwf Hp Hslot) as (_ & Hl & _); [lia|].
    destruct (entryOf_lookup dev' p slot 0 Hwf' Hp' Hslot) as (_ & Hl' & _); [lia|].
    rewrite !lookup_ge_None_2 by lia. reflexivity.
Qed.

(** ** Writing a file *)

Lemma chainRefs_take l K r : forall k, (k <= K)%nat ->
  chainRefs l k r = take k (chainRefs l K r).
Proof.
  revert r. induction K as [|K IH]; intros r k Hk.
  - assert (k = 0%nat) by lia. subst. reflexivity.
  - destruct k as [|k]; [reflexivity|]. cbn [chainRefs take].
    rewrite (IH (nextRef l r) k) by lia. reflexivity.
Qed.

Lemma chainOk_take l n refs k : chainOk l n refs -> chainOk l n (take k refs).
Proof.
  intros [Hall Hnd]. split; [apply Forall_take; exact Hall|].
  rewrite fmap_take. eapply sublist_NoDup; [exact Hnd | apply sublist_take].
Qed.

Lemma blocks_needed len :
  0 < len ->
  254 * ((len + 253) / 254 - 1) < len <= 254 * ((len + 253) / 254).
Proof.
  intros Hlen. pose proof (Z.div_mod (len + 253) 254 ltac:(lia)) as Hdm.
  pose proof (Z.mod_pos_bound (len + 253) 254 ltac:(lia)) as Hm. lia.
Qed.

Lemma block_count_bytes k :
  0 <= k < 65536 ->
  Z.land k 255 + 256 * Z.land (Z.shiftr k 8) 255 = k.
Proof.
  intros Hk. change 255 with (Z.ones 8).
  rewrite !Z.land_ones by lia. rewrite Z.shiftr_div_pow2 by lia.
  change (2 ^ 8) with 256.
  pose proof (Z.div_mod k 256 ltac:(lia)) as Hdm.
  pose proof (Z.mod_pos_bound k 256 ltac:(lia)) as Hm.
  assert (0 <= k / 256 < 256).
  { split; [apply Z.div_pos; lia | apply Z.div_lt_upper_bound; lia]. }
  rewrite (Z.mod_small (k / 256)) by lia. lia.
Qed.

End FSFile.

Module FSMakeFile.
Import FS.

Section Core.

Variable l : FSDeviceDescriptor.
Variable dev : FSDevice.
Variable d : list Z.
Variables pb pd : nat.
Variables name buf : list Z.
Variables fuel K : nat.

Hypothesis dev_layout : layout dev = l.
Hypothesis dev_wf : wfBlocks dev.
Hypothesis layout_fits : layoutFitsBAM l.
Hypothesis dev_bam : bamBlock dev d.
Hypothesis dev_bamPtr : bamPtr dev = Some pb.
Hypothesis dev_dirPtr : blockPtr_ts dev 18 1 = Some pd.
Hypothesis dir_not_bam : pd <> pb.
Hypothesis start_valid : isValidRef l (mkBlockRef 1 0) = true.
Hypothesis start_free : isFree_ref dev (mkBlockRef 1 0) = Some true.
Hypothesis fuel_pos : (0 < fuel)%nat.
Hypothesis chain_ok :
  chainOk l (Z.of_nat (length (blocks dev))) (chainRefs l K (mkBlockRef 1 0)).
Hypothesis buf_fits : 0 < Z.of_nat (length buf) <= 254 * Z.of_nat K.
Hypothesis K_small : Z.of_nat K < 65536.
Hypothesis dir_empty0 :
  FSDirEntry_isEmpty (entryOf dev (mkEntryPtr pd 0)) = true.
Hypothesis dir_empty1 :
  FSDirEntry_isEmpty (entryOf dev (mkEntryPtr pd 1)) = true.

Let kZ : Z := (Z.of_nat (length buf) + 253) / 254.
Let k : nat := Z.to_nat kZ.
Let refs : list BlockRef := chainRefs l k (mkBlockRef 1 0).

Lemma core_k : 1 <= kZ <= Z.of_nat K /\ Z.of_nat k = kZ
  /\ 254 * (kZ - 1) < Z.of_nat (length buf) <= 254 * kZ.
Proof.
  pose proof (FSFile.blocks_needed (Z.of_nat (length buf)) ltac:(lia)) as H.
  fold kZ in H. unfold k. split; [lia|]. split; lia.
Qed.

Lemma core_refs_ok n :
  n = Z.of_nat (length (blocks dev)) -> chainOk l n refs.
Proof.
  intros ->. unfold refs. destruct core_k as (Hk & Hkk & _).
  rewrite (FSFile.chainRefs_take l K (mkBlockRef 1 0) k) by lia.
  apply FSFile.chainOk_take. exact chain_ok.
Qed.

Lemma core_refs_head : refs !! 0%nat = Some (mkBlockRef 1 0) /\ length refs = k.
Proof.
  destruct core_k as (Hk & Hkk & _). unfold refs.
  split; [|apply FSAllocate.chainRefs_length].
  destruct k as [|k'] eqn:E; [lia|]. reflexivity.
Qed.

Lemma core_dir_ptr :
  (pd < length (blocks dev))%nat /\ pd = ptrOf l (mkBlockRef 18 1)
  /\ pd ∉ (ptrOf l <$> refs).
Proof.
  split; [eapply FSDirectory.blockPtr_ts_valid, dev_dirPtr|].
  assert (Hpd : pd = ptrOf l (mkBlockRef 18 1)).
  { revert dev_dirPtr. unfold blockPtr_ts, blockPtr, ptrOf, blockOf. simpl.
    rewrite dev_layout. case_decide; intros [= <-]. reflexivity. }
  split; [exact Hpd|].
  intros Hin. apply list_elem_of_fmap in Hin as (r & Heq & Hin).
  apply list_elem_of_lookup in Hin as [j Hj].
  destruct (FSAllocate.chainOk_lookup _ _ _ _ _ (core_refs_ok _ eq_refl) Hj)
    as (_ & _ & _ & _ & _ & Hne).
  apply Hne. apply FSAllocate.ptrOf_inj. congruence.
Qed.

(** The device that [makeFile] leaves behind. *)
Lemma makeFile_effect :
  exists dev1 dev',
    allocate fuel dev (mkBlockRef 1 0) kZ = Some (dev1, refs)
    /\ makeFile FSDirEntry_isEmpty fuel dev name buf = Some (dev', true)
    /\ sameShape dev dev' /\ wfBlocks dev'
    /\ (forall o, 0 <= o ->
          cell dev' pd o
          = if decide (2 <= o < 21)
            then byteAt ([FILETYPE_PRG; 1; 0] ++ padName name) (o - 2)
            else if decide (30 <= o < 32)
            then byteAt [Z.land kZ 255; Z.land (Z.shiftr kZ 8) 255] (o - 30)
            else cell dev pd o)
    /\ (forall j rj, refs !! j = Some rj ->
          cell dev' (ptrOf l rj) 0
          = from_option (fun r => u8 (ref_t r)) 0 (refs !! S j)
          /\ cell dev' (ptrOf l rj) 1
             = from_option (fun r => u8 (ref_s r)) 0 (refs !! S j))
    /\ (forall a ra o, refs !! a = Some ra -> 2 <= o < 256 ->
          254 * Z.of_nat a + (o - 2) < Z.of_nat (length buf) ->
          cell dev' (ptrOf l ra) o = byteAt buf (254 * Z.of_nat a + (o - 2)))
    /\ blocks dev' !! pb = blocks dev1 !! pb.
Proof.
  destruct core_k as (Hk & Hkk & Hceil).
  destruct core_refs_head as [Hhead Hrlen].
  destruct core_dir_ptr as (Hpdlt & Hpdeq & Hpdnin).
  (* allocation *)
  destruct (FSAllocate.allocate_spec l pb fuel dev (mkBlockRef 1 0) k d)
    as (dev1 & d1 & Halloc & Hsh1 & Hwf1 & Hbam1 & Hframe1 & Hlinks1);
    try assumption; try (simpl; lia).
  { exact (core_refs_ok _ eq_refl). }
  rewrite Hkk in Halloc. fold refs in Halloc, Hframe1, Hlinks1.
  pose proof Hsh1 as [Hlay1 Hsz1].
  (* data *)
  destruct (FSFile.makeFile_write_spec l refs buf dev1 0 2 (mkBlockRef 1 0))
    as (dev2 & Hwrite & Hsh2 & Hwf2 & Hfr2 & Hlow2 & Hval2);
    try assumption; try lia.
  { congruence. }
  { apply core_refs_ok. rewrite Hsz1. reflexivity. }
  pose proof Hsh2 as [Hlay2 Hsz2].
  (* directory entry *)
  destruct (FSFile.FSDirEntry_init_spec dev2 pd 0 name (mkBlockRef 1 0) kZ Hwf2)
    as (dev3 & Hinit & Hsh3 & Hwf3 & Hfr3 & Hval3); [lia | lia |].
  exists dev1, dev3. split; [exact Halloc|]. split.
  { (* the run of makeFile *)
    unfold makeFile. rewrite dev_dirPtr.
    change 144%nat with (S 143). cbn [makeFile_loop].
    change (0 mod 8) with 0.
    destruct (FSFile.entryOf_lookup dev pd 0 0 dev_wf Hpdlt) as (He & _); [lia | lia |].
    rewrite He. cbn [mbind option_bind]. rewrite dir_empty0.
    unfold makeFile_dir.
    rewrite (FSBasics.u64_small (Z.of_nat (length buf) + 253)) by lia.
    fold kZ. rewrite (FSBasics.u32_small kZ) by lia.
    rewrite Halloc. cbn [mbind option_bind].
    destruct refs as [|r0 rest] eqn:Erefs; [discriminate|].
    injection Hhead as ->.
    assert (Hptr0 : blockPtr_ref dev1 (mkBlockRef 1 0)
                    = Some (ptrOf l (mkBlockRef 1 0))).
    { destruct (FSFile.chainOk_ptr l dev1 (mkBlockRef 1 0 :: rest) 0 (mkBlockRef 1 0))
        as (Hp & _); [congruence | | reflexivity | exact Hp].
      rewrite <- Erefs. apply core_refs_ok. rewrite Hsz1. reflexivity. }
    rewrite Hptr0, Hwrite. cbn [mbind option_bind].
    rewrite Hinit. reflexivity. }
  split; [repeat (eapply FSAllocate.sameShape_trans; [eassumption|]);
          apply FSAllocate.sameShape_refl|].
  split; [exact Hwf3|]. split; [|split; [|split]].
  - intros o Ho. rewrite (Hval3 o Ho). cbn [ref_t ref_s].
    change (32 * 0 + 2) with 2. change (32 * 0 + 21) with 21.
    change (32 * 0 + 30) with 30. change (32 * 0 + 32) with 32.
    change (u8 1) with 1. change (u8 0) with 0.
    repeat case_decide; try reflexivity.
    rewrite (FSAllocate.cell_same_block dev1 dev2) by (apply Hfr2; exact Hpdnin).
    apply Hframe1; [exact Ho | exact dir_not_bam | left; exact Hpdnin].
  - intros j rj Hj.
    assert (Hne : ptrOf l rj <> pd).
    { intros Heq. apply Hpdnin. rewrite <- Heq. apply list_elem_of_fmap.
      exists rj. split; [reflexivity|]. eapply list_elem_of_lookup_2, Hj. }
    rewrite !(FSAllocate.cell_same_block dev2 dev3) by (apply Hfr3; exact Hne).
    rewrite !Hlow2 by lia. exact (Hlinks1 j rj Hj).
  - intros a ra o Ha Ho Hlin.
    assert (Hne : ptrOf l ra <> pd).
    { intros Heq. apply Hpdnin. rewrite <- Heq. apply list_elem_of_fmap.
      exists ra. split; [reflexivity|]. eapply list_elem_of_lookup_2, Ha. }
    rewrite (FSAllocate.cell_same_block dev2 dev3) by (apply Hfr3; exact Hne).
    rewrite (Hval2 a ra o Ha Ho). case_decide; [f_equal; lia | lia].
  - (* the BAM block is neither a block of the file nor the directory block *)
    rewrite Hfr3 by (intros Heq; apply dir_not_bam; congruence).
    apply Hfr2. intros Hin. apply list_elem_of_fmap in Hin as (r & Heq & Hin).
    apply list_elem_of_lookup in Hin as [j Hj].
    destruct (FSAllocate.chainOk_lookup _ _ _ _ _ (core_refs_ok _ eq_refl) Hj)
      as (_ & _ & _ & _ & Hnb & _).
    apply Hnb. apply FSAllocate.ptrOf_inj.
    rewrite <- Heq. rewrite (FSAllocate.bamPtr_blockOf dev pb dev_bamPtr), dev_layout.
    reflexivity.
Qed.

(** Reading back from a device [dev'] that holds the links and the data
    as [makeFile] leaves them. *)
Section ReadBack.

Variable dev' : FSDevice.
Hypothesis dev'_layout : layout dev' = l.
Hypothesis dev'_size : length (blocks dev') = length (blocks dev).
Hypothesis dev'_wf : wfBlocks dev'.
Hypothesis dev'_links :
  forall j rj, refs !! j = Some rj ->
    cell dev' (ptrOf l rj) 0 = from_option (fun r => u8 (ref_t r)) 0 (refs !! S j)
    /\ cell dev' (ptrOf l rj) 1 = from_option (fun r => u8 (ref_s r)) 0 (refs !! S j).
Hypothesis dev'_data :
  forall a ra o, refs !! a = Some ra -> 2 <= o < 256 ->
    254 * Z.of_nat a + (o - 2) < Z.of_nat (length buf) ->
    cell dev' (ptrOf l ra) o = byteAt buf (254 * Z.of_nat a + (o - 2)).

Lemma payload_lookup p blk o :
  blocks dev' !! p = Some blk -> (o < 254)%nat ->
  take 254 (drop 2 (data blk)) !! o = Some (cell dev' p (2 + Z.of_nat o))
  /\ length (take 254 (drop 2 (data blk))) = 254%nat.
Proof.
  intros Hblk Ho. split.
  - rewrite lookup_take_lt by lia. rewrite lookup_drop.
    rewrite (FSFile.data_lookup_cell dev' p blk _ dev'_wf Hblk) by lia.
    do 2 f_equal. lia.
  - rewrite length_take, length_drop, (dev'_wf p blk Hblk). lia.
Qed.

Lemma buf_lookup i :
  (i < length buf)%nat -> buf !! i = Some (byteAt buf (Z.of_nat i)).
Proof.
  intros Hi. unfold byteAt. rewrite Nat2Z.id.
  destruct (lookup_lt_is_Some_2 buf i Hi) as [x ->]. reflexivity.
Qed.

Lemma payload_is_chunk a ra blk n :
  refs !! a = Some ra -> blocks dev' !! ptrOf l ra = Some blk ->
  (n <= 254)%nat -> (254 * a + n <= length buf)%nat ->
  take n (take 254 (drop 2 (data blk))) = take n (drop (254 * a) buf).
Proof.
  intros Ha Hblk Hn Hfit. apply list_eq. intros i.
  destruct (decide (i < n)%nat) as [Hi|Hi].
  - rewrite (lookup_take_lt (take 254 (drop 2 (data blk)))) by lia.
    rewrite (lookup_take_lt (drop (254 * a) buf)) by lia. rewrite lookup_drop.
    destruct (payload_lookup _ blk i Hblk) as [-> _]; [lia|].
    rewrite buf_lookup by lia.
    rewrite (dev'_data a ra (2 + Z.of_nat i) Ha) by lia.
    do 2 f_equal. lia.
  - rewrite !lookup_take_ge by lia. reflexivity.
Qed.

Lemma readChain_refs :
  forall m a ra, (a + m = k)%nat -> (0 < m)%nat -> refs !! a = Some ra ->
  exists out,
    readChain m dev' (ref_t ra) (ref_s ra) = Some out
    /\ length out = (254 * m)%nat
    /\ take (length buf - 254 * a) out = drop (254 * a) buf.
Proof.
  destruct core_k as (Hk & Hkk & Hceil).
  destruct core_refs_head as [_ Hrlen].
  assert (Hok : chainOk l (Z.of_nat (length (blocks dev'))) refs)
    by (apply core_refs_ok; rewrite dev'_size; reflexivity).
  induction m as [|m IH]; intros a ra Ham Hm Ha; [lia|].
  destruct (FSFile.chainOk_ptr l dev' refs a ra dev'_layout Hok Ha) as (Hptr & Hp & _).
  assert (Hts : blockPtr_ts dev' (ref_t ra) (ref_s ra) = Some (ptrOf l ra)) by exact Hptr.
  destruct (lookup_lt_is_Some_2 (blocks dev') _ Hp) as [blk Hblk].
  cbn [readChain]. rewrite Hts. cbn [mbind option_bind]. rewrite Hblk.
  cbn [mbind option_bind].
  rewrite (FSFile.data_lookup_cell dev' _ blk 0 dev'_wf Hblk) by lia.
  rewrite (FSFile.data_lookup_cell dev' _ blk 1 dev'_wf Hblk) by lia.
  cbn [mbind option_bind].
  destruct (dev'_links a ra Ha) as [Hl0 Hl1].
  change (Z.of_nat 0) with 0. change (Z.of_nat 1) with 1. rewrite Hl0, Hl1.
  destruct (payload_lookup _ blk 0 Hblk) as [_ Hplen]; [lia|].
  destruct (decide (m = 0)%nat) as [->|Hm0].
  - (* the last block *)
    rewrite (lookup_ge_None_2 refs (S a)) by lia. cbn [from_option].
    case_decide as Hd; [|exfalso; apply Hd; split; reflexivity].
    eexists. split; [reflexivity|]. split; [rewrite Hplen; lia|].
    rewrite <- (take_ge (drop (254 * a) buf) (length buf - 254 * a))
      by (rewrite length_drop; lia).
    apply (payload_is_chunk a ra blk); [assumption | assumption | lia | lia].
  - (* a block with a successor *)
    destruct (lookup_lt_is_Some_2 refs (S a)) as [r' Hr']; [lia|].
    rewrite Hr'. cbn [from_option].
    destruct (FSAllocate.chainOk_lookup _ _ _ _ _ Hok Hr') as (_ & Ht' & Hs' & _).
    assert (Hu8t : u8 (ref_t r') = ref_t r') by (unfold u8; apply Z.mod_small; lia).
    assert (Hu8s : u8 (ref_s r') = ref_s r') by (unfold u8; apply Z.mod_small; lia).
    rewrite Hu8t, Hu8s.
    case_decide as Hd; [lia|].
    destruct (IH (S a) r') as (out' & Hread & Hlen' & Htake'); [lia | lia | exact Hr' |].
    rewrite Hread. cbn [mbind option_bind].
    eexists. split; [reflexivity|]. split; [rewrite length_app, Hplen, Hlen'; lia|].
    rewrite take_app_ge by lia. rewrite Hplen.
    replace (length buf - 254 * a - 254)%nat with (length buf - 254 * S a)%nat by lia.
    rewrite Htake'.
    rewrite <- (take_ge (take 254 (drop 2 (data blk))) 254) by lia.
    rewrite (payload_is_chunk a ra blk 254 Ha Hblk) by lia.
    replace (254 * S a)%nat with (254 * a + 254)%nat by lia.
    rewrite <- drop_drop. apply take_drop.
Qed.

End ReadBack.

(** The file as it can be read back: one directory entry, and a chain
    that starts with the payload. *)
Lemma makeFile_result (isHidden : list Z -> bool) :
  exists dev1 dev' out,
    allocate fuel dev (mkBlockRef 1 0) kZ = Some (dev1, refs)
    /\ Z.of_nat (length refs) = kZ
    /\ makeFile FSDirEntry_isEmpty fuel dev name buf = Some (dev', true)
    /\ (forall j rj, refs !! j = Some rj ->
          (cell dev' (ptrOf l rj) 0, cell dev' (ptrOf l rj) 1)
          = match refs !! S j with
            | Some r' => (ref_t r', ref_s r')
            | None => (0, 0)
            end)
    /\ scanDirectory FSDirEntry_isEmpty isHidden dev' false = Some [mkEntryPtr pd 0]
    /\ entry_fileType (entryOf dev' (mkEntryPtr pd 0)) = FILETYPE_PRG
    /\ entry_firstTrack (entryOf dev' (mkEntryPtr pd 0)) = 1
    /\ entry_firstSector (entryOf dev' (mkEntryPtr pd 0)) = 0
    /\ entry_fileName (entryOf dev' (mkEntryPtr pd 0)) = padName name
    /\ entry_fileSize (entryOf dev' (mkEntryPtr pd 0)) = kZ
    /\ readChain k dev' 1 0 = Some out
    /\ Z.of_nat (length out) = 254 * kZ
    /\ take (length buf) out = buf.
Proof.
  destruct core_k as (Hk & Hkk & Hceil).
  destruct core_refs_head as [Hhead Hrlen].
  destruct core_dir_ptr as (Hpdlt & Hpdeq & Hpdnin).
  destruct makeFile_effect
    as (dev1 & dev' & Halloc & Hrun & Hsh & Hwf' & Hdir & Hlinks & Hdata & _).
  pose proof Hsh as [Hlay' Hsz'].
  assert (Hpdlt' : (pd < length (blocks dev'))%nat) by (rewrite Hsz'; exact Hpdlt).
  (* the bytes of the entry *)
  assert (He0 : forall i, (i < 32)%nat ->
            entryOf dev' (mkEntryPtr pd 0) !! i = Some (cell dev' pd (Z.of_nat i))).
  { intros i Hi.
    destruct (FSFile.entryOf_lookup dev' pd 0 i Hwf' Hpdlt') as (_ & _ & ->);
      [lia | exact Hi |]. do 2 f_equal. }
  assert (Hcell : forall o v, 2 <= o < 21 ->
            byteAt ([FILETYPE_PRG; 1; 0] ++ padName name) (o - 2) = v ->
            cell dev' pd o = v).
  { intros o v Ho <-. rewrite Hdir by lia. case_decide; [reflexivity | lia]. }
  assert (Htype : entryOf dev' (mkEntryPtr pd 0) !! 2%nat = Some FILETYPE_PRG).
  { rewrite He0 by lia. f_equal. apply Hcell; [lia | reflexivity]. }
  (* reading the chain *)
  destruct (readChain_refs dev') with (m := k) (a := 0%nat) (ra := mkBlockRef 1 0)
    as (out & Hread & Hlen & Htake); try assumption; try lia.
  { rewrite Hlay'. exact dev_layout. }
  cbn [ref_t ref_s] in Hread.
  rewrite Nat.mul_0_r, Nat.sub_0_r in Htake. change (drop 0 buf) with buf in Htake.
  exists dev1, dev', out.
  split; [exact Halloc|]. split; [lia|]. split; [exact Hrun|]. split.
  { intros j rj Hj. destruct (Hlinks j rj Hj) as [-> ->].
    destruct (refs !! S j) as [r'|] eqn:Hr'; [|reflexivity].
    destruct (FSAllocate.chainOk_lookup _ _ _ _ _ (core_refs_ok _ eq_refl) Hr')
      as (_ & Ht' & Hs' & _).
    cbn [from_option]. unfold u8. rewrite !Z.mod_small by lia. reflexivity. }
  split.
  { (* the scan *)
    unfold scanDirectory.
    assert (Hptr : blockPtr_ts dev' 18 1 = Some pd).
    { unfold blockPtr_ts, blockPtr in dev_dirPtr |- *.
      rewrite Hlay', Hsz'. exact dev_dirPtr. }
    rewrite Hptr.
    assert (Hscan : forall n,
              scanDirectory_loop FSDirEntry_isEmpty isHidden dev' false (S (S n)) 0
                (Some pd) [] = Some [mkEntryPtr pd 0]); [|exact (Hscan 142%nat)].
    intros n. cbn [scanDirectory_loop]. change (0 mod 8) with 0.
    destruct (FSFile.entryOf_lookup dev' pd 0 0 Hwf' Hpdlt') as (-> & _); [lia | lia |].
    cbn [mbind option_bind].
    assert (Hne : FSDirEntry_isEmpty (entryOf dev' (mkEntryPtr pd 0)) = false).
    { unfold FSDirEntry_isEmpty. rewrite (drop_S _ _ _ Htype). reflexivity. }
    rewrite Hne. cbn [andb negb app].
    destruct (decide (0 = 7)) as [Hz|_]; [discriminate Hz|].
    cbn [mbind option_bind].
    change (0 + 1) with 1. cbn [scanDirectory_loop]. change (1 mod 8) with 1.
    destruct (FSFile.entryOf_lookup dev' pd 1 0 Hwf' Hpdlt') as (-> & _); [lia | lia |].
    cbn [mbind option_bind].
    rewrite (FSFile.entryOf_ext dev dev' pd 1 dev_wf Hwf' Hpdlt Hpdlt'); [|lia|].
    - rewrite dir_empty1. reflexivity.
    - intros o Ho. rewrite Hdir by lia. repeat case_decide; first [lia | reflexivity]. }
  unfold entry_fileType, entry_firstTrack, entry_firstSector, entry_fileSize.
  rewrite Htype. rewrite !He0 by lia. cbn [default from_option id].
  split; [reflexivity|].
  split; [apply Hcell; [lia | reflexivity]|].
  split; [apply Hcell; [lia | reflexivity]|].
  split.
  { unfold entry_fileName. apply list_eq. intros i.
    destruct (decide (i < 16)%nat) as [Hi|Hi].
    - rewrite lookup_take_lt by lia. rewrite lookup_drop, He0 by lia.
      pose proof (FSFile.padName_length name) as Hpl.
      destruct (lookup_lt_is_Some_2 (padName name) i) as [x Hx]; [lia|].
      rewrite Hx. f_equal. apply Hcell; [lia|].
      unfold byteAt.
      replace (Z.to_nat (Z.of_nat (5 + i) - 2)) with (3 + i)%nat by lia.
      rewrite lookup_app_r by (simpl; lia).
      replace (3 + i - length [FILETYPE_PRG; 1%Z; 0%Z])%nat with i by (simpl; lia).
      rewrite Hx. reflexivity.
    - rewrite lookup_take_ge by lia.
      rewrite lookup_ge_None_2 by (rewrite FSFile.padName_length; lia). reflexivity. }
  split.
  { rewrite !Hdir by lia.
    repeat case_decide; try lia.
    change (byteAt [Z.land kZ 255; Z.land (Z.shiftr kZ 8) 255] (Z.of_nat 30 - 30))
      with (Z.land kZ 255).
    change (byteAt [Z.land kZ 255; Z.land (Z.shiftr kZ 8) 255] (Z.of_nat 31 - 30))
      with (Z.land (Z.shiftr kZ 8) 255).
    apply FSFile.block_count_bytes. lia. }
  split; [exact Hread|]. split; [lia|exact Htake].
Qed.

End Core.

End FSMakeFile.

Module FSMakeFileSSSD.
Import FS.

(** ** Files on the single-sided, single-density disk *)

Lemma SS_SD_chain_164 :
  chainOk DISK_SS_SD 683 (chainRefs DISK_SS_SD 164 (mkBlockRef 1 0)).
Proof.
  apply (bool_decide_unpack
           (chainOk DISK_SS_SD 683 (chainRefs DISK_SS_SD 164 (mkBlockRef 1 0)))).
  vm_compute. exact I.
Qed.

Lemma SS_SD_pointers dev :
  layout dev = DISK_SS_SD -> length (blocks dev) = 683%nat ->
  bamPtr dev = Some 357%nat /\ blockPtr_ts dev 18 1 = Some 358%nat.
Proof.
  intros Hlay Hlen. unfold bamPtr, blockPtr_ts, blockPtr. rewrite Hlay, Hlen.
  split; reflexivity.
Qed.

Lemma SS_SD_isFree_ref dev t s :
  layout dev = DISK_SS_SD -> isFree_ref dev (mkBlockRef t s) = isFree dev t s.
Proof.
  intros Hlay. unfold isFree_ref, isFree, locateAllocationBit_ref, locateAllocationBit.
  rewrite Hlay. reflexivity.
Qed.

Lemma formatted_dir_empty :
  FSDirEntry_isEmpty (entryOf formatted (mkEntryPtr 358 0)) = true
  /\ FSDirEntry_isEmpty (entryOf formatted (mkEntryPtr 358 1)) = true.
Proof. split; vm_compute; reflexivity. Qed.

(** C2 as stated does not hold: a payload of one byte written to the
    empty disk comes back from the chain as the 254 data bytes of its
    block, the payload byte and 253 bytes behind it. *)
Lemma makeFile_chain_is_padded :
  (r ← makeFile FSDirEntry_isEmpty 1 formatted [72; 73] [65];
   readChain 1 r.1 1 0) = Some (65 :: replicate 253 0)
  /\ 65 :: replicate 253 0 <> [65].
Proof. split; [vm_compute; reflexivity | discriminate]. Qed.

End FSMakeFileSSSD.

Module FlashProofs.
Import Flash.

(** ** The reset command of the flash ROM *)

(** What holds of the chip after any writes: it is in autoselect mode with
    that mode as its base state, or in another state with READ as its base
    state. *)
Definition atRest (f : FlashRom) : Prop :=
  (baseState f = FLASH_READ /\ state f <> FLASH_AUTOSELECT)
  \/ (state f = FLASH_AUTOSELECT /\ baseState f = FLASH_AUTOSELECT).

Lemma poke_atRest f addr value : atRest f -> atRest (poke f addr value).
Proof.
  intros [[Hbase Hst] | [Hst Hbase]]; unfold atRest, poke.
  - rewrite Hbase. destruct (state f) eqn:E; try contradiction;
      repeat match goal with
             | |- context [if ?b then _ else _] => destruct b
             end; cbn [state baseState]; rewrite ?E, ?Hbase;
      solve [left; split; [reflexivity | discriminate] | right; split; reflexivity].
  - rewrite Hst, Hbase. destruct (value =? 0xF0); cbn [state baseState];
      [left; split; [reflexivity | discriminate] | right; split; reflexivity].
Qed.

Lemma pokes_atRest f ws : atRest f -> atRest (pokes f ws).
Proof.
  unfold pokes. revert f. induction ws as [|w ws IH]; intros f Hf; [exact Hf|].
  cbn [foldl]. apply IH, poke_atRest, Hf.
Qed.

Lemma fresh_atRest bytes : atRest (fresh bytes).
Proof. left. split; [reflexivity | discriminate]. Qed.

(** The state and the base state of a chip; what a write makes of them
    depends on nothing else, and on the address only through the two
    tests. *)
Definition control (f : FlashRom) : FlashRomState * FlashRomState :=
  (state f, baseState f).

Definition pokeControl (c : FlashRomState * FlashRomState) (addr value : Z)
  : FlashRomState * FlashRomState :=
  control (poke (mkFlashRom c.1 c.2 (fun _ => 0)) addr value).

Lemma poke_control f addr value :
  control (poke f addr value) = pokeControl (control f) addr value.
Proof.
  destruct f as [st base bytes].
  unfold pokeControl, control, poke. cbn [state baseState rom fst snd].
  destruct st;
    repeat match goal with
           | |- context [if ?b then _ else _] => destruct b
           end; reflexivity.
Qed.

Lemma pokeControl_first c addr value :
  firstCommandAddr addr = true ->
  pokeControl c addr value = pokeControl c 0x555 value.
Proof.
  intros Hf.
  assert (Hs : secondCommandAddr addr = false).
  { unfold firstCommandAddr, secondCommandAddr in *.
    apply bool_decide_eq_true in Hf. apply bool_decide_eq_false. rewrite Hf. discriminate. }
  assert (Hf0 : firstCommandAddr 0x555 = true) by reflexivity.
  assert (Hs0 : secondCommandAddr 0x555 = false) by reflexivity.
  destruct c as [st base].
  unfold pokeControl, control, poke. cbn [state baseState rom fst snd].
  rewrite Hf, Hs, Hf0, Hs0.
  destruct st;
    repeat match goal with
           | |- context [if ?b then _ else _] => destruct b
           end; reflexivity.
Qed.

Lemma pokeControl_second c addr value :
  secondCommandAddr addr = true ->
  pokeControl c addr value = pokeControl c 0x2AA value.
Proof.
  intros Hs.
  assert (Hf : firstCommandAddr addr = false).
  { unfold firstCommandAddr, secondCommandAddr in *.
    apply bool_decide_eq_true in Hs. apply bool_decide_eq_false. rewrite Hs. discriminate. }
  assert (Hf0 : firstCommandAddr 0x2AA = false) by reflexivity.
  assert (Hs0 : secondCommandAddr 0x2AA = true) by reflexivity.
  destruct c as [st base].
  unfold pokeControl, control, poke. cbn [state baseState rom fst snd].
  rewrite Hf, Hs, Hf0, Hs0.
  destruct st;
    repeat match goal with
           | |- context [if ?b then _ else _] => destruct b
           end; reflexivity.
Qed.

(** The command sequence that ends in 0xF0, issued in any state that the
    chip can be in. *)
Lemma reset_command f a1 a2 a3 :
  atRest f ->
  firstCommandAddr a1 = true -> secondCommandAddr a2 = true ->
  firstCommandAddr a3 = true ->
  state (pokes f [(a1, 0xAA); (a2, 0x55); (a3, 0xF0)]) = FLASH_READ
  /\ baseState (pokes f [(a1, 0xAA); (a2, 0x55); (a3, 0xF0)]) = FLASH_READ.
Proof.
  intros Hrest H1 H2 H3.
  assert (Hgoal : control (pokes f [(a1, 0xAA); (a2, 0x55); (a3, 0xF0)])
                  = (FLASH_READ, FLASH_READ)).
  { unfold pokes. cbn [foldl fst snd].
    rewrite !poke_control.
    rewrite (pokeControl_first _ a3) by exact H3.
    rewrite (pokeControl_second _ a2) by exact H2.
    rewrite (pokeControl_first _ a1) by exact H1.
    destruct f as [st base bytes]. unfold control. cbn [state baseState].
    destruct Hrest as [[Hbase Hst] | [Hst Hbase]]; cbn [state baseState] in *; subst.
    - destruct st; try contradiction; vm_compute; reflexivity.
    - vm_compute. reflexivity. }
  unfold control in Hgoal. split; congruence.
Qed.

(** The autoselect command, issued while the chip reads. *)
Lemma autoselect_command f b1 b2 b3 :
  atRest f -> state f = FLASH_READ ->
  firstCommandAddr b1 = true -> secondCommandAddr b2 = true ->
  firstCommandAddr b3 = true ->
  state (pokes f [(b1, 0xAA); (b2, 0x55); (b3, 0x90)]) = FLASH_AUTOSELECT.
Proof.
  intros Hrest Hread H1 H2 H3.
  assert (Hgoal : control (pokes f [(b1, 0xAA); (b2, 0x55); (b3, 0x90)])
                  = (FLASH_AUTOSELECT, FLASH_AUTOSELECT)).
  { unfold pokes. cbn [foldl fst snd].
    rewrite !poke_control.
    rewrite (pokeControl_first _ b3) by exact H3.
    rewrite (pokeControl_second _ b2) by exact H2.
    rewrite (pokeControl_first _ b1) by exact H1.
    destruct f as [st base bytes]. unfold control. cbn [state baseState] in *.
    subst st.
    destruct Hrest as [[Hbase _] | [Hst _]]; cbn [state baseState] in *;
      [subst base; vm_compute; reflexivity | discriminate]. }
  unfold control in Hgoal. congruence.
Qed.

(** C7: after any sequence of writes to a chip, a command sequence that
    ends in 0xF0 (0xAA to a first command address, 0x55 to a second, 0xF0
    to a first) leaves the state machine in READ, with READ as the base
    state.  The command decides this: the autoselect command (0x90 in the
    place of 0xF0) takes a chip that reads into autoselect mode, and a chip
    in autoselect mode stays there under every write of a value other than
    0xF0.  An address is a first command address exactly when its low
    eleven bits are 0x555 and a second command address exactly when they
    are 0x2AA. *)
Theorem reset_command_returns_to_read (bytes : Z -> Z) (ws : list (Z * Z))
    (a1 a2 a3 : Z) :
  Z.land a1 0x7FF = 0x555 -> Z.land a2 0x7FF = 0x2AA -> Z.land a3 0x7FF = 0x555 ->
  let f := pokes (fresh bytes) ws in
  state (pokes f [(a1, 0xAA); (a2, 0x55); (a3, 0xF0)]) = FLASH_READ
  /\ baseState (pokes f [(a1, 0xAA); (a2, 0x55); (a3, 0xF0)]) = FLASH_READ
  /\ (state f = FLASH_READ ->
      state (pokes f [(a1, 0xAA); (a2, 0x55); (a3, 0x90)]) = FLASH_AUTOSELECT)
  /\ (state f = FLASH_AUTOSELECT ->
      forall ws', Forall (fun w => w.2 <> 0xF0) ws' ->
      state (pokes f ws') = FLASH_AUTOSELECT)
  /\ (forall a, (firstCommandAddr a = true <-> Z.land a 0x7FF = 0x555)
                /\ (secondCommandAddr a = true <-> Z.land a 0x7FF = 0x2AA)).
Proof.
  intros H1 H2 H3 f.
  assert (Hrest : atRest f) by apply pokes_atRest, fresh_atRest.
  assert (Hc1 : firstCommandAddr a1 = true)
    by (unfold firstCommandAddr; apply bool_decide_eq_true; assumption).
  assert (Hc2 : secondCommandAddr a2 = true)
    by (unfold secondCommandAddr; apply bool_decide_eq_true; assumption).
  assert (Hc3 : firstCommandAddr a3 = true)
    by (unfold firstCommandAddr; apply bool_decide_eq_true; assumption).
  destruct (reset_command f a1 a2 a3 Hrest Hc1 Hc2 Hc3) as [Hst Hbase].
  split; [exact Hst|]. split; [exact Hbase|]. split; [|split].
  - intros Hread. exact (autoselect_command f a1 a2 a3 Hrest Hread Hc1 Hc2 Hc3).
  - intros Hauto ws' Hws'.
    assert (Hmode : state f = FLASH_AUTOSELECT /\ baseState f = FLASH_AUTOSELECT).
    { destruct Hrest as [[_ Hne] | Hm]; [contradiction | exact Hm]. }
    clear Hst Hbase Hrest Hauto. revert Hmode. generalize f. clear f.
    induction Hws' as [|w ws' Hw _ IH]; intros g [Hg Hb]; [exact Hg|].
    unfold pokes. cbn [foldl]. apply IH. unfold poke. rewrite Hg, Hb.
    destruct (w.2 =? 0xF0) eqn:E; [apply Z.eqb_eq in E; contradiction|].
    cbn [state baseState]. split; reflexivity.
  - intros a. unfold firstCommandAddr, secondCommandAddr.
    split; apply bool_decide_eq_true.
Qed.

Lemma reset_command_returns_to_read_witness :
  let f0 := fresh (fun _ => 0xFF) in
  let f := pokes f0 [(0x555, 0xAA); (0x2AA, 0x55); (0x555, 0x90)] in
  state (pokes f0 [(0x5555, 0xAA); (0x2AAA, 0x55); (0x5555, 0x90)]) = FLASH_AUTOSELECT
  /\ state f = FLASH_AUTOSELECT
  /\ state (pokes f [(0x5555, 0xAA); (0x2AAA, 0x55); (0x5555, 0xF0)]) = FLASH_READ
  /\ baseState (pokes f [(0x5555, 0xAA); (0x2AAA, 0x55); (0x5555, 0xF0)]) = FLASH_READ
  /\ state (pokes f [(0, 0x12); (1, 0x34); (2, 0x00)]) = FLASH_AUTOSELECT
  /\ (forall a, (firstCommandAddr a = true <-> Z.land a 0x7FF = 0x555)
                /\ (secondCommandAddr a = true <-> Z.land a 0x7FF = 0x2AA)).
Proof.
  destruct (reset_command_returns_to_read (fun _ => 0xFF) [] 0x5555 0x2AAA 0x5555)
    as (_ & _ & Hauto & _); try reflexivity.
  destruct (reset_command_returns_to_read (fun _ => 0xFF)
              [(0x555, 0xAA); (0x2AA, 0x55); (0x555, 0x90)] 0x5555 0x2AAA 0x5555)
    as (Hst & Hbase & _ & Hstay & Haddr); try reflexivity.
  split; [apply Hauto; reflexivity|].
  split; [reflexivity|]. split; [exact Hst|]. split; [exact Hbase|].
  split; [|exact Haddr].
  apply Hstay; [reflexivity|].
  repeat constructor; discriminate.
Defined.

End FlashProofs.

Module EmuProofs.
Import Emu.

(** ** Suspending and resuming auto-snapshots *)




Lemma long_add_None a b :
  ~ (LONG_MIN <= a + b <= LONG_MAX) -> long_add a b = None.
Proof. intros H. unfold long_add. rewrite bool_decide_false by exact H. reflexivity. Qed.





(** ** Component states and the stop request *)

(** C9: [pause] leaves a component that is not running as it is,
    [powerOff] leaves a component that is off as it is, and [powerOff] on a
    running component pauses it first: the component passes through PAUSED
    on its way to OFF.  Each of the three states is reached from the
    initial one.  [requestStop] sets the stop flag, a second request
    changes nothing, and the flag stays set when snapshots are suspended or
    resumed: a stop request before such a call is a stop request after
    it. *)
Theorem component_state_machine (h : list EmulatorState) (cs : list Delegate)
    (k : C64) :
  pause (mkHC EMULATOR_STATE_OFF h cs) = mkHC EMULATOR_STATE_OFF h cs
  /\ pause (mkHC EMULATOR_STATE_PAUSED h cs) = mkHC EMULATOR_STATE_PAUSED h cs
  /\ powerOff (mkHC EMULATOR_STATE_OFF h cs) = mkHC EMULATOR_STATE_OFF h cs
  /\ powerOff (mkHC EMULATOR_STATE_RUNNING h cs)
     = mkHC EMULATOR_STATE_OFF
         (h ++ [EMULATOR_STATE_PAUSED; EMULATOR_STATE_OFF])
         (cs ++ [D_pause; D_powerOff])
  /\ powerOff (mkHC EMULATOR_STATE_PAUSED h cs)
     = mkHC EMULATOR_STATE_OFF (h ++ [EMULATOR_STATE_OFF]) (cs ++ [D_powerOff])
  /\ state (foldl apply initial []) = EMULATOR_STATE_OFF
  /\ state (foldl apply initial [E_powerOn]) = EMULATOR_STATE_PAUSED
  /\ state (foldl apply initial [E_run]) = EMULATOR_STATE_RUNNING
  /\ stopFlag (requestStop k) = true
  /\ requestStop (requestStop k) = requestStop k
  /\ suspendAutoSnapshots (requestStop k) = requestStop <$> suspendAutoSnapshots k
  /\ resumeAutoSnapshots (requestStop k) = requestStop <$> resumeAutoSnapshots k
  /\ (forall c, suspendAutoSnapshots (requestStop k) = Some c -> stopFlag c = true)
  /\ (forall c, resumeAutoSnapshots (requestStop k) = Some c -> stopFlag c = true).
Proof.
  assert (Hs : suspendAutoSnapshots (requestStop k)
               = requestStop <$> suspendAutoSnapshots k).
  { unfold suspendAutoSnapshots, requestStop.
    cbn [autoSnapshotInterval stopFlag takeAutoSnapshots].
    destruct (long_sub _ _); reflexivity. }
  assert (Hr : resumeAutoSnapshots (requestStop k)
               = requestStop <$> resumeAutoSnapshots k).
  { unfold resumeAutoSnapshots, requestStop.
    cbn [autoSnapshotInterval stopFlag takeAutoSnapshots].
    destruct (long_add _ _); reflexivity. }
  repeat split; try assumption.
  - unfold powerOff, pause, enter. simpl. rewrite <- !app_assoc. reflexivity.
  - intros c Hc. rewrite Hs in Hc.
    destruct (suspendAutoSnapshots k); [|discriminate]. injection Hc as <-. reflexivity.
  - intros c Hc. rewrite Hr in Hc.
    destruct (resumeAutoSnapshots k); [|discriminate]. injection Hc as <-. reflexivity.
Qed.

End EmuProofs.

Module FSBamLookup.
Import FS FSOps.

(** ** Allocation bits read back *)

Lemma bit_ops_enum :
  forallb (fun x => forallb (fun b =>
      (if GET_BIT x b then SET_BIT (CLR_BIT x b) b =? x else CLR_BIT (SET_BIT x b) b =? x)
      && forallb (fun b' =>
           eqb (GET_BIT (SET_BIT x b) b') (if b =? b' then true else GET_BIT x b')
           && eqb (GET_BIT (CLR_BIT x b) b') (if b =? b' then false else GET_BIT x b'))
         (seqZ 0 8))
    (seqZ 0 8)) (seqZ 0 256) = true.
Proof. vm_compute. reflexivity. Qed.

Lemma bit_ops x b b' :
  0 <= x < 256 -> 0 <= b < 8 -> 0 <= b' < 8 ->
  GET_BIT (SET_BIT x b) b' = (if decide (b = b') then true else GET_BIT x b')
  /\ GET_BIT (CLR_BIT x b) b' = (if decide (b = b') then false else GET_BIT x b')
  /\ (GET_BIT x b = true -> SET_BIT (CLR_BIT x b) b = x)
  /\ (GET_BIT x b = false -> CLR_BIT (SET_BIT x b) b = x).
Proof.
  intros Hx Hb Hb'.
  pose proof bit_ops_enum as H. rewrite forallb_forall in H.
  assert (Hinx : In x (seqZ 0 256)) by (apply list_elem_of_In, elem_of_seqZ; lia).
  assert (Hinb : In b (seqZ 0 8)) by (apply list_elem_of_In, elem_of_seqZ; lia).
  assert (Hinb' : In b' (seqZ 0 8)) by (apply list_elem_of_In, elem_of_seqZ; lia).
  specialize (H x Hinx). rewrite forallb_forall in H.
  specialize (H b Hinb). apply andb_prop in H as [H1 H2].
  rewrite forallb_forall in H2.
  specialize (H2 b' Hinb'). apply andb_prop in H2 as [H2 H3].
  apply eqb_prop in H2, H3.
  split; [|split; [|split]].
  - rewrite H2. case_decide; destruct (Z.eqb_spec b b'); try reflexivity; lia.
  - rewrite H3. case_decide; destruct (Z.eqb_spec b b'); try reflexivity; lia.
  - intros Hg. rewrite Hg in H1. apply Z.eqb_eq in H1. exact H1.
  - intros Hg. rewrite Hg in H1. apply Z.eqb_eq in H1. exact H1.
Qed.

(** The byte and bit of a sector determine the sector. *)
Lemma sector_of_byte_bit s s' :
  0 <= s -> 0 <= s' -> s / 8 = s' / 8 -> Z.land s 7 = Z.land s' 7 -> s = s'.
Proof.
  intros Hs Hs' Hq Hr.
  change 7 with (Z.ones 3) in Hr. rewrite !Z.land_ones in Hr by lia.
  change (2 ^ 3) with 8 in Hr.
  rewrite (Z.div_mod s 8), (Z.div_mod s' 8) by lia. rewrite Hq, Hr. reflexivity.
Qed.

Lemma isFree_bam dev d t s :
  bamBlock dev d -> isTrackSectorPair (layout dev) t s = true ->
  0 <= t < 64 -> 0 <= s < 24 ->
  isFree dev t s = Some (GET_BIT (byteAt d (4 * t + 1 + s / 8)) (Z.land s 7)).
Proof.
  intros (p & blk & Hbam & Hblk & Hd & Hlen & Hbytes) Hpair Ht Hs. subst d.
  destruct (FSBam.locate_arith t s Ht Hs) as (Hbyte & Hk & _ & _).
  cbn zeta in Hbyte.
  unfold isFree, locateAllocationBit. rewrite Hpair.
  cbn [assertion mbind option_bind]. rewrite Hbam. cbn [mbind option_bind].
  rewrite Hbyte.
  rewrite (FSBam.peek_eq dev p blk _ Hblk) by lia.
  reflexivity.
Qed.

Lemma bamAfter_wf d t s value :
  length d = 256%nat -> Forall (fun x => 0 <= x < 256) d ->
  0 <= t < 64 -> 0 <= s < 24 ->
  length (bamAfter d t s value) = 256%nat
  /\ Forall (fun x => 0 <= x < 256) (bamAfter d t s value).
Proof.
  intros Hlen Hall Ht Hs.
  destruct (FSBam.locate_arith t s Ht Hs) as (_ & Hk & _ & Hbit).
  assert (Hx : 0 <= byteAt d (4 * t + 1 + s / 8) < 256)
    by (apply FSBam.byteAt_range; [assumption | lia]).
  destruct (FSBam.bits_of_byte _ (Z.land s 7) Hx Hbit) as (Hset & Hclr & _).
  unfold bamAfter.
  destruct value, (GET_BIT _ _); try (split; assumption);
    (split; [rewrite !length_insert; assumption|]);
    (apply Forall_insert; [apply Forall_insert; assumption|]);
    unfold u8; apply Z.mod_pos_bound; lia.
Qed.

Lemma setAllocationBit_result dev d t s value :
  layoutFitsBAM (layout dev) -> bamBlock dev d ->
  isTrackSectorPair (layout dev) t s = true ->
  exists dev' p blk,
    setAllocationBit dev t s value = Some dev'
    /\ layout dev' = layout dev
    /\ bamPtr dev = Some p /\ blocks dev !! p = Some blk
    /\ blocks dev' = <[p := set_data blk (bamAfter d t s value)]> (blocks dev)
    /\ bamBlock dev' (bamAfter d t s value).
Proof.
  intros Hfit Hbam Hpair.
  destruct (Hfit t s Hpair) as [Ht Hs].
  destruct (FSBam.setAllocationBit_spec dev d t s value Hbam Hpair Ht Hs)
    as (dev' & p & blk & Hrun & Hlay & Hp & Hblk & Hblocks).
  cbn zeta in Hblocks. fold (bamAfter d t s value) in Hblocks.
  exists dev', p, blk. repeat split; try assumption.
  destruct Hbam as (p0 & blk0 & Hp0 & Hblk0 & Hd & Hlen & Hall).
  destruct (bamAfter_wf d t s value Hlen Hall Ht Hs) as [Hlen' Hall'].
  exists p, (set_data blk (bamAfter d t s value)). repeat split; try assumption.
  - unfold bamPtr, blockPtr_ts, blockPtr in *. rewrite Hlay, Hblocks, length_insert.
    exact Hp.
  - rewrite Hblocks. apply list_lookup_insert_eq. eapply lookup_lt_Some, Hblk.
Qed.

(** What a bit of the BAM is after [setAllocationBit]. *)
Lemma bamAfter_bit d t s value t' s' :
  length d = 256%nat -> Forall (fun x => 0 <= x < 256) d ->
  0 <= t < 64 -> 0 <= s < 24 -> 0 <= t' < 64 -> 0 <= s' < 24 ->
  GET_BIT (byteAt (bamAfter d t s value) (4 * t' + 1 + s' / 8)) (Z.land s' 7)
  = if decide (t' = t /\ s' = s) then value
    else GET_BIT (byteAt d (4 * t' + 1 + s' / 8)) (Z.land s' 7).
Proof.
  intros Hlen Hall Ht Hs Ht' Hs'.
  destruct (FSBam.locate_arith t s Ht Hs) as (_ & Hk & _ & Hbit).
  destruct (FSBam.locate_arith t' s' Ht' Hs') as (_ & Hk' & _ & Hbit').
  set (byte := 4 * t + 1 + s / 8). set (byte' := 4 * t' + 1 + s' / 8).
  assert (Hx : 0 <= byteAt d byte < 256)
    by (apply FSBam.byteAt_range; [assumption | unfold byte; lia]).
  destruct (bit_ops (byteAt d byte) (Z.land s 7) (Z.land s' 7) Hx Hbit Hbit')
    as (Hset & Hclr & _ & _).
  assert (Hsame : byte' = byte -> Z.land s 7 = Z.land s' 7 -> t' = t /\ s' = s).
  { unfold byte, byte'. intros Hb Hbits.
    assert (t' = t) by lia. subst t'. split; [reflexivity|].
    apply sector_of_byte_bit; lia. }
  unfold bamAfter. fold byte.
  destruct (decide (t' = t /\ s' = s)) as [[-> ->] | Hne].
  - fold byte in byte'. subst byte'.
    destruct (decide (Z.land s 7 = Z.land s 7)) as [_ | Hn]; [|congruence].
    destruct value, (GET_BIT (byteAt d byte) (Z.land s 7)) eqn:Hget;
      rewrite ?FSBam.byteAt_insert by (rewrite ?length_insert; unfold byte; lia);
      repeat (destruct (decide _) as [? | ?]; try (unfold byte in *; lia));
      congruence.
  - assert (Hcases : byte' <> byte \/ (byte' = byte /\ Z.land s 7 <> Z.land s' 7)).
    { destruct (decide (byte' = byte)) as [Hb | Hb]; [|left; exact Hb].
      right. split; [exact Hb|]. intros Hbits. apply Hne, Hsame; assumption. }
    destruct value, (GET_BIT (byteAt d byte) (Z.land s 7)) eqn:Hget; try reflexivity;
      rewrite !FSBam.byteAt_insert by (rewrite ?length_insert; unfold byte, byte'; lia);
      (destruct (decide (byte' = 4 * t)) as [? | _]; [unfold byte' in *; lia|]);
      (destruct (decide (byte' = byte)) as [Hb | Hb]; [|reflexivity]);
      (destruct Hcases as [? | [_ Hbits]]; [congruence|]);
      (destruct (decide (Z.land s 7 = Z.land s' 7)) as [? | _]; [congruence|]);
      rewrite ?Hset, ?Hclr, Hb; reflexivity.
Qed.

(** X1: after [setAllocationBit(t, s, value)] the block (t,s) is free
    exactly if [value] is set, and every other block of the layout is free
    exactly if it was free before. *)
Theorem isFree_after_setAllocationBit (dev : FSDevice) (d : list Z)
    (t s : Z) (value : bool) (t' s' : Z) :
  layoutFitsBAM (layout dev) ->
  bamBlock dev d ->
  isTrackSectorPair (layout dev) t s = true ->
  isTrackSectorPair (layout dev) t' s' = true ->
  exists dev',
    setAllocationBit dev t s value = Some dev'
    /\ isFree dev' t' s'
       = if decide (t' = t /\ s' = s) then Some value else isFree dev t' s'.
Proof.
  intros Hfit Hbam Hpair Hpair'.
  destruct (Hfit t s Hpair) as [Ht Hs]. destruct (Hfit t' s' Hpair') as [Ht' Hs'].
  destruct (setAllocationBit_result dev d t s value Hfit Hbam Hpair)
    as (dev' & p & blk & Hrun & Hlay & Hp & Hblk & Hblocks & Hbam').
  exists dev'. split; [exact Hrun|].
  rewrite (isFree_bam dev' _ t' s' Hbam') by (rewrite ?Hlay; assumption).
  rewrite (isFree_bam dev d t' s' Hbam) by assumption.
  destruct Hbam as (p0 & blk0 & _ & _ & _ & Hlen & Hall).
  rewrite (bamAfter_bit d t s value t' s' Hlen Hall) by assumption.
  case_decide; reflexivity.
Qed.

Lemma isFree_after_setAllocationBit_witness :
  exists dev',
    setAllocationBit formatted 1 10 false = Some dev'
    /\ isFree dev' 1 10
       = if decide (1 = 1 /\ 10 = 10) then Some false else isFree formatted 1 10.
Proof.
  apply (isFree_after_setAllocationBit formatted emptyBAM 1 10 false 1 10).
  - exact FSBam.DISK_SS_SD_fits.
  - exact FSBam.formatted_bamBlock.
  - reflexivity.
  - reflexivity.
Defined.

Lemma bamAfter_same d t s value :
  GET_BIT (byteAt d (4 * t + 1 + s / 8)) (Z.land s 7) = value ->
  bamAfter d t s value = d.
Proof.
  intros Hget. unfold bamAfter. rewrite Hget. destruct value; reflexivity.
Qed.

Lemma bamPtr_same dev dev' :
  layout dev' = layout dev -> length (blocks dev') = length (blocks dev) ->
  bamPtr dev' = bamPtr dev.
Proof.
  intros Hlay Hlen. unfold bamPtr, blockPtr_ts, blockPtr. rewrite Hlay, Hlen.
  reflexivity.
Qed.

Lemma device_eq dev dev' :
  layout dev' = layout dev -> blocks dev' = blocks dev -> dev' = dev.
Proof. destruct dev, dev'. simpl. intros -> ->. reflexivity. Qed.

(** Two calls in a row: the second works on the BAM bytes that the first
    has left. *)
Lemma setAllocationBit_twice dev d t s v1 v2 :
  layoutFitsBAM (layout dev) -> bamBlock dev d ->
  isTrackSectorPair (layout dev) t s = true ->
  exists dev1 dev2 p blk,
    setAllocationBit dev t s v1 = Some dev1
    /\ setAllocationBit dev1 t s v2 = Some dev2
    /\ layout dev1 = layout dev /\ layout dev2 = layout dev
    /\ blocks dev !! p = Some blk /\ data blk = d
    /\ blocks dev1 = <[p := set_data blk (bamAfter d t s v1)]> (blocks dev)
    /\ blocks dev2
       = <[p := set_data blk (bamAfter (bamAfter d t s v1) t s v2)]> (blocks dev).
Proof.
  intros Hfit Hbam Hpair.
  destruct (setAllocationBit_result dev d t s v1 Hfit Hbam Hpair)
    as (dev1 & p & blk & Hrun1 & Hlay1 & Hp & Hblk & Hblocks1 & Hbam1).
  assert (Hfit1 : layoutFitsBAM (layout dev1)) by (rewrite Hlay1; exact Hfit).
  assert (Hpair1 : isTrackSectorPair (layout dev1) t s = true)
    by (rewrite Hlay1; exact Hpair).
  destruct (setAllocationBit_result dev1 _ t s v2 Hfit1 Hbam1 Hpair1)
    as (dev2 & p1 & blk1 & Hrun2 & Hlay2 & Hp1 & Hblk1 & Hblocks2 & _).
  assert (Hlen1 : length (blocks dev1) = length (blocks dev))
    by (rewrite Hblocks1; apply length_insert).
  rewrite (bamPtr_same dev dev1 Hlay1 Hlen1) in Hp1.
  assert (p1 = p) by congruence. subst p1.
  rewrite Hblocks1, list_lookup_insert_eq in Hblk1
    by (eapply lookup_lt_Some, Hblk).
  injection Hblk1 as <-.
  exists dev1, dev2, p, blk. repeat split; try assumption; try congruence.
  - destruct Hbam as (p0 & blk0 & Hp0 & Hblk0 & Hd & _).
    assert (p0 = p) by congruence. subst p0. congruence.
  - rewrite Hblocks2, Hblocks1, list_insert_insert_eq. reflexivity.
Qed.

(** X2: [setAllocationBit] is idempotent: a second call with the same
    arguments leaves the device as the first call left it. *)
Theorem setAllocationBit_idempotent (dev : FSDevice) (d : list Z) (t s : Z)
    (value : bool) :
  layoutFitsBAM (layout dev) ->
  bamBlock dev d ->
  isTrackSectorPair (layout dev) t s = true ->
  exists dev',
    setAllocationBit dev t s value = Some dev'
    /\ setAllocationBit dev' t s value = Some dev'.
Proof.
  intros Hfit Hbam Hpair.
  destruct (Hfit t s Hpair) as [Ht Hs].
  destruct (setAllocationBit_twice dev d t s value value Hfit Hbam Hpair)
    as (dev1 & dev2 & p & blk & Hrun1 & Hrun2 & Hlay1 & Hlay2 & Hblk & Hd & Hb1 & Hb2).
  exists dev1. split; [exact Hrun1|]. rewrite Hrun2. f_equal.
  apply device_eq; [congruence|]. rewrite Hb2, Hb1.
  destruct Hbam as (_ & _ & _ & _ & _ & Hlen & Hall).
  rewrite (bamAfter_same (bamAfter d t s value)); [reflexivity|].
  rewrite (bamAfter_bit d t s value t s Hlen Hall) by assumption.
  destruct (decide (t = t /\ s = s)) as [_ | Hn]; [reflexivity | tauto].
Qed.

Lemma setAllocationBit_idempotent_witness :
  exists dev',
    setAllocationBit formatted 17 20 false = Some dev'
    /\ setAllocationBit dev' 17 20 false = Some dev'.
Proof.
  apply (setAllocationBit_idempotent formatted emptyBAM 17 20 false).
  - exact FSBam.DISK_SS_SD_fits.
  - exact FSBam.formatted_bamBlock.
  - reflexivity.
Defined.

Lemma u8_back c : 0 <= c < 256 -> u8 (u8 (c - 1) + 1) = c /\ u8 (u8 (c + 1) - 1) = c.
Proof.
  intros Hc. unfold u8. split.
  - rewrite Zplus_mod_idemp_l. replace (c - 1 + 1) with c by lia.
    apply Z.mod_small. lia.
  - rewrite Zminus_mod_idemp_l. replace (c + 1 - 1) with c by lia.
    apply Z.mod_small. lia.
Qed.

Lemma insert_back (d : list Z) (a b : nat) (va vb va' vb' : Z) :
  a <> b -> d !! a = Some va -> d !! b = Some vb ->
  <[a := va]> (<[b := vb]> (<[a := va']> (<[b := vb']> d))) = d.
Proof.
  intros Hab Ha Hb.
  rewrite (list_insert_insert_ne _ b a vb va') by congruence.
  rewrite !list_insert_insert_eq.
  rewrite (list_insert_id d b vb Hb). apply list_insert_id. exact Ha.
Qed.

Lemma byteAt_lookup d i :
  0 <= i < Z.of_nat (length d) -> d !! Z.to_nat i = Some (byteAt d i).
Proof.
  intros Hi. unfold byteAt.
  destruct (lookup_lt_is_Some_2 d (Z.to_nat i)) as [x Hx]; [lia|].
  rewrite Hx. reflexivity.
Qed.

Lemma bamAfter_back d t s value :
  length d = 256%nat -> Forall (fun x => 0 <= x < 256) d ->
  0 <= t < 64 -> 0 <= s < 24 ->
  GET_BIT (byteAt d (4 * t + 1 + s / 8)) (Z.land s 7) = value ->
  bamAfter (bamAfter d t s (negb value)) t s value = d.
Proof.
  intros Hlen Hall Ht Hs Hget.
  destruct (FSBam.locate_arith t s Ht Hs) as (_ & Hk & _ & Hbit).
  set (byte := 4 * t + 1 + s / 8) in *.
  assert (Hx : 0 <= byteAt d byte < 256)
    by (apply FSBam.byteAt_range; [assumption | unfold byte; lia]).
  assert (Hc : 0 <= byteAt d (4 * t) < 256)
    by (apply FSBam.byteAt_range; [assumption | lia]).
  destruct (bit_ops (byteAt d byte) (Z.land s 7) (Z.land s 7) Hx Hbit Hbit)
    as (Hset & Hclr & Hsc & Hcs).
  destruct (decide (Z.land s 7 = Z.land s 7)) as [_ | Hn]; [|congruence].
  destruct (u8_back _ Hc) as [Hdown Hup].
  assert (Hne : Z.to_nat (4 * t) <> Z.to_nat byte) by (unfold byte; lia).
  unfold bamAfter at 2. fold byte. rewrite Hget.
  destruct value; cbn [negb].
  - (* allocated, then freed again *)
    unfold bamAfter. fold byte.
    rewrite !FSBam.byteAt_insert by (rewrite ?length_insert; unfold byte; lia).
    destruct (decide (byte = 4 * t)) as [? | _]; [unfold byte in *; lia|].
    destruct (decide (byte = byte)) as [_ | ?]; [|congruence].
    destruct (decide (4 * t = 4 * t)) as [_ | ?]; [|congruence].
    rewrite Hclr, Hdown, (Hsc Hget).
    apply insert_back; [exact Hne | apply byteAt_lookup; lia
                       | apply byteAt_lookup; unfold byte; lia].
  - (* freed, then allocated again *)
    unfold bamAfter. fold byte.
    rewrite !FSBam.byteAt_insert by (rewrite ?length_insert; unfold byte; lia).
    destruct (decide (byte = 4 * t)) as [? | _]; [unfold byte in *; lia|].
    destruct (decide (byte = byte)) as [_ | ?]; [|congruence].
    destruct (decide (4 * t = 4 * t)) as [_ | ?]; [|congruence].
    rewrite Hset, Hup, (Hcs Hget).
    apply insert_back; [exact Hne | apply byteAt_lookup; lia
                       | apply byteAt_lookup; unfold byte; lia].
Qed.

(** X3: changing the allocation bit of a block and changing it back
    restores the device, the free count of the track included: for a free
    block, [markAsAllocated] followed by [setAllocationBit(t, s, true)], and
    for a block in use the other way round. *)
Theorem setAllocationBit_undo (dev : FSDevice) (d : list Z) (t s : Z) :
  layoutFitsBAM (layout dev) ->
  bamBlock dev d ->
  isTrackSectorPair (layout dev) t s = true ->
  exists free dev1,
    isFree dev t s = Some free
    /\ setAllocationBit dev t s (negb free) = Some dev1
    /\ isFree dev1 t s = Some (negb free)
    /\ setAllocationBit dev1 t s free = Some dev.
Proof.
  intros Hfit Hbam Hpair.
  destruct (Hfit t s Hpair) as [Ht Hs].
  set (free := GET_BIT (byteAt d (4 * t + 1 + s / 8)) (Z.land s 7)).
  destruct (setAllocationBit_twice dev d t s (negb free) free Hfit Hbam Hpair)
    as (dev1 & dev2 & p & blk & Hrun1 & Hrun2 & Hlay1 & Hlay2 & Hblk & Hd & Hb1 & Hb2).
  destruct (isFree_after_setAllocationBit dev d t s (negb free) t s Hfit Hbam Hpair Hpair)
    as (dev1' & Hrun1' & Hfree1).
  assert (dev1' = dev1) by congruence. subst dev1'.
  destruct (decide (t = t /\ s = s)) as [_ | Hn]; [|tauto].
  exists free, dev1. split; [apply isFree_bam; assumption|].
  split; [exact Hrun1|]. split; [exact Hfree1|].
  rewrite Hrun2. f_equal. apply device_eq; [exact Hlay2|].
  rewrite Hb2. destruct Hbam as (_ & _ & _ & _ & _ & Hlen & Hall).
  rewrite (bamAfter_back d t s free Hlen Hall Ht Hs eq_refl).
  apply list_insert_id. rewrite Hblk. f_equal. subst d. destruct blk; reflexivity.
Qed.

Lemma setAllocationBit_undo_witness :
  exists free dev1,
    isFree formatted 1 0 = Some free
    /\ setAllocationBit formatted 1 0 (negb free) = Some dev1
    /\ isFree dev1 1 0 = Some (negb free)
    /\ setAllocationBit dev1 1 0 free = Some formatted.
Proof.
  apply (setAllocationBit_undo formatted emptyBAM 1 0).
  - exact FSBam.DISK_SS_SD_fits.
  - exact FSBam.formatted_bamBlock.
  - reflexivity.
Defined.

End FSBamLookup.

Module FSNextFree.
Import FS FSOps.

(** ** The walk to the next free block *)

Lemma nextFreeBlock_loop_first_free dev :
  forall (k fuel : nat) (ref : BlockRef),
  (forall j, (j < k)%nat ->
     ref_t (Nat.iter j (nextBlockRef (layout dev)) ref) <> 0
     /\ isFree_ref dev (Nat.iter j (nextBlockRef (layout dev)) ref) = Some false) ->
  ref_t (Nat.iter k (nextBlockRef (layout dev)) ref) = 0
  \/ isFree_ref dev (Nat.iter k (nextBlockRef (layout dev)) ref) = Some true ->
  (k < fuel)%nat ->
  nextFreeBlock_loop fuel dev ref = Some (Nat.iter k (nextBlockRef (layout dev)) ref).
Proof.
  induction k as [|k IH]; intros fuel ref Hused Hstop Hfuel.
  - destruct fuel as [|fuel]; [lia|]. cbn [nextFreeBlock_loop Nat.iter nat_rect] in *.
    destruct (decide (ref_t ref = 0)) as [Hz | Hnz]; [reflexivity|].
    destruct Hstop as [Hz | Hfree]; [contradiction|].
    rewrite Hfree. reflexivity.
  - destruct fuel as [|fuel]; [lia|]. cbn [nextFreeBlock_loop].
    destruct (Hused 0%nat ltac:(lia)) as [Hnz Hfull]. cbn [Nat.iter nat_rect] in Hnz, Hfull.
    destruct (decide (ref_t ref = 0)) as [Hz | _]; [contradiction|].
    rewrite Hfull. cbn [mbind option_bind].
    rewrite Nat.iter_succ_r. apply IH.
    + intros j Hj. rewrite <- Nat.iter_succ_r. apply Hused. lia.
    + rewrite <- Nat.iter_succ_r. exact Hstop.
    + lia.
Qed.

(** X4: for a reference outside the layout [nextFreeBlock] returns (0,0)
    at once, whatever its track number.  For a reference of the layout it
    returns the first reference in the next-block order, from [ref] on,
    that is free or has track number 0 (the latter is where the order
    ends): if the first [k] references are in use and the one after them is
    free or has track 0, that one is returned. *)
Theorem nextFreeBlock_first_free (dev : FSDevice) (ref : BlockRef) (k fuel : nat) :
  (isValidRef (layout dev) ref = true ->
     (forall j, (j < k)%nat ->
        ref_t (Nat.iter j (nextBlockRef (layout dev)) ref) <> 0
        /\ isFree_ref dev (Nat.iter j (nextBlockRef (layout dev)) ref) = Some false)
     /\ (ref_t (Nat.iter k (nextBlockRef (layout dev)) ref) = 0
         \/ isFree_ref dev (Nat.iter k (nextBlockRef (layout dev)) ref) = Some true)
     /\ (k < fuel)%nat) ->
  nextFreeBlock fuel dev ref
  = Some (if isValidRef (layout dev) ref
          then Nat.iter k (nextBlockRef (layout dev)) ref
          else mkBlockRef 0 0).
Proof.
  intros Hwalk. unfold nextFreeBlock.
  destruct (isValidRef (layout dev) ref); [|reflexivity].
  destruct (Hwalk eq_refl) as (Hused & Hstop & Hfuel).
  apply nextFreeBlock_loop_first_free; assumption.
Qed.

Lemma nextFreeBlock_first_free_witness :
  isValidRef (layout oneFreeBlock) (mkBlockRef 2 0) = true
  /\ nextFreeBlock 22 oneFreeBlock (mkBlockRef 2 0)
     = Some (Nat.iter 21 (nextBlockRef (layout oneFreeBlock)) (mkBlockRef 2 0))
  /\ isValidRef (layout formatted) (mkBlockRef 1 25) = false
  /\ nextFreeBlock 0 formatted (mkBlockRef 1 25) = Some (mkBlockRef 0 0).
Proof.
  split; [reflexivity|]. split; [|split; [reflexivity|]].
  - apply (nextFreeBlock_first_free oneFreeBlock (mkBlockRef 2 0) 21 22).
    intros _. split; [|split].
    + intros j Hj.
      do 21 (destruct j as [|j]; [vm_compute; split; [discriminate | reflexivity]|]).
      lia.
    + right. vm_compute. reflexivity.
    + lia.
  - apply (nextFreeBlock_first_free formatted (mkBlockRef 1 25) 0 0).
    intros Hvalid. vm_compute in Hvalid. discriminate.
Defined.

End FSNextFree.

Module FSAllocateBam.
Import FS FSOps.

(** ** The BAM after [allocate] *)

(** The BAM bytes after the blocks [refs] have been marked as allocated
    one after the other. *)
Lemma bamAfter_fold_wf refs : forall d,
  length d = 256%nat -> Forall (fun x => 0 <= x < 256) d ->
  Forall (fun r => 0 <= ref_t r < 64 /\ 0 <= ref_s r < 24) refs ->
  length (foldl (fun d r => bamAfter d (ref_t r) (ref_s r) false) d refs) = 256%nat
  /\ Forall (fun x => 0 <= x < 256)
       (foldl (fun d r => bamAfter d (ref_t r) (ref_s r) false) d refs).
Proof.
  induction refs as [|r refs IH]; intros d Hlen Hall Hrefs; [split; assumption|].
  apply Forall_cons in Hrefs as [[Ht Hs] Hrest]. cbn [foldl].
  destruct (FSBamLookup.bamAfter_wf d (ref_t r) (ref_s r) false Hlen Hall Ht Hs).
  apply IH; assumption.
Qed.

Lemma bamAfter_fold_bit refs : forall d t' s',
  length d = 256%nat -> Forall (fun x => 0 <= x < 256) d ->
  Forall (fun r => 0 <= ref_t r < 64 /\ 0 <= ref_s r < 24) refs ->
  0 <= t' < 64 -> 0 <= s' < 24 ->
  GET_BIT (byteAt (foldl (fun d r => bamAfter d (ref_t r) (ref_s r) false) d refs)
                  (4 * t' + 1 + s' / 8)) (Z.land s' 7)
  = if decide (mkBlockRef t' s' ∈ refs) then false
    else GET_BIT (byteAt d (4 * t' + 1 + s' / 8)) (Z.land s' 7).
Proof.
  induction refs as [|r refs IH]; intros d t' s' Hlen Hall Hrefs Ht' Hs'.
  - cbn [foldl]. destruct (decide _) as [Hin | _]; [|reflexivity].
    apply elem_of_nil in Hin. contradiction.
  - apply Forall_cons in Hrefs as [[Ht Hs] Hrest]. cbn [foldl].
    destruct (FSBamLookup.bamAfter_wf d (ref_t r) (ref_s r) false Hlen Hall Ht Hs)
      as [Hlen1 Hall1].
    rewrite (IH _ t' s' Hlen1 Hall1 Hrest Ht' Hs').
    rewrite (FSBamLookup.bamAfter_bit d (ref_t r) (ref_s r) false t' s' Hlen Hall)
      by assumption.
    destruct (decide (mkBlockRef t' s' ∈ refs)) as [Hin | Hnin].
    + destruct (decide (mkBlockRef t' s' ∈ r :: refs)) as [_ | Hn]; [reflexivity|].
      exfalso. apply Hn. right. exact Hin.
    + destruct (decide (t' = ref_t r /\ s' = ref_s r)) as [[-> ->] | Hne].
      * destruct (decide (_ ∈ r :: refs)) as [_ | Hn]; [reflexivity|].
        exfalso. apply Hn. destruct r. left.
      * destruct (decide (mkBlockRef t' s' ∈ r :: refs)) as [Hin | _]; [|reflexivity].
        apply elem_of_cons in Hin as [Heq | Hin]; [|contradiction].
        subst r. simpl in Hne. tauto.
Qed.

Lemma allocate_loop_bam l pb n :
  forall dev r acc blk d,
  layout dev = l -> wfBlocks dev -> layoutFitsBAM l -> bamBlock dev d ->
  bamPtr dev = Some pb ->
  chainOk l (Z.of_nat (length (blocks dev))) (chainRefs l n r) ->
  exists dev' blk',
    allocate_loop n dev r acc blk = Some (dev', acc ++ chainRefs l n r, blk')
    /\ bamBlock dev'
         (foldl (fun d r => bamAfter d (ref_t r) (ref_s r) false) d (chainRefs l n r)).
Proof.
  induction n as [|n IH]; intros dev r acc blk d Hlay Hwf Hfit Hbam Hpb Hchain.
  - exists dev, blk. cbn [allocate_loop chainRefs foldl]. rewrite app_nil_r.
    split; [reflexivity | exact Hbam].
  - cbn [chainRefs] in Hchain |- *.
    apply FSAllocate.chainOk_cons in Hchain as (Htail & Hfresh & Hpair & Hlt & Hnotbam).
    destruct (FSAllocate.markAsAllocated_frame dev d pb (ref_t r) (ref_s r) Hwf)
      as (dev1 & d1 & Hmark & Hsh1 & Hwf1 & _ & Hpb1 & Hfr1);
      try (rewrite Hlay); try assumption.
    destruct (FSBamLookup.setAllocationBit_result dev d (ref_t r) (ref_s r) false)
      as (dev1' & _ & _ & Hmark' & _ & _ & _ & _ & Hbam1);
      try (rewrite Hlay); try assumption.
    assert (dev1' = dev1) by (unfold markAsAllocated in Hmark; congruence).
    subst dev1'. clear Hmark'.
    cbn [allocate_loop foldl]. rewrite Hmark. cbn [mbind option_bind].
    pose proof Hsh1 as [Hlay1 Hsz1].
    assert (Hlt1 : blockOf (layout dev1) r < Z.of_nat (length (blocks dev1)))
      by (rewrite Hlay1, Hsz1, Hlay; exact Hlt).
    destruct (FSAllocate.blockPtr_ref_ptrOf dev1 r Hlt1) as (_ & Hptr & Hp).
    rewrite Hlay1, Hlay in Hptr, Hp. rewrite Hptr.
    set (p := ptrOf l r) in *.
    assert (Hppb : p <> pb).
    { intros Heq. apply Hnotbam. apply FSAllocate.ptrOf_inj.
      rewrite (FSAllocate.bamPtr_blockOf dev pb Hpb) in Heq. rewrite Hlay in Heq.
      exact Heq. }
    rewrite Hlay1, Hlay.
    assert (Hnext : nextRef l r
                    = let '(_, (t', s')) := nextTrackAndSector l (ref_t r) (ref_s r) in
                      mkBlockRef t' s') by reflexivity.
    destruct (nextTrackAndSector l (ref_t r) (ref_s r)) as [ok [t' s']].
    cbn [mbind option_bind].
    destruct (FSAllocate.poke_cell dev1 p 0 (u8 t') Hwf1 Hp)
      as (dev2 & Hpoke2 & Hsh2 & Hwf2 & Hfr2 & _); [lia|].
    rewrite Hpoke2. cbn [mbind option_bind].
    pose proof Hsh2 as [Hlay2 Hsz2].
    destruct (FSAllocate.poke_cell dev2 p 1 (u8 s') Hwf2)
      as (dev3 & Hpoke3 & Hsh3 & Hwf3 & Hfr3 & _); [lia | lia |].
    rewrite Hpoke3. cbn [mbind option_bind].
    pose proof Hsh3 as [Hlay3 Hsz3].
    destruct (FSAllocate.bamBlock_frame dev1 dev3 (bamAfter d (ref_t r) (ref_s r) false)
                pb Hbam1 Hpb1) as [Hbam3 Hpb3].
    { eapply FSAllocate.sameShape_trans; eassumption. }
    { rewrite Hfr3, Hfr2 by congruence. reflexivity. }
    destruct (IH dev3 (mkBlockRef t' s') (acc ++ [r]) (Some p)
                (bamAfter d (ref_t r) (ref_s r) false))
      as (dev' & blk' & Hloop & Hbam'); try assumption.
    { congruence. }
    { rewrite Hsz3, Hsz2, Hsz1, <- Hnext. exact Htail. }
    rewrite Hloop. rewrite <- Hnext in *.
    exists dev', blk'. rewrite <- app_assoc. split; [reflexivity | exact Hbam'].
Qed.

Lemma chainOk_in_layout l n refs :
  layoutFitsBAM l -> chainOk l n refs ->
  Forall (fun r => 0 <= ref_t r < 64 /\ 0 <= ref_s r < 24) refs.
Proof.
  intros Hfit [Hall _]. eapply Forall_impl; [exact Hall|].
  intros r (Hpair & _). exact (Hfit _ _ Hpair).
Qed.

(** The BAM block after [allocate]: the bytes before, with the blocks of
    the chain marked as allocated one after the other. *)
Lemma allocate_bamBlock (dev : FSDevice) (d : list Z) (start : BlockRef)
    (k fuel : nat) (dev' : FSDevice) :
  wfBlocks dev ->
  layoutFitsBAM (layout dev) ->
  bamBlock dev d ->
  isValidRef (layout dev) start = true ->
  isFree_ref dev start = Some true ->
  ref_t start <> 0 ->
  (0 < fuel)%nat -> (0 < k)%nat ->
  chainOk (layout dev) (Z.of_nat (length (blocks dev)))
          (chainRefs (layout dev) k start) ->
  allocate fuel dev start (Z.of_nat k) = Some (dev', chainRefs (layout dev) k start) ->
  bamBlock dev'
    (foldl (fun d r => bamAfter d (ref_t r) (ref_s r) false) d
       (chainRefs (layout dev) k start)).
Proof.
  intros Hwf Hfit Hbam Hvalid Hfree Ht Hfuel Hk Hchain Hrun.
  pose proof Hbam as (pb & blkb & Hpb & Hblkb & Hd & Hlen & Hall).
  set (chain := chainRefs (layout dev) k start) in *.
  set (dK := foldl (fun d r => bamAfter d (ref_t r) (ref_s r) false) d chain).
  destruct (allocate_loop_bam (layout dev) pb k dev start [] None d eq_refl
            Hwf Hfit Hbam Hpb Hchain) as (dev1 & blk1 & Hloop & Hbam1).
  fold chain in Hloop, Hbam1. fold dK in Hbam1.
  destruct (FSAllocate.allocate_loop_spec (layout dev) pb k dev start [] None d eq_refl
            Hwf Hfit Hbam Hpb Hchain)
    as (dev1' & d1 & blk1' & Hloop' & Hsh1 & Hwf1 & _ & Hpb1 & Hblk1 & _).
  fold chain in Hloop'.
  assert (dev1' = dev1) by congruence. subst dev1'.
  assert (Hsame : blk1' = blk1) by congruence. rewrite Hsame in Hblk1.
  fold chain in Hblk1.
  (* the two writes behind the loop go to the last block of the chain *)
  unfold allocate in Hrun. rewrite bool_decide_true in Hrun by lia.
  cbn [assertion mbind option_bind] in Hrun.
  unfold nextFreeBlock in Hrun. rewrite Hvalid in Hrun.
  destruct fuel as [|fuel']; [lia|]. cbn [nextFreeBlock_loop] in Hrun.
  destruct (decide (ref_t start = 0)) as [? | _]; [contradiction|].
  rewrite Hfree in Hrun. cbn [mbind option_bind] in Hrun.
  destruct (decide (ref_t start <> 0)) as [_ | ?]; [|contradiction].
  rewrite Nat2Z.id, Hloop in Hrun. cbn [mbind option_bind app] in Hrun.
  assert (Hlenc : length chain = k) by apply FSAllocate.chainRefs_length.
  destruct (lookup_lt_is_Some_2 chain (pred k)) as [rl Hrl]; [lia|].
  assert (Hlast : last (ptrOf (layout dev) <$> chain) = Some (ptrOf (layout dev) rl)).
  { rewrite last_lookup, length_fmap, Hlenc, list_lookup_fmap, Hrl. reflexivity. }
  rewrite Hlast in Hblk1. cbn [from_option] in Hblk1. subst blk1.
  cbn [mbind option_bind] in Hrun.
  destruct (FSAllocate.chainOk_lookup _ _ _ _ _ Hchain Hrl)
    as (_ & _ & _ & Hlt & Hnb & _).
  pose proof Hsh1 as [Hlay1 Hsz1].
  assert (Hp : (ptrOf (layout dev) rl < length (blocks dev1))%nat).
  { rewrite Hsz1. unfold ptrOf. pose proof (FSAllocate.blockOf_nonneg (layout dev) rl).
    lia. }
  set (p := ptrOf (layout dev) rl) in *.
  destruct (FSAllocate.poke_cell dev1 p 0 0 Hwf1 Hp)
    as (dev2 & Hpoke2 & Hsh2 & Hwf2 & Hfr2 & _); [lia|].
  rewrite Hpoke2 in Hrun. cbn [mbind option_bind] in Hrun.
  destruct (FSAllocate.poke_cell dev2 p 1 0 Hwf2)
    as (dev3 & Hpoke3 & Hsh3 & Hwf3 & Hfr3 & _);
    [destruct Hsh2 as [_ ->]; exact Hp | lia |].
  rewrite Hpoke3 in Hrun. cbn [mbind option_bind] in Hrun.
  assert (dev3 = dev') by congruence. subst dev3.
  assert (Hppb : p <> pb).
  { intros Heq. apply Hnb. apply FSAllocate.ptrOf_inj.
    rewrite (FSAllocate.bamPtr_blockOf dev pb Hpb) in Heq. exact Heq. }
  destruct (FSAllocate.bamBlock_frame dev1 dev' dK pb Hbam1 Hpb1) as [HbK _].
  { eapply FSAllocate.sameShape_trans; eassumption. }
  { rewrite Hfr3, Hfr2 by congruence. reflexivity. }
  exact HbK.
Qed.

(** X5: when [start] is free and the [k] references from [start] on in the
    [nextTrackAndSector] order name [k] different data blocks of the
    device, [allocate(start, k)] returns exactly these references; after
    the call each of them is marked as allocated, every other block of the
    layout is free exactly if it was free before, and the returned blocks
    are linked in order, the last one with the link (0,0). *)
Theorem allocate_marks_chain (dev : FSDevice) (d : list Z) (start : BlockRef)
    (k fuel : nat) :
  wfBlocks dev ->
  layoutFitsBAM (layout dev) ->
  bamBlock dev d ->
  isValidRef (layout dev) start = true ->
  isFree_ref dev start = Some true ->
  ref_t start <> 0 ->
  (0 < fuel)%nat -> (0 < k)%nat ->
  chainOk (layout dev) (Z.of_nat (length (blocks dev)))
          (chainRefs (layout dev) k start) ->
  exists dev',
    allocate fuel dev start (Z.of_nat k)
    = Some (dev', chainRefs (layout dev) k start)
    /\ (forall t s, isTrackSectorPair (layout dev) t s = true ->
          isFree dev' t s
          = if decide (mkBlockRef t s ∈ chainRefs (layout dev) k start)
            then Some false else isFree dev t s)
    /\ (forall j rj, chainRefs (layout dev) k start !! j = Some rj ->
          cell dev' (ptrOf (layout dev) rj) 0
          = from_option (fun r => u8 (ref_t r)) 0
              (chainRefs (layout dev) k start !! S j)
          /\ cell dev' (ptrOf (layout dev) rj) 1
             = from_option (fun r => u8 (ref_s r)) 0
                 (chainRefs (layout dev) k start !! S j)).
Proof.
  intros Hwf Hfit Hbam Hvalid Hfree Ht Hfuel Hk Hchain.
  pose proof Hbam as (pb & blkb & Hpb & Hblkb & Hd & Hlen & Hall).
  destruct (FSAllocate.allocate_spec (layout dev) pb fuel dev start k d eq_refl
              Hwf Hfit Hbam Hpb Hvalid Hfree Ht Hfuel Hk Hchain)
    as (dev' & d' & Hrun & Hsh & Hwf' & Hbam' & Hframe & Hlinks).
  exists dev'. split; [exact Hrun|]. split; [|exact Hlinks].
  (* the BAM bytes *)
  set (chain := chainRefs (layout dev) k start) in *.
  set (dK := foldl (fun d r => bamAfter d (ref_t r) (ref_s r) false) d chain).
  assert (HbamK : bamBlock dev' dK).
  { exact (allocate_bamBlock dev d start k fuel dev' Hwf Hfit Hbam Hvalid Hfree Ht
             Hfuel Hk Hchain Hrun). }
  intros t s Hpair. destruct (Hfit t s Hpair) as [Ht' Hs'].
  pose proof Hsh as [Hlay' _].
  rewrite (FSBamLookup.isFree_bam dev' dK t s HbamK) by (rewrite ?Hlay'; assumption).
  rewrite (FSBamLookup.isFree_bam dev d t s Hbam) by assumption.
  unfold dK. rewrite (bamAfter_fold_bit chain d t s Hlen Hall) by
    (try assumption; eapply chainOk_in_layout; eassumption).
  destruct (decide _); reflexivity.
Qed.

Lemma allocate_marks_chain_witness :
  exists dev',
    allocate 1 formatted (mkBlockRef 1 0) (Z.of_nat 3)
    = Some (dev', chainRefs (layout formatted) 3 (mkBlockRef 1 0))
    /\ (forall t s, isTrackSectorPair (layout formatted) t s = true ->
          isFree dev' t s
          = if decide (mkBlockRef t s ∈ chainRefs (layout formatted) 3 (mkBlockRef 1 0))
            then Some false else isFree formatted t s)
    /\ (forall j rj, chainRefs (layout formatted) 3 (mkBlockRef 1 0) !! j = Some rj ->
          cell dev' (ptrOf (layout formatted) rj) 0
          = from_option (fun r => u8 (ref_t r)) 0
              (chainRefs (layout formatted) 3 (mkBlockRef 1 0) !! S j)
          /\ cell dev' (ptrOf (layout formatted) rj) 1
             = from_option (fun r => u8 (ref_s r)) 0
                 (chainRefs (layout formatted) 3 (mkBlockRef 1 0) !! S j)).
Proof.
  apply (allocate_marks_chain formatted emptyBAM (mkBlockRef 1 0) 3 1).
  - exact FSDirectory.formatted_wf.
  - exact FSBam.DISK_SS_SD_fits.
  - exact FSBam.formatted_bamBlock.
  - reflexivity.
  - vm_compute. reflexivity.
  - simpl. lia.
  - lia.
  - lia.
  - apply (bool_decide_unpack
             (chainOk (layout formatted) (Z.of_nat (length (blocks formatted)))
                (chainRefs (layout formatted) 3 (mkBlockRef 1 0)))).
    vm_compute. exact I.
Defined.

End FSAllocateBam.

Module FSMakeFileFree.
Import FS FSOps.

(** ** Writing a file to free blocks *)

(** On the disk that [makeWithFormat] creates no block is free, since the
    BAM block is zeroed: [makeFile] finds no block and returns false. *)
Lemma makeFile_without_BAM :
  isFree (makeWithFormat DISK_SS_SD) 1 0 = Some false
  /\ (r ← makeFile FSDirEntry_isEmpty 700 (makeWithFormat DISK_SS_SD) [72; 73] [65];
      Some r.2) = Some false.
Proof. split; vm_compute; reflexivity. Qed.

(** C2, as the code has it: on a single-sided, single-density disk with
    its BAM in place, on which the first two directory slots are empty and
    the k = ceil(len / 254) blocks from (1,0) on in the next-block order
    are free, [makeFile] with a payload of [len] bytes, 0 < len <= 164 *
    254, allocates exactly these k blocks: afterwards each of them is
    marked as allocated and every other block is free exactly if it was
    before.  It links them into a chain that ends with the link (0,0), and
    fills the first directory slot with the type PRG, the first track and
    sector (1,0), the padded name and the block count k.  Scanning the
    directory then finds that slot, and reading the chain yields the 254 *
    k data bytes of the k blocks: they begin with the payload, and what
    follows the payload in the last block is read as well. *)
Theorem makeFile_writes_file (dev : FSDevice) (d name buf : list Z)
    (isHidden : list Z -> bool) (fuel : nat) :
  let k := (Z.of_nat (length buf) + 253) / 254 in
  let refs := chainRefs DISK_SS_SD (Z.to_nat k) (mkBlockRef 1 0) in
  layout dev = DISK_SS_SD ->
  length (blocks dev) = 683%nat ->
  wfBlocks dev ->
  bamBlock dev d ->
  Forall (fun r => isFree dev (ref_t r) (ref_s r) = Some true) refs ->
  FSDirEntry_isEmpty (entryOf dev (mkEntryPtr 358 0)) = true ->
  FSDirEntry_isEmpty (entryOf dev (mkEntryPtr 358 1)) = true ->
  (0 < fuel)%nat ->
  0 < Z.of_nat (length buf) <= 164 * 254 ->
  exists dev1 dev' out,
    allocate fuel dev (mkBlockRef 1 0) k = Some (dev1, refs)
    /\ Z.of_nat (length refs) = k
    /\ makeFile FSDirEntry_isEmpty fuel dev name buf = Some (dev', true)
    /\ (forall t s, isTrackSectorPair DISK_SS_SD t s = true ->
          isFree dev' t s
          = if decide (mkBlockRef t s ∈ refs) then Some false else isFree dev t s)
    /\ (forall j rj, refs !! j = Some rj ->
          (cell dev' (ptrOf DISK_SS_SD rj) 0, cell dev' (ptrOf DISK_SS_SD rj) 1)
          = match refs !! S j with
            | Some r' => (ref_t r', ref_s r')
            | None => (0, 0)
            end)
    /\ scanDirectory FSDirEntry_isEmpty isHidden dev' false = Some [mkEntryPtr 358 0]
    /\ entry_fileType (entryOf dev' (mkEntryPtr 358 0)) = FILETYPE_PRG
    /\ entry_firstTrack (entryOf dev' (mkEntryPtr 358 0)) = 1
    /\ entry_firstSector (entryOf dev' (mkEntryPtr 358 0)) = 0
    /\ entry_fileName (entryOf dev' (mkEntryPtr 358 0)) = padName name
    /\ entry_fileSize (entryOf dev' (mkEntryPtr 358 0)) = k
    /\ readChain (Z.to_nat k) dev' 1 0 = Some out
    /\ Z.of_nat (length out) = 254 * k
    /\ take (length buf) out = buf.
Proof.
  intros k refs Hlay Hlen Hwf Hbam Hfree He0 He1 Hfuel Hbuf.
  destruct (FSMakeFileSSSD.SS_SD_pointers dev Hlay Hlen) as [Hpb Hpd].
  pose proof (FSFile.blocks_needed (Z.of_nat (length buf)) ltac:(lia)) as Hneed.
  fold k in Hneed.
  assert (Hk164 : 1 <= k <= 164).
  { split; [lia|]. unfold k.
    assert ((Z.of_nat (length buf) + 253) / 254 < 165)
      by (apply Z.div_lt_upper_bound; lia). lia. }
  assert (Hhead : refs !! 0%nat = Some (mkBlockRef 1 0)).
  { unfold refs. destruct (Z.to_nat k) as [|n] eqn:E; [lia | reflexivity]. }
  assert (Hfree0 : isFree_ref dev (mkBlockRef 1 0) = Some true).
  { rewrite (FSMakeFileSSSD.SS_SD_isFree_ref dev 1 0 Hlay).
    rewrite Forall_lookup in Hfree. exact (Hfree 0%nat _ Hhead). }
  assert (Hchain : chainOk DISK_SS_SD (Z.of_nat (length (blocks dev)))
                     (chainRefs DISK_SS_SD 164 (mkBlockRef 1 0))).
  { rewrite Hlen. exact FSMakeFileSSSD.SS_SD_chain_164. }
  assert (Hne : 358%nat <> 357%nat) by discriminate.
  assert (Hbuf' : 0 < Z.of_nat (length buf) <= 254 * Z.of_nat 164) by lia.
  assert (HK : Z.of_nat 164 < 65536) by lia.
  destruct (FSMakeFile.makeFile_effect DISK_SS_SD dev d 357 358 name buf fuel 164
              Hlay Hwf FSBam.DISK_SS_SD_fits Hbam Hpb Hpd Hne eq_refl Hfree0 Hfuel
              Hchain Hbuf' HK He0 He1)
    as (dev1 & dev' & Halloc & Hrun & Hsh & Hwf' & _ & _ & _ & Hsame).
  destruct (FSMakeFile.makeFile_result DISK_SS_SD dev d 357 358 name buf fuel 164
              Hlay Hwf FSBam.DISK_SS_SD_fits Hbam Hpb Hpd Hne eq_refl Hfree0 Hfuel
              Hchain Hbuf' HK He0 He1 isHidden)
    as (dev1' & dev'' & out & Halloc' & Hrlen & Hrun' & Hlinks & Hrest).
  fold k in Halloc, Halloc', Hrlen, Hlinks, Hrest. fold refs in Halloc, Halloc', Hrlen, Hlinks.
  assert (dev1' = dev1) by congruence. assert (dev'' = dev') by congruence.
  subst dev1' dev''.
  exists dev1, dev', out.
  split; [exact Halloc|]. split; [exact Hrlen|]. split; [exact Hrun|].
  split; [|split; [exact Hlinks | exact Hrest]].
  (* the allocation bits *)
  assert (Hchaink : chainOk DISK_SS_SD (Z.of_nat (length (blocks dev))) refs).
  { unfold refs.
    rewrite (FSFile.chainRefs_take DISK_SS_SD 164 (mkBlockRef 1 0) (Z.to_nat k)) by lia.
    apply FSFile.chainOk_take. exact Hchain. }
  pose proof Hbam as (pb & blkb & Hpb' & Hblkb & Hd & Hdlen & Hdall).
  set (dK := foldl (fun d r => bamAfter d (ref_t r) (ref_s r) false) d refs).
  assert (Hbam1 : bamBlock dev1 dK).
  { pose proof (FSAllocateBam.allocate_bamBlock dev d (mkBlockRef 1 0) (Z.to_nat k)
                  fuel dev1 Hwf) as Hb.
    rewrite Hlay, Z2Nat.id in Hb by lia.
    apply Hb; try assumption; try reflexivity; try lia.
    - exact FSBam.DISK_SS_SD_fits.
    - discriminate. }
  assert (Hsh1 : sameShape dev dev1 /\ bamPtr dev1 = Some 357%nat).
  { destruct (FSAllocate.allocate_spec DISK_SS_SD 357 fuel dev (mkBlockRef 1 0)
                (Z.to_nat k) d Hlay Hwf FSBam.DISK_SS_SD_fits Hbam Hpb eq_refl Hfree0)
      as (dev1' & d1 & Halloc1 & [Hlay1 Hsz1] & _); try assumption; try lia.
    { discriminate. }
    rewrite Z2Nat.id in Halloc1 by lia. fold refs in Halloc1.
    assert (dev1' = dev1) by congruence. subst dev1'.
    split; [split; assumption|].
    apply FSMakeFileSSSD.SS_SD_pointers; congruence. }
  destruct Hsh1 as [[Hlay1 Hsz1] Hpb1].
  pose proof Hsh as [Hlay' Hsz'].
  destruct (FSAllocate.bamBlock_frame dev1 dev' dK 357 Hbam1 Hpb1) as [HbamK _].
  { split; congruence. }
  { exact Hsame. }
  intros t s Hpair. destruct (FSBam.DISK_SS_SD_fits t s Hpair) as [Ht' Hs'].
  rewrite (FSBamLookup.isFree_bam dev' dK t s HbamK) by (rewrite ?Hlay', ?Hlay; assumption).
  rewrite (FSBamLookup.isFree_bam dev d t s Hbam) by (rewrite ?Hlay; assumption).
  assert (Hin : Forall (fun r => 0 <= ref_t r < 64 /\ 0 <= ref_s r < 24) refs).
  { eapply FSAllocateBam.chainOk_in_layout;
      [exact FSBam.DISK_SS_SD_fits | exact Hchaink]. }
  unfold dK. rewrite (FSAllocateBam.bamAfter_fold_bit refs d t s Hdlen Hdall Hin Ht' Hs').
  destruct (decide _); reflexivity.
Qed.

(** On the empty disk all 164 blocks that a file can take are free. *)
Lemma formatted_chain_free :
  Forall (fun r => isFree formatted (ref_t r) (ref_s r) = Some true)
         (chainRefs DISK_SS_SD 164 (mkBlockRef 1 0)).
Proof.
  apply (bool_decide_unpack
           (Forall (fun r => isFree formatted (ref_t r) (ref_s r) = Some true)
                   (chainRefs DISK_SS_SD 164 (mkBlockRef 1 0)))).
  vm_compute. exact I.
Qed.

Lemma makeFile_writes_file_witness :
  let k := (Z.of_nat (length (seqZ 1 200 ++ seqZ 1 200 ++ seqZ 1 200)) + 253) / 254 in
  let refs := chainRefs DISK_SS_SD (Z.to_nat k) (mkBlockRef 1 0) in
  exists dev1 dev' out,
    allocate 1 formatted (mkBlockRef 1 0) k = Some (dev1, refs)
    /\ Z.of_nat (length refs) = k
    /\ makeFile FSDirEntry_isEmpty 1 formatted [72; 69; 76; 76; 79]
         (seqZ 1 200 ++ seqZ 1 200 ++ seqZ 1 200) = Some (dev', true)
    /\ (forall t s, isTrackSectorPair DISK_SS_SD t s = true ->
          isFree dev' t s
          = if decide (mkBlockRef t s ∈ refs) then Some false
            else isFree formatted t s)
    /\ (forall j rj, refs !! j = Some rj ->
          (cell dev' (ptrOf DISK_SS_SD rj) 0, cell dev' (ptrOf DISK_SS_SD rj) 1)
          = match refs !! S j with
            | Some r' => (ref_t r', ref_s r')
            | None => (0, 0)
            end)
    /\ scanDirectory FSDirEntry_isEmpty (fun _ => false) dev' false
       = Some [mkEntryPtr 358 0]
    /\ entry_fileType (entryOf dev' (mkEntryPtr 358 0)) = FILETYPE_PRG
    /\ entry_firstTrack (entryOf dev' (mkEntryPtr 358 0)) = 1
    /\ entry_firstSector (entryOf dev' (mkEntryPtr 358 0)) = 0
    /\ entry_fileName (entryOf dev' (mkEntryPtr 358 0)) = padName [72; 69; 76; 76; 79]
    /\ entry_fileSize (entryOf dev' (mkEntryPtr 358 0)) = k
    /\ readChain (Z.to_nat k) dev' 1 0 = Some out
    /\ Z.of_nat (length out) = 254 * k
    /\ take (length (seqZ 1 200 ++ seqZ 1 200 ++ seqZ 1 200)) out
       = seqZ 1 200 ++ seqZ 1 200 ++ seqZ 1 200.
Proof.
  apply (makeFile_writes_file formatted emptyBAM [72; 69; 76; 76; 79]
           (seqZ 1 200 ++ seqZ 1 200 ++ seqZ 1 200) (fun _ => false) 1).
  - reflexivity.
  - vm_compute. reflexivity.
  - exact FSDirectory.formatted_wf.
  - exact FSBam.formatted_bamBlock.
  - apply (bool_decide_unpack
             (Forall (fun r => isFree formatted (ref_t r) (ref_s r) = Some true)
                (chainRefs DISK_SS_SD 3 (mkBlockRef 1 0)))).
    vm_compute. exact I.
  - exact (proj1 FSMakeFileSSSD.formatted_dir_empty).
  - exact (proj2 FSMakeFileSSSD.formatted_dir_empty).
  - lia.
  - vm_compute. split; [reflexivity | discriminate].
Defined.

End FSMakeFileFree.

Module FSDirSearch.
Import FS FSOps.

(** ** The search for a free directory entry *)

Section Search.

Variable isEmpty : list Z -> bool.
Variable dev : FSDevice.

Lemma makeFile_loop_search (fuel : nat) (name buf : list Z) (n : nat) :
  forall (i : Z) (ptr : option nat),
  makeFile_loop isEmpty fuel dev name buf n i ptr
  = match nextFreeDirEntry_loop isEmpty dev n i ptr with
    | Some (Some dir) => makeFile_dir fuel dev name dir buf
    | Some None => Some (dev, true)
    | None => None
    end.
Proof.
  induction n as [|n IH]; intros i ptr; [reflexivity|].
  destruct ptr as [p|]; [|reflexivity].
  cbn [makeFile_loop nextFreeDirEntry_loop].
  destruct (entryBytes dev (mkEntryPtr p (i mod 8))) as [e|]; [|reflexivity].
  cbn [mbind option_bind].
  destruct (isEmpty e); [reflexivity|].
  destruct (if decide (i mod 8 = 7) then nextBlockPtr dev (Some p) else Some (Some p))
    as [ptr'|]; [|reflexivity].
  cbn [mbind option_bind]. apply IH.
Qed.

Hypothesis dev_wf : wfBlocks dev.

Let empty (e : FSDirEntryPtr) : bool := isEmpty (entryOf dev e).

Lemma nextFreeDirEntry_loop_spec (n : nat) :
  forall (i : Z) (ptr : option nat),
  (forall p, ptr = Some p -> (p < length (blocks dev))%nat) ->
  exists slots,
    dirSlots dev n i ptr = Some slots
    /\ nextFreeDirEntry_loop isEmpty dev n i ptr
       = Some (slots !! length (before empty slots))
    /\ (forall e, slots !! length (before empty slots) = Some e -> empty e = true).
Proof.
  induction n as [|n IH]; intros i ptr Hptr.
  - exists []. repeat split; try reflexivity. intros e He. discriminate.
  - destruct ptr as [p|].
    2:{ exists []. repeat split; try reflexivity. intros e He. discriminate. }
    specialize (Hptr p eq_refl).
    assert (Hslot : 0 <= i mod 8 < 8) by (apply Z.mod_pos_bound; lia).
    destruct (FSDirectory.entryBytes_wf dev p (i mod 8) dev_wf Hptr Hslot)
      as (e & He & _).
    assert (Hnext : exists ptr',
               (if decide (i mod 8 = 7) then nextBlockPtr dev (Some p) else Some (Some p))
               = Some ptr'
               /\ (forall q, ptr' = Some q -> (q < length (blocks dev))%nat)).
    { destruct (decide (i mod 8 = 7)).
      - apply FSDirectory.nextBlockPtr_wf; assumption.
      - exists (Some p). split; [reflexivity|]. intros q [= <-]. exact Hptr. }
    destruct Hnext as (ptr' & Hnext & Hptr').
    destruct (IH (i + 1) ptr' Hptr') as (rest & Hrest & Hloop & Hempty).
    exists (mkEntryPtr p (i mod 8) :: rest).
    cbn [dirSlots nextFreeDirEntry_loop]. rewrite Hnext, He.
    cbn [mbind option_bind]. rewrite Hrest. cbn [mbind option_bind].
    split; [reflexivity|].
    cbn [before]. unfold empty at 1 3, entryOf. rewrite He. cbn [default from_option id].
    destruct (isEmpty e) eqn:Hise.
    + split; [reflexivity|]. intros e' [= <-].
      unfold empty, entryOf. rewrite He. exact Hise.
    + split; [exact Hloop | exact Hempty].
Qed.

End Search.

(** X6: [nextFreeDirEntry] returns the first empty slot of the directory
    walk (the slots in chain order from (18,1), eight per block, at most
    144), or the null pointer when the walk has no empty slot.  The entries
    that [scanDirectory] lists without skipping are exactly the slots
    before it. *)
Theorem nextFreeDirEntry_first_empty (isEmpty isHidden : list Z -> bool)
    (dev : FSDevice) :
  wfBlocks dev ->
  exists slots used,
    dirSlots dev 144 0 (blockPtr_ts dev 18 1) = Some slots
    /\ used = before (fun e => isEmpty (entryOf dev e)) slots
    /\ scanDirectory isEmpty isHidden dev false = Some used
    /\ nextFreeDirEntry isEmpty dev = Some (slots !! length used)
    /\ (forall e, slots !! length used = Some e -> isEmpty (entryOf dev e) = true).
Proof.
  intros Hwf.
  destruct (nextFreeDirEntry_loop_spec isEmpty dev Hwf 144 0 (blockPtr_ts dev 18 1))
    as (slots & Hslots & Hfree & Hempty).
  { intros p Hp. eapply FSDirectory.blockPtr_ts_valid, Hp. }
  destruct (FSDirectory.scanDirectory_loop_spec isEmpty isHidden dev false Hwf
              144 0 (blockPtr_ts dev 18 1) [])
    as (slots' & Hslots' & _ & Hscan).
  { intros p Hp. eapply FSDirectory.blockPtr_ts_valid, Hp. }
  assert (slots' = slots) by congruence. subst slots'.
  exists slots, (before (fun e => isEmpty (entryOf dev e)) slots).
  split; [exact Hslots|]. split; [reflexivity|]. split; [|split].
  - unfold scanDirectory. rewrite Hscan. cbn [app]. f_equal.
    clear. generalize (before (fun e => isEmpty (entryOf dev e)) slots).
    intros l. induction l as [|x xs IHxs]; [reflexivity|].
    cbn [List.filter andb negb]. f_equal. exact IHxs.
  - exact Hfree.
  - exact Hempty.
Qed.

Lemma nextFreeDirEntry_first_empty_witness :
  exists slots used,
    dirSlots dirWithGap 144 0 (blockPtr_ts dirWithGap 18 1) = Some slots
    /\ used = before (fun e => FSDirEntry_isEmpty (entryOf dirWithGap e)) slots
    /\ scanDirectory FSDirEntry_isEmpty (fun _ => false) dirWithGap false = Some used
    /\ nextFreeDirEntry FSDirEntry_isEmpty dirWithGap = Some (slots !! length used)
    /\ (forall e, slots !! length used = Some e
                  -> FSDirEntry_isEmpty (entryOf dirWithGap e) = true).
Proof.
  apply (nextFreeDirEntry_first_empty FSDirEntry_isEmpty (fun _ => false) dirWithGap).
  exact FSDirectory.dirWithGap_wf.
Defined.

(** X7: [makeFile(name, buf, cnt)] writes the file into the entry that
    [nextFreeDirEntry] returns; when there is no free entry it returns true
    and leaves the device as it is. *)
Theorem makeFile_uses_nextFreeDirEntry (isEmpty : list Z -> bool) (fuel : nat)
    (dev : FSDevice) (name buf : list Z) :
  makeFile isEmpty fuel dev name buf
  = match nextFreeDirEntry isEmpty dev with
    | Some (Some dir) => makeFile_dir fuel dev name dir buf
    | Some None => Some (dev, true)
    | None => None
    end.
Proof. apply makeFile_loop_search. Qed.

(** X8: with a free directory entry at hand, [makeFile] with an empty
    payload asks [allocate] for 0 blocks and runs into its assertion
    [n > 0]. *)
Theorem makeFile_empty_payload (isEmpty : list Z -> bool) (fuel : nat)
    (dev : FSDevice) (name : list Z) (dir : FSDirEntryPtr) :
  nextFreeDirEntry isEmpty dev = Some (Some dir) ->
  allocate fuel dev (mkBlockRef 1 0) 0 = None
  /\ makeFile isEmpty fuel dev name [] = None.
Proof.
  intros Hdir. split; [reflexivity|].
  unfold makeFile. rewrite makeFile_loop_search.
  fold (nextFreeDirEntry isEmpty dev). rewrite Hdir. reflexivity.
Qed.

Lemma makeFile_empty_payload_witness :
  allocate 700 formatted (mkBlockRef 1 0) 0 = None
  /\ makeFile FSDirEntry_isEmpty 700 formatted [72; 73] [] = None.
Proof.
  apply (makeFile_empty_payload FSDirEntry_isEmpty 700 formatted [72; 73]
           (mkEntryPtr 358 0)).
  vm_compute. reflexivity.
Defined.

(** X9: when the walk from (1,0) finds no free block, [makeFile] with a
    payload returns false and leaves the device as it is: no block is
    written and no directory entry is filled. *)
Theorem makeFile_disk_full (isEmpty : list Z -> bool) (fuel : nat)
    (dev : FSDevice) (name buf : list Z) (dir : FSDirEntryPtr) (r : BlockRef) :
  nextFreeDirEntry isEmpty dev = Some (Some dir) ->
  nextFreeBlock fuel dev (mkBlockRef 1 0) = Some r ->
  ref_t r = 0 ->
  0 < Z.of_nat (length buf) < 2 ^ 32 ->
  makeFile isEmpty fuel dev name buf = Some (dev, false).
Proof.
  intros Hdir Hwalk Hr Hlen.
  unfold makeFile. rewrite makeFile_loop_search.
  fold (nextFreeDirEntry isEmpty dev). rewrite Hdir.
  unfold makeFile_dir, allocate.
  assert (Hn : u32 (u64 (Z.of_nat (length buf) + 253) / 254) > 0).
  { rewrite FSBasics.u64_small by lia.
    assert (1 <= (Z.of_nat (length buf) + 253) / 254) by (apply Z.div_le_lower_bound; lia).
    assert ((Z.of_nat (length buf) + 253) / 254 < 2 ^ 32)
      by (apply Z.div_lt_upper_bound; lia).
    rewrite FSBasics.u32_small by lia. lia. }
  rewrite bool_decide_true by exact Hn.
  cbn [assertion mbind option_bind]. rewrite Hwalk. cbn [mbind option_bind].
  destruct (decide (ref_t r <> 0)) as [? | _]; [contradiction|]. reflexivity.
Qed.

Lemma makeFile_disk_full_witness :
  makeFile FSDirEntry_isEmpty 700 fullDisk [72; 73] [65; 66; 67] = Some (fullDisk, false).
Proof.
  apply (makeFile_disk_full FSDirEntry_isEmpty 700 fullDisk [72; 73] [65; 66; 67]
           (mkEntryPtr 358 0) (mkBlockRef 0 0)).
  - vm_compute. reflexivity.
  - vm_compute. reflexivity.
  - reflexivity.
  - simpl. lia.
Defined.

End FSDirSearch.

Module FSWriteByte.
Import FS FSOps.

(** ** Writing and reading single bytes *)

Lemma readByte_cell dev block offset :
  wfBlocks dev -> 0 <= block < Z.of_nat (length (blocks dev)) -> 0 <= offset < 256 ->
  readByte dev block offset = Some (cell dev (Z.to_nat block) offset).
Proof.
  intros Hwf Hblock Hoff. unfold readByte.
  rewrite !bool_decide_true by lia. cbn [assertion mbind option_bind].
  destruct (lookup_lt_is_Some_2 (blocks dev) (Z.to_nat block)) as [blk Hblk]; [lia|].
  rewrite (FSBam.peek_eq dev _ blk offset Hblk) by (rewrite (Hwf _ _ Hblk); lia).
  rewrite (FSAllocate.cell_lookup dev _ blk offset Hblk). reflexivity.
Qed.

(** X10: [writeByte] at an offset inside a block stores the byte there,
    returns true and moves the offset on by one; [readByte] then returns
    the byte, and no other byte of the device has changed. *)
Theorem writeByte_within_block (dev : FSDevice) (byte t s offset : Z) (p : nat) :
  wfBlocks dev ->
  isTrackSectorPair (layout dev) t s = true ->
  blockPtr_ts dev t s = Some p ->
  2 <= offset < 0x100 ->
  exists dev',
    writeByte dev byte t s offset = Some (dev', true, (t, s, offset + 1))
    /\ sameShape dev dev'
    /\ readByte dev' (Z.of_nat p) offset = Some byte
    /\ (forall q o, 0 <= o ->
          cell dev' q o = if decide (q = p /\ o = offset) then byte else cell dev q o).
Proof.
  intros Hwf Hpair Hptr Hoff.
  pose proof (FSDirectory.blockPtr_ts_valid dev t s p Hptr) as Hp.
  destruct (FSAllocate.poke_cell dev p offset byte Hwf Hp)
    as (dev' & Hpoke & Hsh & Hwf' & _ & Hcell); [lia|].
  exists dev'. unfold writeByte. rewrite Hpair.
  rewrite bool_decide_true by lia. cbn [assertion mbind option_bind].
  destruct (decide (offset = 256)) as [? | _]; [lia|].
  rewrite Hptr. cbn [mbind option_bind]. rewrite Hpoke. cbn [mbind option_bind].
  split; [reflexivity|]. split; [exact Hsh|]. split; [|exact Hcell].
  destruct Hsh as [_ Hsz].
  rewrite readByte_cell by (try assumption; lia).
  rewrite Nat2Z.id, Hcell by lia.
  destruct (decide (p = p /\ offset = offset)) as [_ | Hn]; [reflexivity | tauto].
Qed.

Lemma writeByte_within_block_witness :
  exists dev',
    writeByte formatted 65 1 0 2 = Some (dev', true, (1, 0, 2 + 1))
    /\ sameShape formatted dev'
    /\ readByte dev' (Z.of_nat 0) 2 = Some 65
    /\ (forall q o, 0 <= o ->
          cell dev' q o
          = if decide (q = 0%nat /\ o = 2) then 65 else cell formatted q o).
Proof.
  apply (writeByte_within_block formatted 65 1 0 2 0).
  - exact FSDirectory.formatted_wf.
  - reflexivity.
  - reflexivity.
  - lia.
Defined.

(** X11: [writeByte] returns false in one case only: at the end of a
    block (offset 0x100) when the layout has no next block.  Then neither
    the device nor the position has changed. *)
Theorem writeByte_returns_false (dev : FSDevice) (byte t s offset : Z)
    (dev' : FSDevice) (pos : Z * Z * Z) :
  writeByte dev byte t s offset = Some (dev', false, pos)
  <-> isTrackSectorPair (layout dev) t s = true
      /\ offset = 0x100
      /\ (nextTrackAndSector (layout dev) t s).1 = false
      /\ dev' = dev /\ pos = (t, s, offset).
Proof.
  unfold writeByte. split.
  - destruct (isTrackSectorPair (layout dev) t s); [|discriminate].
    cbn [assertion mbind option_bind].
    destruct (decide (2 <= offset <= 256)) as [Hoff | Hoff].
    2:{ rewrite bool_decide_false by exact Hoff. discriminate. }
    rewrite bool_decide_true by exact Hoff. cbn [assertion mbind option_bind].
    destruct (decide (offset = 256)) as [-> | Hne].
    + destruct (nextTrackAndSector (layout dev) t s) as [ok [t' s']].
      destruct ok.
      * destruct (markAsAllocated dev t' s') as [dev1|]; [|discriminate].
        cbn [mbind option_bind].
        destruct (blockPtr_ts dev t s) as [p|]; [|discriminate].
        cbn [mbind option_bind].
        destruct (poke dev1 p 0 (u8 t')) as [dev2|]; [|discriminate].
        cbn [mbind option_bind].
        destruct (poke dev2 p 1 (u8 s')) as [dev3|]; [|discriminate].
        cbn [mbind option_bind].
        destruct (blockPtr_ts dev3 t' s') as [p'|]; [|discriminate].
        cbn [mbind option_bind].
        destruct (poke dev3 p' 2 byte) as [dev4|]; discriminate.
      * intros [= <- <-]. repeat split; reflexivity.
    + destruct (blockPtr_ts dev t s) as [p|]; [|discriminate].
      cbn [mbind option_bind].
      destruct (poke dev p offset byte) as [dev1|]; discriminate.
  - intros (Hpair & -> & Hnext & -> & ->). rewrite Hpair.
    rewrite bool_decide_true by lia. cbn [assertion mbind option_bind].
    destruct (decide (256 = 256)) as [_ | ?]; [|congruence].
    destruct (nextTrackAndSector (layout dev) t s) as [ok [t' s']].
    cbn [fst] in Hnext. subst ok. reflexivity.
Qed.

(** X12: at the end of a block with a next block (t',s') in the layout,
    [writeByte] marks (t',s') as allocated without testing whether it was
    free, links the old block to it, stores the byte at offset 2 of the
    new block and returns the position (t',s',3).  Every other block of
    the layout keeps its allocation bit, and apart from the BAM block only
    the two link bytes and the byte written have changed. *)
Theorem writeByte_next_block (dev : FSDevice) (d : list Z) (byte t s t' s' : Z)
    (p p' pb : nat) :
  wfBlocks dev ->
  layoutFitsBAM (layout dev) ->
  bamBlock dev d ->
  isTrackSectorPair (layout dev) t s = true ->
  nextTrackAndSector (layout dev) t s = (true, (t', s')) ->
  isTrackSectorPair (layout dev) t' s' = true ->
  bamPtr dev = Some pb ->
  blockPtr_ts dev t s = Some p ->
  blockPtr_ts dev t' s' = Some p' ->
  p <> pb -> p' <> pb ->
  exists dev',
    writeByte dev byte t s 0x100 = Some (dev', true, (t', s', 3))
    /\ (forall t2 s2, isTrackSectorPair (layout dev) t2 s2 = true ->
          isFree dev' t2 s2
          = if decide (t2 = t' /\ s2 = s') then Some false else isFree dev t2 s2)
    /\ (forall q o, 0 <= o -> q <> pb ->
          cell dev' q o
          = if decide (q = p' /\ o = 2) then byte
            else if decide (q = p /\ o = 1) then u8 s'
            else if decide (q = p /\ o = 0) then u8 t'
            else cell dev q o).
Proof.
  intros Hwf Hfit Hbam Hpair Hnext Hpair' Hpb Hptr Hptr' Hppb Hp'pb.
  destruct (Hfit t' s' Hpair') as [Ht' Hs'].
  destruct (FSAllocate.markAsAllocated_frame dev d pb t' s' Hwf Hfit Hbam Hpb Hpair')
    as (dev1 & d1 & Hmark & Hsh1 & Hwf1 & _ & Hpb1 & Hfr1).
  destruct (FSBamLookup.setAllocationBit_result dev d t' s' false Hfit Hbam Hpair')
    as (dev1' & _ & _ & Hmark' & _ & _ & _ & _ & Hbam1).
  assert (dev1' = dev1) by (unfold markAsAllocated in Hmark; congruence).
  subst dev1'. clear Hmark'.
  pose proof Hsh1 as [Hlay1 Hsz1].
  pose proof (FSDirectory.blockPtr_ts_valid dev t s p Hptr) as Hp.
  pose proof (FSDirectory.blockPtr_ts_valid dev t' s' p' Hptr') as Hp'.
  destruct (FSAllocate.poke_cell dev1 p 0 (u8 t') Hwf1)
    as (dev2 & Hpoke2 & Hsh2 & Hwf2 & Hfr2 & Hcell2); [lia | lia |].
  pose proof Hsh2 as [Hlay2 Hsz2].
  destruct (FSAllocate.poke_cell dev2 p 1 (u8 s') Hwf2)
    as (dev3 & Hpoke3 & Hsh3 & Hwf3 & Hfr3 & Hcell3); [lia | lia |].
  pose proof Hsh3 as [Hlay3 Hsz3].
  destruct (FSAllocate.poke_cell dev3 p' 2 byte Hwf3)
    as (dev4 & Hpoke4 & Hsh4 & Hwf4 & Hfr4 & Hcell4); [lia | lia |].
  pose proof Hsh4 as [Hlay4 Hsz4].
  assert (Hptr3 : blockPtr_ts dev3 t' s' = Some p').
  { unfold blockPtr_ts, blockPtr in *.
    rewrite Hlay3, Hlay2, Hlay1, Hsz3, Hsz2, Hsz1. exact Hptr'. }
  exists dev4. split; [|split].
  - unfold writeByte. rewrite Hpair.
    rewrite bool_decide_true by lia. cbn [assertion mbind option_bind].
    destruct (decide (256 = 256)) as [_ | ?]; [|congruence].
    rewrite Hnext, Hmark. cbn [mbind option_bind]. rewrite Hptr.
    cbn [mbind option_bind]. rewrite Hpoke2. cbn [mbind option_bind].
    rewrite Hpoke3. cbn [mbind option_bind]. rewrite Hptr3.
    cbn [mbind option_bind]. rewrite Hpoke4. reflexivity.
  - destruct (FSAllocate.bamBlock_frame dev1 dev4 (bamAfter d t' s' false) pb Hbam1 Hpb1)
      as [Hbam4 _].
    { repeat (eapply FSAllocate.sameShape_trans; [eassumption|]).
      apply FSAllocate.sameShape_refl. }
    { rewrite Hfr4, Hfr3, Hfr2 by congruence. reflexivity. }
    intros t2 s2 Hpair2. destruct (Hfit t2 s2 Hpair2) as [Ht2 Hs2].
    rewrite (FSBamLookup.isFree_bam dev4 _ t2 s2 Hbam4)
      by (rewrite ?Hlay4, ?Hlay3, ?Hlay2, ?Hlay1; assumption).
    rewrite (FSBamLookup.isFree_bam dev d t2 s2 Hbam) by assumption.
    destruct Hbam as (_ & _ & _ & _ & _ & Hlen & Hall).
    rewrite (FSBamLookup.bamAfter_bit d t' s' false t2 s2 Hlen Hall) by assumption.
    destruct (decide _); reflexivity.
  - intros q o Ho Hq.
    rewrite Hcell4 by exact Ho.
    destruct (decide (q = p' /\ o = 2)) as [_ | _]; [reflexivity|].
    rewrite Hcell3 by exact Ho.
    destruct (decide (q = p /\ o = 1)) as [_ | _]; [reflexivity|].
    rewrite Hcell2 by exact Ho.
    destruct (decide (q = p /\ o = 0)) as [_ | _]; [reflexivity|].
    apply FSAllocate.cell_same_block, Hfr1. exact Hq.
Qed.

Lemma writeByte_next_block_witness :
  exists dev',
    writeByte oneFreeBlock 65 1 0 0x100 = Some (dev', true, (1, 10, 3))
    /\ (forall t2 s2, isTrackSectorPair (layout oneFreeBlock) t2 s2 = true ->
          isFree dev' t2 s2
          = if decide (t2 = 1 /\ s2 = 10) then Some false else isFree oneFreeBlock t2 s2)
    /\ (forall q o, 0 <= o -> q <> 357%nat ->
          cell dev' q o
          = if decide (q = 10%nat /\ o = 2) then 65
            else if decide (q = 0%nat /\ o = 1) then u8 10
            else if decide (q = 0%nat /\ o = 0) then u8 1
            else cell oneFreeBlock q o).
Proof.
  apply (writeByte_next_block oneFreeBlock ([18; 1; 0; 0; 1; 1] ++ replicate 250 0)
           65 1 0 1 10 0 10 357).
  - intros q blk Hblk.
    assert (Hall : Forall (fun b => length (data b) = 256%nat) (blocks oneFreeBlock)).
    { apply (bool_decide_unpack
               (Forall (fun b => length (data b) = 256%nat) (blocks oneFreeBlock))).
      vm_compute. exact I. }
    rewrite Forall_lookup in Hall. exact (Hall q blk Hblk).
  - exact FSBam.DISK_SS_SD_fits.
  - exists 357%nat, (mkFSBlock 357 ([18; 1; 0; 0; 1; 1] ++ replicate 250 0) 0).
    split; [reflexivity|]. split; [reflexivity|]. split; [reflexivity|].
    split; [reflexivity|].
    apply (bool_decide_unpack
             (Forall (fun x => 0 <= x < 256) ([18; 1; 0; 0; 1; 1] ++ replicate 250 0))).
    vm_compute. exact I.
  - reflexivity.
  - vm_compute. reflexivity.
  - reflexivity.
  - reflexivity.
  - reflexivity.
  - reflexivity.
  - lia.
  - lia.
Defined.

End FSWriteByte.

Module FSCapacity.
Import FS FSOps.

(** ** Linking the directory blocks *)

Lemma dirRefs_head l k t s : dirRefs l k t s !! 0%nat = Some (mkBlockRef t s).
Proof.
  destruct k; cbn [dirRefs]; [reflexivity|].
  destruct (nextTrackAndSector l t s) as [ok [t' s']]. reflexivity.
Qed.

Lemma setCapacity_loop_spec l :
  forall (k m : nat) (dev : FSDevice) (t s : Z),
  layout dev = l -> wfBlocks dev -> (m <= k)%nat ->
  (forall j rj, (j < m)%nat -> dirRefs l k t s !! j = Some rj ->
     (nextTrackAndSector l (ref_t rj) (ref_s rj)).1 = true
     /\ blockOf l rj < Z.of_nat (length (blocks dev))) ->
  NoDup (ptrOf l <$> take m (dirRefs l k t s)) ->
  ((m < k)%nat -> forall rm, dirRefs l k t s !! m = Some rm ->
     (nextTrackAndSector l (ref_t rm) (ref_s rm)).1 = false) ->
  exists dev',
    setCapacity_loop k dev t s (blockPtr_ts dev t s) = Some (dev', bool_decide (m = k))
    /\ sameShape dev dev' /\ wfBlocks dev'
    /\ (forall j rj rj', (j < m)%nat ->
          dirRefs l k t s !! j = Some rj -> dirRefs l k t s !! S j = Some rj' ->
          cell dev' (ptrOf l rj) 0 = u8 (ref_t rj')
          /\ cell dev' (ptrOf l rj) 1 = u8 (ref_s rj'))
    /\ (forall q o, 0 <= o ->
          q ∉ (ptrOf l <$> take m (dirRefs l k t s)) \/ 2 <= o ->
          cell dev' q o = cell dev q o).
Proof.
  induction k as [|k IH]; intros m dev t s Hlay Hwf Hm Hsteps Hnodup Hfail.
  - assert (m = 0%nat) by lia. subst m. exists dev. cbn [setCapacity_loop].
    split; [reflexivity|]. split; [apply FSAllocate.sameShape_refl|].
    split; [exact Hwf|]. split; [intros; lia | intros; reflexivity].
  - cbn [setCapacity_loop dirRefs] in *. rewrite Hlay.
    destruct (nextTrackAndSector l t s) as [ok [t' s']] eqn:Hnext.
    destruct m as [|m].
    + (* the first step fails *)
      specialize (Hfail ltac:(lia) (mkBlockRef t s) eq_refl).
      cbn [ref_t ref_s] in Hfail. rewrite Hnext in Hfail. cbn [fst] in Hfail. subst ok.
      exists dev. rewrite bool_decide_false by lia.
      split; [reflexivity|]. split; [apply FSAllocate.sameShape_refl|].
      split; [exact Hwf|]. split; [intros; lia | intros; reflexivity].
    + destruct (Hsteps 0%nat (mkBlockRef t s) ltac:(lia) eq_refl) as [Hok Hblk].
      cbn [ref_t ref_s] in Hok. rewrite Hnext in Hok. cbn [fst] in Hok. subst ok.
      assert (Hblk' : blockOf (layout dev) (mkBlockRef t s)
                      < Z.of_nat (length (blocks dev))) by (rewrite Hlay; exact Hblk).
      destruct (FSAllocate.blockPtr_ref_ptrOf dev (mkBlockRef t s) Hblk')
        as (_ & Hptr & Hp).
      cbn [ref_t ref_s] in Hptr. rewrite Hlay in Hptr, Hp. rewrite Hptr.
      set (p := ptrOf l (mkBlockRef t s)) in *.
      cbn [mbind option_bind].
      destruct (FSAllocate.poke_cell dev p 0 (u8 t') Hwf Hp)
        as (dev1 & Hpoke1 & Hsh1 & Hwf1 & _ & Hcell1); [lia|].
      rewrite Hpoke1. cbn [mbind option_bind].
      pose proof Hsh1 as [Hlay1 Hsz1].
      destruct (FSAllocate.poke_cell dev1 p 1 (u8 s') Hwf1)
        as (dev2 & Hpoke2 & Hsh2 & Hwf2 & _ & Hcell2); [lia | lia |].
      rewrite Hpoke2. cbn [mbind option_bind].
      pose proof Hsh2 as [Hlay2 Hsz2].
      cbn [take fmap list_fmap] in Hnodup. apply NoDup_cons in Hnodup as [Hfresh Hnodup].
      destruct (IH m dev2 t' s') as (dev' & Hloop & Hsh' & Hwf' & Hlinks & Hframe).
      { congruence. }
      { exact Hwf2. }
      { lia. }
      { intros j rj Hj Hrj. rewrite Hsz2, Hsz1.
        apply (Hsteps (S j) rj); [lia | exact Hrj]. }
      { exact Hnodup. }
      { intros Hlt rm Hrm. apply (Hfail ltac:(lia) rm). exact Hrm. }
      exists dev'. split.
      { rewrite Hloop. f_equal. f_equal.
        destruct (decide (m = k)) as [-> | Hne].
        - rewrite !bool_decide_true by reflexivity. reflexivity.
        - rewrite !bool_decide_false by lia. reflexivity. }
      split; [repeat (eapply FSAllocate.sameShape_trans; [eassumption|]);
              apply FSAllocate.sameShape_refl|].
      split; [exact Hwf'|]. split.
      * intros j rj rj' Hj Hrj Hrj'. destruct j as [|j].
        -- injection Hrj as <-. fold p. cbn [lookup list_lookup] in Hrj'.
           rewrite dirRefs_head in Hrj'. injection Hrj' as <-. cbn [ref_t ref_s].
           rewrite !Hframe by (try lia; left; exact Hfresh).
           rewrite !Hcell2, !Hcell1 by lia.
           repeat (destruct (decide _) as [? | ?]); try reflexivity;
             try (exfalso; intuition (congruence || lia)).
           split; reflexivity.
        -- apply (Hlinks j rj rj'); [lia | exact Hrj | exact Hrj'].
      * intros q o Ho Hcond.
        rewrite Hframe; [|exact Ho|].
        2:{ destruct Hcond as [Hnin | ?]; [left | right; assumption].
            intros Hin. apply Hnin. cbn [take fmap list_fmap]. right. exact Hin. }
        rewrite Hcell2 by exact Ho.
        destruct (decide (q = p /\ o = 1)) as [[-> ->] | _].
        { destruct Hcond as [Hnin | ?]; [|lia].
          exfalso. apply Hnin. cbn [take fmap list_fmap]. left. }
        rewrite Hcell1 by exact Ho.
        destruct (decide (q = p /\ o = 0)) as [[-> ->] | _]; [|reflexivity].
        destruct Hcond as [Hnin | ?]; [|lia].
        exfalso. apply Hnin. cbn [take fmap list_fmap]. left.
Qed.

(** X13: [setCapacity(n)] links the directory blocks that [n] files need:
    with [k] = (n + 7) / 8 - 1 links to write, it follows the
    [nextTrackAndSector] order from (18,1) and stores in each block the
    track and sector of the next one.  If the first [m] steps succeed on
    different blocks of the device and, for [m < k], the step after them
    fails, the call returns [m = k], the first [m] links are in place, and
    nothing else has changed: no link is written into the last block
    reached, and no allocation bit is touched. *)
Theorem setCapacity_links (dev : FSDevice) (n : Z) (k m : nat) :
  wfBlocks dev ->
  0 <= n <= 144 ->
  k = Z.to_nat ((n + 7) / 8 - 1) ->
  (m <= k)%nat ->
  (forall j rj, (j < m)%nat -> dirRefs (layout dev) k 18 1 !! j = Some rj ->
     (nextTrackAndSector (layout dev) (ref_t rj) (ref_s rj)).1 = true
     /\ blockOf (layout dev) rj < Z.of_nat (length (blocks dev))) ->
  NoDup (ptrOf (layout dev) <$> take m (dirRefs (layout dev) k 18 1)) ->
  ((m < k)%nat -> forall rm, dirRefs (layout dev) k 18 1 !! m = Some rm ->
     (nextTrackAndSector (layout dev) (ref_t rm) (ref_s rm)).1 = false) ->
  exists dev',
    setCapacity dev n = Some (dev', bool_decide (m = k))
    /\ (forall j rj rj', (j < m)%nat ->
          dirRefs (layout dev) k 18 1 !! j = Some rj ->
          dirRefs (layout dev) k 18 1 !! S j = Some rj' ->
          cell dev' (ptrOf (layout dev) rj) 0 = u8 (ref_t rj')
          /\ cell dev' (ptrOf (layout dev) rj) 1 = u8 (ref_s rj'))
    /\ (forall q o, 0 <= o ->
          q ∉ (ptrOf (layout dev) <$> take m (dirRefs (layout dev) k 18 1)) \/ 2 <= o ->
          cell dev' q o = cell dev q o).
Proof.
  intros Hwf Hn Hk Hm Hsteps Hnodup Hfail.
  destruct (setCapacity_loop_spec (layout dev) k m dev 18 1 eq_refl Hwf Hm Hsteps
              Hnodup Hfail) as (dev' & Hloop & _ & _ & Hlinks & Hframe).
  exists dev'. split; [|split; assumption].
  unfold setCapacity. rewrite bool_decide_true by lia.
  cbn [assertion mbind option_bind].
  rewrite FSBasics.u32_small by lia. rewrite <- Hk. exact Hloop.
Qed.

Lemma setCapacity_links_witness :
  exists dev',
    setCapacity formatted 20 = Some (dev', bool_decide (2%nat = 2%nat))
    /\ (forall j rj rj', (j < 2)%nat ->
          dirRefs (layout formatted) 2 18 1 !! j = Some rj ->
          dirRefs (layout formatted) 2 18 1 !! S j = Some rj' ->
          cell dev' (ptrOf (layout formatted) rj) 0 = u8 (ref_t rj')
          /\ cell dev' (ptrOf (layout formatted) rj) 1 = u8 (ref_s rj'))
    /\ (forall q o, 0 <= o ->
          q ∉ (ptrOf (layout formatted) <$> take 2 (dirRefs (layout formatted) 2 18 1))
          \/ 2 <= o ->
          cell dev' q o = cell formatted q o).
Proof.
  apply (setCapacity_links formatted 20 2 2).
  - exact FSDirectory.formatted_wf.
  - lia.
  - reflexivity.
  - lia.
  - intros j rj Hj Hrj.
    do 2 (destruct j as [|j];
          [injection Hrj as <-; vm_compute; split; reflexivity|]).
    lia.
  - apply (bool_decide_unpack
             (NoDup (ptrOf (layout formatted)
                       <$> take 2 (dirRefs (layout formatted) 2 18 1)))).
    vm_compute. exact I.
  - lia.
Defined.

End FSCapacity.

Module FSCheck.
Import FS FSOps.

(** ** Numbering the corrupted blocks *)

Section CheckLoop.

Variable blockCheck : FSBlock -> bool -> Z.
Variable strict : bool.

Let faulty (b : FSBlock) : bool := bool_decide (blockCheck b strict > 0).

Lemma check_loop_spec (bs : list FSBlock) :
  forall (i total min max : Z),
  0 <= total -> total + Z.of_nat (length bs) < 2 ^ 32 ->
  exists bs' total' min' max',
    check_loop blockCheck strict bs i total min max = (bs', (total', min', max'))
    /\ length bs' = length bs
    /\ total' = total + Z.of_nat (length (List.filter faulty bs))
    /\ (forall j b, bs !! j = Some b ->
          bs' !! j
          = Some (set_corrupted b
                    (if faulty b
                     then total + Z.of_nat (length (List.filter faulty (take (S j) bs)))
                     else 0)))
    /\ (forall j b, bs !! j = Some b -> faulty b = true ->
          min' <= i + Z.of_nat j <= max')
    /\ (min' = min
        \/ exists j b, bs !! j = Some b /\ faulty b = true /\ min' = i + Z.of_nat j)
    /\ (max' = max
        \/ exists j b, bs !! j = Some b /\ faulty b = true /\ max' = i + Z.of_nat j)
    /\ min' <= min /\ max <= max'.
Proof.
  induction bs as [|b bs IH]; intros i total min max Htot Hroom.
  - exists [], total, min, max. cbn [check_loop List.filter length].
    split; [reflexivity|]. split; [reflexivity|]. split; [lia|].
    split; [intros j b Hj; discriminate|].
    split; [intros j b Hj; discriminate|].
    split; [left; reflexivity|]. split; [left; reflexivity|]. lia.
  - cbn [check_loop]. cbn [length] in Hroom.
    destruct (decide (blockCheck b strict > 0)) as [Hbad | Hgood].
    + destruct (IH (i + 1) (total + 1) (Z.min min i) (Z.max max i))
        as (bs' & total' & min' & max' & Hrun & Hlen & Htotal & Hblocks & Hrange
            & Hmin & Hmax & Hmin' & Hmax'); [lia | lia |].
      rewrite Hrun.
      assert (Hf : faulty b = true) by (unfold faulty; apply bool_decide_true; exact Hbad).
      exists (set_corrupted b (u32 (total + 1)) :: bs'), total', min', max'.
      split; [reflexivity|]. split; [simpl; lia|].
      cbn [List.filter]. rewrite Hf. cbn [length].
      split; [lia|]. split; [|split; [|split; [|split; [|split]]]].
      * intros j b' Hj. destruct j as [|j].
        -- injection Hj as <-. cbn [lookup list_lookup take List.filter].
           rewrite Hf. cbn [length List.filter]. rewrite take_0. cbn [List.filter length].
           rewrite FSBasics.u32_small by lia. do 2 f_equal; lia.
        -- change ((b :: bs) !! S j) with (bs !! j) in Hj.
           match goal with
           | |- (?x :: bs') !! S j = _ => change ((x :: bs') !! S j) with (bs' !! j)
           end.
           rewrite (Hblocks j b' Hj).
           do 2 f_equal. destruct (faulty b'); [|reflexivity].
           change (take (S (S j)) (b :: bs)) with (b :: take (S j) bs).
           cbn [List.filter]. rewrite Hf. cbn [length]. lia.
      * intros j b' Hj Hfb. destruct j as [|j].
        -- lia.
        -- change ((b :: bs) !! S j) with (bs !! j) in Hj.
           specialize (Hrange j b' Hj Hfb). lia.
      * destruct Hmin as [-> | (j & b' & Hj & Hfb & ->)].
        -- destruct (Z.min_spec min i) as [[_ ->] | [_ ->]]; [left; reflexivity|].
           right. exists 0%nat, b. repeat split; [exact Hf | lia].
        -- right. exists (S j), b'. repeat split; [exact Hj | exact Hfb | lia].
      * destruct Hmax as [-> | (j & b' & Hj & Hfb & ->)].
        -- destruct (Z.max_spec max i) as [[_ ->] | [_ ->]]; [|left; reflexivity].
           right. exists 0%nat, b. repeat split; [exact Hf | lia].
        -- right. exists (S j), b'. repeat split; [exact Hj | exact Hfb | lia].
      * lia.
      * lia.
    + destruct (IH (i + 1) total min max)
        as (bs' & total' & min' & max' & Hrun & Hlen & Htotal & Hblocks & Hrange
            & Hmin & Hmax & Hmin' & Hmax'); [lia | lia |].
      rewrite Hrun.
      assert (Hf : faulty b = false) by (unfold faulty; apply bool_decide_false; exact Hgood).
      exists (set_corrupted b 0 :: bs'), total', min', max'.
      split; [reflexivity|]. split; [simpl; lia|].
      cbn [List.filter]. rewrite Hf.
      split; [exact Htotal|]. split; [|split; [|split; [|split; [|split]]]].
      * intros j b' Hj. destruct j as [|j].
        -- injection Hj as <-. cbn [lookup list_lookup]. rewrite Hf. reflexivity.
        -- change ((b :: bs) !! S j) with (bs !! j) in Hj.
           match goal with
           | |- (?x :: bs') !! S j = _ => change ((x :: bs') !! S j) with (bs' !! j)
           end.
           rewrite (Hblocks j b' Hj).
           do 2 f_equal. destruct (faulty b'); [|reflexivity].
           change (take (S (S j)) (b :: bs)) with (b :: take (S j) bs).
           cbn [List.filter]. rewrite Hf. reflexivity.
      * intros j b' Hj Hfb. destruct j as [|j].
        -- injection Hj as <-. congruence.
        -- change ((b :: bs) !! S j) with (bs !! j) in Hj.
           specialize (Hrange j b' Hj Hfb). lia.
      * destruct Hmin as [-> | (j & b' & Hj & Hfb & ->)]; [left; reflexivity|].
        right. exists (S j), b'. repeat split; [exact Hj | exact Hfb | lia].
      * destruct Hmax as [-> | (j & b' & Hj & Hfb & ->)]; [left; reflexivity|].
        right. exists (S j), b'. repeat split; [exact Hj | exact Hfb | lia].
      * exact Hmin'.
      * exact Hmax'.
Qed.

End CheckLoop.

(** X14: [check] numbers the blocks with errors from 1 on in block order
    and gives every other block the number 0; [getCorrupted] returns that
    number afterwards.  The report holds the number of blocks with errors
    and the first and the last of them; without any it holds 0, LONG_MAX
    and 0.  The data of the blocks is not touched. *)
Theorem check_numbers_blocks (blockCheck : FSBlock -> bool -> Z) (dev : FSDevice)
    (strict : bool) :
  Z.of_nat (length (blocks dev)) < 2 ^ 32 ->
  let faulty := fun b => bool_decide (blockCheck b strict > 0) in
  let dev' := (check blockCheck dev strict).1 in
  let report := (check blockCheck dev strict).2 in
  layout dev' = layout dev
  /\ (forall i b, blocks dev !! i = Some b ->
        data (blocks dev' !!! i) = data b
        /\ getCorrupted dev' (Z.of_nat i)
           = if faulty b
             then Z.of_nat (length (List.filter faulty (take (S i) (blocks dev))))
             else 0)
  /\ corruptedBlocks report = Z.of_nat (length (List.filter faulty (blocks dev)))
  /\ (forall i b, blocks dev !! i = Some b -> faulty b = true ->
        firstErrorBlock report <= Z.of_nat i <= lastErrorBlock report)
  /\ (corruptedBlocks report = 0
      /\ firstErrorBlock report = Emu.LONG_MAX /\ lastErrorBlock report = 0
      \/ exists i j bi bj,
           blocks dev !! i = Some bi /\ faulty bi = true
           /\ blocks dev !! j = Some bj /\ faulty bj = true
           /\ firstErrorBlock report = Z.of_nat i
           /\ lastErrorBlock report = Z.of_nat j).
Proof.
  intros Hsize. cbn zeta.
  destruct (check_loop_spec blockCheck strict (blocks dev) 0 0 Emu.LONG_MAX 0)
    as (bs' & total' & min' & max' & Hrun & Hlen & Htotal & Hblocks & Hrange
        & Hmin & Hmax & Hmin' & Hmax'); [lia | lia |].
  unfold check. rewrite Hrun. cbn [fst snd set_blocks layout blocks
    corruptedBlocks firstErrorBlock lastErrorBlock].
  set (faulty := fun b => bool_decide (blockCheck b strict > 0)) in *.
  split; [reflexivity|]. split; [|split; [|split]].
  - intros i b Hi. specialize (Hblocks i b Hi).
    rewrite (list_lookup_total_correct _ _ _ Hblocks). split; [reflexivity|].
    unfold getCorrupted, blockPtr, set_blocks. cbn [blocks]. rewrite Hlen.
    apply lookup_lt_Some in Hi as Hlt.
    destruct (decide _) as [_ | ?]; [|lia].
    rewrite Nat2Z.id, (list_lookup_total_correct _ _ _ Hblocks).
    cbn [set_corrupted corrupted]. rewrite Z.add_0_l. reflexivity.
  - lia.
  - intros i b Hi Hf. specialize (Hrange i b Hi Hf). lia.
  - destruct (List.filter faulty (blocks dev)) as [|b0 rest] eqn:Hfil.
    + left. cbn [length] in Htotal.
      assert (Hnone : forall j b, blocks dev !! j = Some b -> faulty b = false).
      { intros j b Hj. destruct (faulty b) eqn:Hf; [|reflexivity].
        assert (Hin : In b (List.filter faulty (blocks dev))).
        { apply filter_In. split; [|exact Hf].
          apply list_elem_of_In. eapply list_elem_of_lookup_2, Hj. }
        rewrite Hfil in Hin. destruct Hin. }
      split; [lia|]. split.
      * destruct Hmin as [-> | (j & b & Hj & Hf & _)]; [reflexivity|].
        specialize (Hnone j b Hj). unfold faulty in Hnone. congruence.
      * destruct Hmax as [-> | (j & b & Hj & Hf & _)]; [reflexivity|].
        specialize (Hnone j b Hj). unfold faulty in Hnone. congruence.
    + right.
      assert (Hin : In b0 (List.filter faulty (blocks dev))) by (rewrite Hfil; left; reflexivity).
      apply filter_In in Hin as [Hin Hf0].
      apply list_elem_of_In, list_elem_of_lookup_1 in Hin as [j0 Hj0].
      specialize (Hrange j0 b0 Hj0 Hf0).
      apply lookup_lt_Some in Hj0 as Hlt0.
      destruct Hmin as [Hm | (i & bi & Hi & Hfi & Hm)].
      { unfold Emu.LONG_MAX in Hm. lia. }
      destruct Hmax as [Hm' | (j & bj & Hj & Hfj & Hm')].
      * (* the last block with errors is block 0 *)
        assert (j0 = 0%nat) by lia. subst j0.
        exists i, 0%nat, bi, b0. repeat split; try assumption; lia.
      * exists i, j, bi, bj. repeat split; try assumption; lia.
Qed.

Lemma check_numbers_blocks_witness :
  let blockCheck := fun (b : FSBlock) (_ : bool) => if decide (nr b = 3 \/ nr b = 7) then 1 else 0 in
  let faulty := fun b => bool_decide (blockCheck b true > 0) in
  let dev' := (check blockCheck formatted true).1 in
  let report := (check blockCheck formatted true).2 in
  layout dev' = layout formatted
  /\ (forall i b, blocks formatted !! i = Some b ->
        data (blocks dev' !!! i) = data b
        /\ getCorrupted dev' (Z.of_nat i)
           = if faulty b
             then Z.of_nat (length (List.filter faulty (take (S i) (blocks formatted))))
             else 0)
  /\ corruptedBlocks report = Z.of_nat (length (List.filter faulty (blocks formatted)))
  /\ (forall i b, blocks formatted !! i = Some b -> faulty b = true ->
        firstErrorBlock report <= Z.of_nat i <= lastErrorBlock report)
  /\ (corruptedBlocks report = 0
      /\ firstErrorBlock report = Emu.LONG_MAX /\ lastErrorBlock report = 0
      \/ exists i j bi bj,
           blocks formatted !! i = Some bi /\ faulty bi = true
           /\ blocks formatted !! j = Some bj /\ faulty bj = true
           /\ firstErrorBlock report = Z.of_nat i
           /\ lastErrorBlock report = Z.of_nat j).
Proof.
  apply (check_numbers_blocks
           (fun (b : FSBlock) (_ : bool) => if decide (nr b = 3 \/ nr b = 7) then 1 else 0)
           formatted true).
  vm_compute. reflexivity.
Defined.

End FSCheck.

Module FSCorrupted.
Import FS FSOps.

(** ** Searching the corrupted blocks *)

Lemma countIn_cons (P : Z -> bool) (from len : Z) :
  0 < len ->
  countIn P from len = (if P from then 1 else 0) + countIn P (from + 1) (len - 1).
Proof.
  intros Hlen. unfold countIn.
  rewrite (seqZ_cons from len) by lia. cbn [List.filter].
  replace (Z.succ from) with (from + 1) by lia.
  replace (Z.pred len) with (len - 1) by lia.
  destruct (P from); cbn [length]; lia.
Qed.

Lemma countIn_nonneg (P : Z -> bool) (from len : Z) : 0 <= countIn P from len <= Z.max 0 len.
Proof.
  unfold countIn. split; [lia|].
  pose proof (filter_length P (seqZ from len)) as H.
  rewrite length_seqZ in H. lia.
Qed.

Section Search.

Variable isCorrupted : FSDevice -> Z -> bool.
Variable dev : FSDevice.

Lemma isCorrupted_loop_spec (blockNr n : Z) (k : nat) :
  forall (i cnt : Z),
  0 <= cnt -> cnt + Z.of_nat k < 2 ^ 32 ->
  isCorrupted_loop isCorrupted dev blockNr n k i cnt = true
  <-> i <= blockNr < i + Z.of_nat k /\ isCorrupted dev blockNr = true
      /\ n = cnt + countIn (isCorrupted dev) i (blockNr - i + 1).
Proof.
  induction k as [|k IH]; intros i cnt Hcnt Hroom.
  - cbn [isCorrupted_loop]. split; [discriminate | lia].
  - cbn [isCorrupted_loop].
    destruct (isCorrupted dev i) eqn:Hi.
    + rewrite FSBasics.u32_small by lia.
      destruct (decide (blockNr = i)) as [-> | Hne].
      * rewrite bool_decide_eq_true.
        replace (i - i + 1) with 1 by lia.
        assert (H1 : countIn (isCorrupted dev) i 1 = 1).
        { rewrite countIn_cons by lia. rewrite Hi. replace (1 - 1) with 0 by lia.
          unfold countIn. rewrite seqZ_nil by lia. reflexivity. }
        rewrite H1.
        split; [intros <-; split; [lia|]; split; [exact Hi | reflexivity] | lia].
      * rewrite (IH (i + 1) (cnt + 1)) by lia.
        split.
        -- intros (Hr & Hb & ->). split; [lia|]. split; [exact Hb|].
           rewrite (countIn_cons _ i (blockNr - i + 1)) by lia. rewrite Hi.
           replace (blockNr - i + 1 - 1) with (blockNr - (i + 1) + 1) by lia. lia.
        -- intros (Hr & Hb & ->). split; [lia|]. split; [exact Hb|].
           rewrite (countIn_cons _ i (blockNr - i + 1)) by lia. rewrite Hi.
           replace (blockNr - i + 1 - 1) with (blockNr - (i + 1) + 1) by lia. lia.
    + rewrite (IH (i + 1) cnt) by lia.
      split.
      * intros (Hr & Hb & ->). split; [lia|]. split; [exact Hb|].
        rewrite (countIn_cons _ i (blockNr - i + 1)) by lia. rewrite Hi.
        replace (blockNr - i + 1 - 1) with (blockNr - (i + 1) + 1) by lia. lia.
      * intros (Hr & Hb & ->).
        assert (blockNr <> i) by (intros ->; congruence).
        split; [lia|]. split; [exact Hb|].
        rewrite (countIn_cons _ i (blockNr - i + 1)) by lia. rewrite Hi.
        replace (blockNr - i + 1 - 1) with (blockNr - (i + 1) + 1) by lia. lia.
Qed.

Lemma nextCorrupted_loop_spec (blockNr : Z) (k : nat) :
  forall (i : Z),
  let r := nextCorrupted_loop isCorrupted dev blockNr k i in
  (r = blockNr /\ forall j, i <= j < i + Z.of_nat k -> isCorrupted dev j = false)
  \/ (i <= r < i + Z.of_nat k /\ isCorrupted dev r = true
      /\ forall j, i <= j < r -> isCorrupted dev j = false).
Proof.
  induction k as [|k IH]; intros i; cbn zeta.
  - left. split; [reflexivity | intros j Hj; lia].
  - cbn [nextCorrupted_loop]. destruct (isCorrupted dev i) eqn:Hi.
    + right. split; [lia|]. split; [exact Hi | intros j Hj; lia].
    + destruct (IH (i + 1)) as [[Hr Hnone] | (Hr & Hc & Hnone)].
      * left. split; [exact Hr|]. intros j Hj.
        destruct (decide (j = i)) as [-> | ?]; [exact Hi | apply Hnone; lia].
      * right. split; [lia|]. split; [exact Hc|]. intros j Hj.
        destruct (decide (j = i)) as [-> | ?]; [exact Hi | apply Hnone; lia].
Qed.

Lemma prevCorrupted_loop_spec (blockNr : Z) (k : nat) :
  forall (i : Z),
  i + 1 = Z.of_nat k ->
  let r := prevCorrupted_loop isCorrupted dev blockNr k i in
  (r = blockNr /\ forall j, 0 <= j <= i -> isCorrupted dev j = false)
  \/ (0 <= r <= i /\ isCorrupted dev r = true
      /\ forall j, r < j <= i -> isCorrupted dev j = false).
Proof.
  induction k as [|k IH]; intros i Hi; cbn zeta.
  - left. split; [reflexivity | intros j Hj; lia].
  - cbn [prevCorrupted_loop]. destruct (isCorrupted dev i) eqn:Hc.
    + right. split; [lia|]. split; [exact Hc | intros j Hj; lia].
    + destruct (IH (i - 1)) as [[Hr Hnone] | (Hr & Hc' & Hnone)]; [lia | |].
      * left. split; [exact Hr|]. intros j Hj.
        destruct (decide (j = i)) as [-> | ?]; [exact Hc | apply Hnone; lia].
      * right. split; [lia|]. split; [exact Hc'|]. intros j Hj.
        destruct (decide (j = i)) as [-> | ?]; [exact Hc | apply Hnone; lia].
Qed.

End Search.

(** X15: [isCorrupted(blockNr, n)] holds exactly if [blockNr] is a block
    of the device, the block is corrupted and it is the [n]-th corrupted
    block, counted from 1 in block order. *)
Theorem isCorrupted_nth_counts (isCorrupted : FSDevice -> Z -> bool)
    (dev : FSDevice) (blockNr n : Z) :
  Z.of_nat (length (blocks dev)) < 2 ^ 32 ->
  0 <= blockNr ->
  isCorrupted_nth isCorrupted dev blockNr n = true
  <-> blockNr < Z.of_nat (length (blocks dev))
      /\ isCorrupted dev blockNr = true
      /\ n = countIn (isCorrupted dev) 0 (blockNr + 1).
Proof.
  intros Hsize Hb. unfold isCorrupted_nth.
  rewrite isCorrupted_loop_spec by lia.
  replace (blockNr - 0 + 1) with (blockNr + 1) by lia.
  split; intros (H1 & H2 & H3); repeat split; try assumption; lia.
Qed.

Lemma isCorrupted_nth_counts_witness :
  isCorrupted_nth (fun dev i => bool_decide (i mod 5 = 3)) formatted 13 3 = true
  <-> 13 < Z.of_nat (length (blocks formatted))
      /\ (fun dev i => bool_decide (i mod 5 = 3)) formatted 13 = true
      /\ 3 = countIn ((fun dev i => bool_decide (i mod 5 = 3)) formatted) 0 (13 + 1).
Proof.
  apply (isCorrupted_nth_counts (fun dev i => bool_decide (i mod 5 = 3)) formatted 13 3).
  - vm_compute. reflexivity.
  - lia.
Defined.

(** X16: [nextCorrupted(blockNr)] returns the first corrupted block behind
    [blockNr], and [blockNr] itself when no block behind it is corrupted.
    The search starts at [blockNr + 1] taken as a u32: from the largest
    u32 it starts over at block 0. *)
Theorem nextCorrupted_finds_next (isCorrupted : FSDevice -> Z -> bool)
    (dev : FSDevice) (blockNr : Z) :
  Z.of_nat (length (blocks dev)) < 2 ^ 32 ->
  0 <= blockNr < 2 ^ 32 ->
  let start := if decide (blockNr = 2 ^ 32 - 1) then 0 else blockNr + 1 in
  let r := nextCorrupted isCorrupted dev blockNr in
  (r = blockNr
   /\ forall j, start <= j < Z.of_nat (length (blocks dev)) -> isCorrupted dev j = false)
  \/ (start <= r < Z.of_nat (length (blocks dev))
      /\ isCorrupted dev r = true
      /\ forall j, start <= j < r -> isCorrupted dev j = false).
Proof.
  intros Hsize Hb. cbn zeta. unfold nextCorrupted.
  assert (Hstart : u32 (blockNr + 1)
                   = if decide (blockNr = 2 ^ 32 - 1) then 0 else blockNr + 1).
  { destruct (decide (blockNr = 2 ^ 32 - 1)) as [-> | Hne]; [reflexivity|].
    apply FSBasics.u32_small. lia. }
  rewrite Hstart.
  set (start := if decide (blockNr = 2 ^ 32 - 1) then 0 else blockNr + 1).
  assert (0 <= start) by (unfold start; destruct (decide _); lia).
  pose proof (nextCorrupted_loop_spec isCorrupted dev blockNr
                (Z.to_nat (Z.of_nat (length (blocks dev)) - start)) start) as Hloop.
  cbn zeta in Hloop.
  destruct (decide (start <= Z.of_nat (length (blocks dev)))) as [Hle | Hgt].
  - rewrite Z2Nat.id in Hloop by lia.
    replace (start + (Z.of_nat (length (blocks dev)) - start))
      with (Z.of_nat (length (blocks dev))) in Hloop by lia.
    exact Hloop.
  - replace (Z.to_nat (Z.of_nat (length (blocks dev)) - start)) with 0%nat in * by lia.
    left. split; [reflexivity | intros j Hj; lia].
Qed.

Lemma nextCorrupted_finds_next_witness :
  let start := if decide (4 = 2 ^ 32 - 1) then 0 else 4 + 1 in
  let r := nextCorrupted (fun dev i => bool_decide (i mod 5 = 3)) formatted 4 in
  (r = 4
   /\ forall j, start <= j < Z.of_nat (length (blocks formatted))
                -> (fun (dev : FSDevice) i => bool_decide (i mod 5 = 3)) formatted j = false)
  \/ (start <= r < Z.of_nat (length (blocks formatted))
      /\ (fun (dev : FSDevice) i => bool_decide (i mod 5 = 3)) formatted r = true
      /\ forall j, start <= j < r
                   -> (fun (dev : FSDevice) i => bool_decide (i mod 5 = 3)) formatted j = false).
Proof.
  apply (nextCorrupted_finds_next (fun dev i => bool_decide (i mod 5 = 3)) formatted 4).
  - vm_compute. reflexivity.
  - lia.
Defined.

(** X17: [prevCorrupted(blockNr)] returns the last corrupted block before
    [blockNr] when [blockNr] is at most the number of blocks, and
    [blockNr] itself when no block before it is corrupted.  For block 0
    and for a number beyond the number of blocks the search does not
    start: the result is [blockNr], whatever blocks are corrupted. *)
Theorem prevCorrupted_finds_previous (isCorrupted : FSDevice -> Z -> bool)
    (dev : FSDevice) (blockNr : Z) :
  Z.of_nat (length (blocks dev)) < 2 ^ 32 ->
  0 <= blockNr < 2 ^ 32 ->
  let r := prevCorrupted isCorrupted dev blockNr in
  if decide (1 <= blockNr <= Z.of_nat (length (blocks dev))) then
    (r = blockNr /\ forall j, 0 <= j < blockNr -> isCorrupted dev j = false)
    \/ (0 <= r < blockNr /\ isCorrupted dev r = true
        /\ forall j, r < j < blockNr -> isCorrupted dev j = false)
  else r = blockNr.
Proof.
  intros Hsize Hb. cbn zeta. unfold prevCorrupted.
  destruct (decide (1 <= blockNr <= Z.of_nat (length (blocks dev)))) as [Hin | Hout].
  - rewrite FSBasics.u32_small by lia.
    destruct (decide (blockNr - 1 < Z.of_nat (length (blocks dev)))) as [_ | ?]; [|lia].
    pose proof (prevCorrupted_loop_spec isCorrupted dev blockNr
                  (Z.to_nat (blockNr - 1 + 1)) (blockNr - 1)) as Hloop.
    cbn zeta in Hloop. specialize (Hloop ltac:(lia)).
    destruct Hloop as [[Hr Hnone] | (Hr & Hc & Hnone)].
    + left. split; [exact Hr|]. intros j Hj. apply Hnone. lia.
    + right. split; [lia|]. split; [exact Hc|]. intros j Hj. apply Hnone. lia.
  - destruct (decide (blockNr = 0)) as [-> | Hne].
    + change (u32 (0 - 1)) with (2 ^ 32 - 1).
      destruct (decide (2 ^ 32 - 1 < Z.of_nat (length (blocks dev)))) as [? | _];
        [lia | reflexivity].
    + rewrite FSBasics.u32_small by lia.
      destruct (decide (blockNr - 1 < Z.of_nat (length (blocks dev)))) as [? | _];
        [lia | reflexivity].
Qed.

Lemma prevCorrupted_finds_previous_witness :
  let r := prevCorrupted (fun dev i => bool_decide (i mod 5 = 3)) formatted 683 in
  if decide (1 <= 683 <= Z.of_nat (length (blocks formatted))) then
    (r = 683
     /\ forall j, 0 <= j < 683
                  -> (fun (dev : FSDevice) i => bool_decide (i mod 5 = 3)) formatted j = false)
    \/ (0 <= r < 683
        /\ (fun (dev : FSDevice) i => bool_decide (i mod 5 = 3)) formatted r = true
        /\ forall j, r < j < 683
                     -> (fun (dev : FSDevice) i => bool_decide (i mod 5 = 3)) formatted j = false)
  else r = 683.
Proof.
  apply (prevCorrupted_finds_previous (fun dev i => bool_decide (i mod 5 = 3))
           formatted 683).
  - vm_compute. reflexivity.
  - lia.
Defined.

End FSCorrupted.

Module FSExportErrors.
Import FS FSOps.

(** X18: [exportBlocks] with a buffer whose size is not 256 bytes per
    block asked for returns false with the error FS_WRONG_CAPACITY and
    leaves the buffer as it is, on a device with fewer than 2^24 blocks, where
    the product [count * 256] fits a u32; [exportBlock(nr, ...)] does so
    for every size other than 256. *)
Theorem exportBlocks_wrong_size (dev : FSDevice) (first last : Z) (dst : list Z)
    (error : option FSError) :
  0 <= first <= last ->
  last < numBlocks (layout dev) ->
  numBlocks (layout dev) < 2 ^ 24 ->
  Z.of_nat (length dst) <> (last - first + 1) * 256 ->
  exportBlocks dev first last dst error
  = Some (false, dst, set_error error FS_WRONG_CAPACITY)
  /\ (first = last ->
      exportBlock_nr dev first dst error
      = Some (false, dst, set_error error FS_WRONG_CAPACITY)).
Proof.
  intros Hfirst Hlast Hsize Hlen.
  assert (Hrun : exportBlocks dev first last dst error
                 = Some (false, dst, set_error error FS_WRONG_CAPACITY)).
  { unfold exportBlocks. rewrite !bool_decide_true by lia.
    cbn [assertion mbind option_bind].
    rewrite (FSBasics.u32_small (last - first + 1)) by lia.
    rewrite FSBasics.u32_small by lia.
    destruct (decide _) as [_ | Heq]; [reflexivity|]. lia. }
  split; [exact Hrun|]. intros ->. exact Hrun.
Qed.

Lemma exportBlocks_wrong_size_witness :
  exportBlocks formatted 3 3 (replicate 255 0) (Some FS_OK)
  = Some (false, replicate 255 0, set_error (Some FS_OK) FS_WRONG_CAPACITY)
  /\ (3 = 3 ->
      exportBlock_nr formatted 3 (replicate 255 0) (Some FS_OK)
      = Some (false, replicate 255 0, set_error (Some FS_OK) FS_WRONG_CAPACITY)).
Proof.
  apply (exportBlocks_wrong_size formatted 3 3 (replicate 255 0) (Some FS_OK)).
  - lia.
  - vm_compute. reflexivity.
  - vm_compute. reflexivity.
  - vm_compute. discriminate.
Defined.

End FSExportErrors.

Module FlashBankProofs.
Import Flash FlashBank.

(** ** Command addresses and banks *)

Lemma low_bits_of_bankAddr bank addr :
  Z.land (bankAddr bank addr) 0x7FF = Z.land addr 0x7FF.
Proof.
  unfold bankAddr, u32.
  change 0x7FF with (Z.ones 11). rewrite !Z.land_ones by lia.
  rewrite Z.mod_mod_divide by (exists (2 ^ 21); reflexivity).
  replace (bank * 8192 + addr) with (addr + (bank * 4) * 2 ^ 11) by lia.
  apply Z_mod_plus_full.
Qed.

(** X19: the tests for the two command addresses see the low eleven bits
    of an address only, so a command address of one bank is a command
    address of every bank; and no address is a first and a second command
    address at once. *)
Theorem command_addresses_in_every_bank (bank addr : Z) :
  firstCommandAddr (bankAddr bank addr) = firstCommandAddr addr
  /\ secondCommandAddr (bankAddr bank addr) = secondCommandAddr addr
  /\ firstCommandAddr addr && secondCommandAddr addr = false.
Proof.
  unfold firstCommandAddr, secondCommandAddr.
  rewrite low_bits_of_bankAddr. split; [reflexivity|]. split; [reflexivity|].
  destruct (decide (Z.land addr 2047 = 1365)) as [H1 | H1].
  - rewrite (bool_decide_false (Z.land addr 2047 = 682)) by lia.
    apply andb_false_r.
  - rewrite (bool_decide_false (Z.land addr 2047 = 1365)) by exact H1.
    reflexivity.
Qed.

(** X20: for a bank number and an offset inside the 8 KB of a bank, the
    address [bank * 0x2000 + addr] lies inside the 512 KB of the ROM and
    determines both the bank and the offset: the banks do not overlap. *)
Theorem bank_addresses_do_not_overlap (bank addr bank' addr' : Z) :
  isBankNumber bank = true -> isBankNumber bank' = true ->
  0 <= bank -> 0 <= bank' ->
  0 <= addr < 0x2000 -> 0 <= addr' < 0x2000 ->
  0 <= bankAddr bank addr < romSize
  /\ bankAddr bank addr / 0x2000 = bank
  /\ bankAddr bank addr mod 0x2000 = addr
  /\ (bankAddr bank addr = bankAddr bank' addr' -> bank = bank' /\ addr = addr').
Proof.
  unfold isBankNumber, bankAddr, romSize.
  intros Hb Hb' Hb0 Hb0' Ha Ha'.
  apply bool_decide_eq_true in Hb, Hb'.
  rewrite !FSBasics.u32_small by lia.
  split; [lia|]. split; [|split].
  - rewrite Z.add_comm, Z.div_add by lia. rewrite Z.div_small by lia. lia.
  - rewrite Z.add_comm, Z_mod_plus_full. apply Z.mod_small. lia.
  - intros Heq. lia.
Qed.

Lemma bank_addresses_do_not_overlap_witness :
  0 <= bankAddr 63 0x1FFF < romSize
  /\ bankAddr 63 0x1FFF / 0x2000 = 63
  /\ bankAddr 63 0x1FFF mod 0x2000 = 0x1FFF
  /\ (bankAddr 63 0x1FFF = bankAddr 0 0x555 -> 63 = 0 /\ 0x1FFF = 0x555).
Proof.
  apply (bank_addresses_do_not_overlap 63 0x1FFF 0 0x555); try reflexivity; lia.
Defined.

End FlashBankProofs.

Module EmuTimeProofs.
Import EmuTime.

(** ** Ticks to nanoseconds and back *)

(** X21: as long as the product [abs * numer] fits 64 bits,
    [abs_to_nanos] is the rounded-down quotient, and converting the result
    back with [nanos_to_abs] never yields more than [abs] and loses less
    than [denom / numer + 1] ticks; with [numer = denom] both conversions
    return their argument.  A denominator of 0 ends the run. *)
Theorem nanos_to_abs_after_abs_to_nanos (timebase : timebase_info) (abs : Z) :
  0 < numer timebase -> 0 < denom timebase ->
  0 <= abs -> abs * numer timebase < 2 ^ 64 ->
  exists nanos back,
    abs_to_nanos timebase abs = Some nanos
    /\ nanos = abs * numer timebase / denom timebase
    /\ nanos_to_abs timebase nanos = Some back
    /\ back <= abs
    /\ numer timebase * (abs - back) < denom timebase + numer timebase
    /\ (numer timebase = denom timebase -> nanos = abs /\ back = abs).
Proof.
  destruct timebase as [n d]. cbn [numer denom]. intros Hn Hd Habs Hfit.
  set (q := abs * n / d).
  assert (Hq : 0 <= q) by (apply Z.div_pos; nia).
  assert (Hqd : q * d <= abs * n).
  { unfold q. rewrite Z.mul_comm. apply Z.mul_div_le. lia. }
  assert (Hqd' : abs * n < q * d + d).
  { unfold q. pose proof (Z.mod_pos_bound (abs * n) d Hd) as Hm.
    pose proof (Z.div_mod (abs * n) d ltac:(lia)) as Hdm. nia. }
  set (r := q * d / n).
  assert (Hrn : r * n <= q * d).
  { unfold r. rewrite Z.mul_comm. apply Z.mul_div_le. lia. }
  assert (Hrn' : q * d < r * n + n).
  { unfold r. pose proof (Z.mod_pos_bound (q * d) n Hn) as Hm.
    pose proof (Z.div_mod (q * d) n ltac:(lia)) as Hdm. nia. }
  exists q, r. unfold abs_to_nanos, nanos_to_abs, udiv. cbn [numer denom].
  destruct (decide (d = 0)) as [? | _]; [lia|].
  destruct (decide (n = 0)) as [? | _]; [lia|].
  rewrite !FSBasics.u64_small by nia.
  split; [reflexivity|]. split; [reflexivity|]. split; [reflexivity|].
  split; [nia|]. split; [nia|].
  intros ->. assert (q = abs) by (unfold q; apply Z.div_mul; lia).
  split; [assumption|]. unfold r. subst q. rewrite H. apply Z.div_mul. lia.
Qed.

Lemma nanos_to_abs_after_abs_to_nanos_witness :
  exists nanos back,
    abs_to_nanos (mkTimebase 125 3) 1000 = Some nanos
    /\ nanos = 1000 * numer (mkTimebase 125 3) / denom (mkTimebase 125 3)
    /\ nanos_to_abs (mkTimebase 125 3) nanos = Some back
    /\ back <= 1000
    /\ numer (mkTimebase 125 3) * (1000 - back)
       < denom (mkTimebase 125 3) + numer (mkTimebase 125 3)
    /\ (numer (mkTimebase 125 3) = denom (mkTimebase 125 3)
        -> nanos = 1000 /\ back = 1000).
Proof.
  apply (nanos_to_abs_after_abs_to_nanos (mkTimebase 125 3) 1000); simpl; lia.
Defined.

End EmuTimeProofs.

Module FSScanResult.
Import FS FSOps.

(** ** What a directory scan lists *)

Lemma before_length {A : Type} (stop : A -> bool) (l : list A) :
  (length (before stop l) <= length l)%nat.
Proof.
  induction l as [|x l IH]; [reflexivity|].
  cbn [before]. destruct (stop x); cbn [length]; lia.
Qed.

Lemma before_Forall {A : Type} (stop : A -> bool) (l : list A) :
  Forall (fun x => stop x = false) (before stop l).
Proof.
  induction l as [|x l IH]; [constructor|].
  cbn [before]. destruct (stop x) eqn:Hx; [constructor|].
  constructor; assumption.
Qed.

Lemma filter_all {A : Type} (f : A -> bool) (l : list A) :
  (forall x, f x = true) -> List.filter f l = l.
Proof.
  intros Hf. induction l as [|x l IH]; [reflexivity|].
  cbn [List.filter]. rewrite Hf, IH. reflexivity.
Qed.

(** X22: [scanDirectory] lists at most 144 entries and no empty one, and
    the scan that skips invisible entries returns the entries of the full
    scan that are not hidden, in the same order. *)
Theorem scanDirectory_lists_used_entries (isEmpty isHidden : list Z -> bool)
    (dev : FSDevice) :
  wfBlocks dev ->
  exists all,
    scanDirectory isEmpty isHidden dev false = Some all
    /\ scanDirectory isEmpty isHidden dev true
       = Some (List.filter (fun e => negb (isHidden (entryOf dev e))) all)
    /\ (length all <= 144)%nat
    /\ Forall (fun e => isEmpty (entryOf dev e) = false) all.
Proof.
  intros Hwf.
  destruct (FSDirectory.scanDirectory_loop_spec isEmpty isHidden dev false Hwf
              144 0 (blockPtr_ts dev 18 1) [])
    as (slots & Hslots & Hlen & Hall).
  { intros p Hp. eapply FSDirectory.blockPtr_ts_valid, Hp. }
  destruct (FSDirectory.scanDirectory_loop_spec isEmpty isHidden dev true Hwf
              144 0 (blockPtr_ts dev 18 1) [])
    as (slots' & Hslots' & _ & Hshown).
  { intros p Hp. eapply FSDirectory.blockPtr_ts_valid, Hp. }
  assert (slots' = slots) by congruence. subst slots'.
  exists (before (fun e => isEmpty (entryOf dev e)) slots).
  unfold scanDirectory. rewrite Hall, Hshown. cbn [app andb].
  rewrite filter_all by reflexivity.
  split; [reflexivity|]. split; [reflexivity|]. split.
  - pose proof (before_length (fun e => isEmpty (entryOf dev e)) slots). lia.
  - apply before_Forall.
Qed.

Lemma scanDirectory_lists_used_entries_witness :
  exists all,
    scanDirectory FSDirEntry_isEmpty (fun e => bool_decide (e !! 2%nat = Some 0x82))
      dirWithGap false = Some all
    /\ scanDirectory FSDirEntry_isEmpty (fun e => bool_decide (e !! 2%nat = Some 0x82))
         dirWithGap true
       = Some (List.filter
                 (fun e => negb ((fun e => bool_decide (e !! 2%nat = Some 0x82))
                                   (entryOf dirWithGap e))) all)
    /\ (length all <= 144)%nat
    /\ Forall (fun e => FSDirEntry_isEmpty (entryOf dirWithGap e) = false) all.
Proof.
  apply (scanDirectory_lists_used_entries FSDirEntry_isEmpty
           (fun e => bool_decide (e !! 2%nat = Some 0x82)) dirWithGap).
  exact FSDirectory.dirWithGap_wf.
Defined.

End FSScanResult.

Module FSAllocateShape.
Import FS FSOps.

(** ** The references that [allocate] returns *)

Lemma poke_layout dev p off v dev' :
  poke dev p off v = Some dev' -> layout dev' = layout dev.
Proof.
  unfold poke. destruct (blocks dev !! p) as [blk|]; [|discriminate].
  cbn [mbind option_bind]. destruct (decide _); [|discriminate].
  intros [= <-]. reflexivity.
Qed.

Lemma setAllocationBit_layout dev t s value dev' :
  setAllocationBit dev t s value = Some dev' -> layout dev' = layout dev.
Proof.
  unfold setAllocationBit.
  destruct (locateAllocationBit dev t s) as [[[bam byte] bit]|]; [|discriminate].
  cbn [mbind option_bind].
  destruct bam as [p|]; [|discriminate]. cbn [mbind option_bind].
  destruct (peek dev p byte) as [x|]; [|discriminate]. cbn [mbind option_bind].
  assert (Hstep : forall (c : bool) devA x' (delta : Z) devB,
            (if c then
               d ← poke devA p byte x';
               c0 ← peek d p (Z.land byte (Z.lnot 3));
               poke d p (Z.land byte (Z.lnot 3)) (u8 (c0 + delta))
             else Some devA) = Some devB ->
            layout devB = layout devA).
  { intros c devA x' delta devB. destruct c; [|intros [= <-]; reflexivity].
    destruct (poke devA p byte x') as [d|] eqn:Hp1; [|discriminate].
    cbn [mbind option_bind].
    destruct (peek d p _) as [c0|]; [|discriminate]. cbn [mbind option_bind].
    intros Hp2. rewrite (poke_layout _ _ _ _ _ Hp2). exact (poke_layout _ _ _ _ _ Hp1). }
  destruct (if value && negb (GET_BIT x bit) then _ else _) as [dev1|] eqn:H1;
    [|discriminate].
  cbn [mbind option_bind].
  destruct (peek dev1 p byte) as [x1|]; [|discriminate]. cbn [mbind option_bind].
  intros H2.
  apply (Hstep _ dev _ 1) in H1.
  change (u8 (?c - 1)) with (u8 (c + -1)) in H2.
  apply (Hstep _ dev1 _ (-1)) in H2. congruence.
Qed.

Lemma allocate_loop_shape (n : nat) :
  forall dev ref acc blk dev' res blk',
  allocate_loop n dev ref acc blk = Some (dev', res, blk') ->
  res = acc ++ chainRefs (layout dev) n ref /\ layout dev' = layout dev.
Proof.
  induction n as [|n IH]; intros dev ref acc blk dev' res blk' Hrun.
  - cbn [allocate_loop chainRefs] in *. injection Hrun as <- <- <-.
    rewrite app_nil_r. split; reflexivity.
  - cbn [allocate_loop chainRefs] in *.
    destruct (markAsAllocated dev (ref_t ref) (ref_s ref)) as [dev1|] eqn:Hmark;
      [|discriminate].
    cbn [mbind option_bind] in Hrun.
    pose proof (setAllocationBit_layout _ _ _ _ _ Hmark) as Hlay1.
    rewrite Hlay1 in Hrun. unfold nextRef.
    destruct (nextTrackAndSector (layout dev) (ref_t ref) (ref_s ref)) as [ok [t' s']].
    destruct (blockPtr_ts dev1 (ref_t ref) (ref_s ref)) as [p|]; [|discriminate].
    cbn [mbind option_bind] in Hrun.
    destruct (poke dev1 p 0 (u8 t')) as [dev2|] eqn:Hp2; [|discriminate].
    cbn [mbind option_bind] in Hrun.
    destruct (poke dev2 p 1 (u8 s')) as [dev3|] eqn:Hp3; [|discriminate].
    cbn [mbind option_bind] in Hrun.
    apply IH in Hrun as [-> Hlay'].
    pose proof (poke_layout _ _ _ _ _ Hp2) as Hlay2.
    pose proof (poke_layout _ _ _ _ _ Hp3) as Hlay3.
    rewrite <- app_assoc. split; [|congruence].
    do 3 f_equal. congruence.
Qed.

(** X23: whenever [allocate(ref, n)] returns, the result is the empty list
    if the walk to the next free block ended at track 0, and otherwise
    exactly [n] references: the block that [nextFreeBlock(ref)] found and
    the [n - 1] references that follow it in the [nextTrackAndSector]
    order.  The layout of the device is not changed. *)
Theorem allocate_result_shape (fuel : nat) (dev : FSDevice) (ref : BlockRef) (n : Z)
    (dev' : FSDevice) (result : list BlockRef) :
  allocate fuel dev ref n = Some (dev', result) ->
  exists first,
    n > 0
    /\ nextFreeBlock fuel dev ref = Some first
    /\ layout dev' = layout dev
    /\ result = (if decide (ref_t first = 0) then []
                 else chainRefs (layout dev) (Z.to_nat n) first)
    /\ (ref_t first <> 0 -> Z.of_nat (length result) = n).
Proof.
  unfold allocate. intros Hrun.
  destruct (decide (n > 0)) as [Hn | Hn].
  2:{ rewrite bool_decide_false in Hrun by exact Hn. discriminate. }
  rewrite bool_decide_true in Hrun by exact Hn.
  cbn [assertion mbind option_bind] in Hrun.
  destruct (nextFreeBlock fuel dev ref) as [first|]; [|discriminate].
  cbn [mbind option_bind] in Hrun.
  exists first. split; [exact Hn|]. split; [reflexivity|].
  destruct (decide (ref_t first <> 0)) as [Hne | He].
  - destruct (allocate_loop (Z.to_nat n) dev first [] None) as [[[dev1 res] blk]|] eqn:Hloop;
      [|discriminate].
    cbn [mbind option_bind] in Hrun.
    destruct blk as [p|]; [|discriminate]. cbn [mbind option_bind] in Hrun.
    destruct (poke dev1 p 0 0) as [dev2|] eqn:Hp2; [|discriminate].
    cbn [mbind option_bind] in Hrun.
    destruct (poke dev2 p 1 0) as [dev3|] eqn:Hp3; [|discriminate].
    cbn [mbind option_bind] in Hrun. injection Hrun as <- <-.
    apply allocate_loop_shape in Hloop as [-> Hlay1]. cbn [app].
    pose proof (poke_layout _ _ _ _ _ Hp2). pose proof (poke_layout _ _ _ _ _ Hp3).
    split; [congruence|].
    destruct (decide (ref_t first = 0)) as [? | _]; [contradiction|].
    split; [reflexivity|]. intros _.
    rewrite FSAllocate.chainRefs_length. lia.
  - injection Hrun as <- <-. split; [reflexivity|].
    destruct (decide (ref_t first = 0)) as [_ | Hne]; [|exfalso; apply He; exact Hne].
    split; [reflexivity | intros Hne; exfalso; apply He; exact Hne].
Qed.

Lemma oneFreeBlock_wf : wfBlocks oneFreeBlock.
Proof.
  intros q blk Hblk.
  assert (Hall : Forall (fun b => length (data b) = 256%nat) (blocks oneFreeBlock)).
  { apply (bool_decide_unpack
             (Forall (fun b => length (data b) = 256%nat) (blocks oneFreeBlock))).
    vm_compute. exact I. }
  rewrite Forall_lookup in Hall. exact (Hall q blk Hblk).
Qed.

Lemma oneFreeBlock_bamBlock :
  bamBlock oneFreeBlock ([18; 1; 0; 0; 1; 1] ++ replicate 250 0).
Proof.
  exists 357%nat, (mkFSBlock 357 ([18; 1; 0; 0; 1; 1] ++ replicate 250 0) 0).
  split; [reflexivity|]. split; [reflexivity|]. split; [reflexivity|].
  split; [reflexivity|].
  apply (bool_decide_unpack
           (Forall (fun x => 0 <= x < 256) ([18; 1; 0; 0; 1; 1] ++ replicate 250 0))).
  vm_compute. exact I.
Qed.

(** On [oneFreeBlock], where (1,0) is the only free block, [allocate]
    returns two references when asked for two. *)
Lemma oneFreeBlock_allocate_two :
  exists dev',
    allocate 1 oneFreeBlock (mkBlockRef 1 0) 2
    = Some (dev', [mkBlockRef 1 0; mkBlockRef 1 10]).
Proof.
  destruct (FSAllocate.allocate_spec DISK_SS_SD 357 1 oneFreeBlock (mkBlockRef 1 0) 2
              ([18; 1; 0; 0; 1; 1] ++ replicate 250 0))
    as (dev' & d' & Hrun & _).
  - reflexivity.
  - exact oneFreeBlock_wf.
  - exact FSBam.DISK_SS_SD_fits.
  - exact oneFreeBlock_bamBlock.
  - reflexivity.
  - reflexivity.
  - vm_compute. reflexivity.
  - discriminate.
  - lia.
  - lia.
  - apply (bool_decide_unpack
             (chainOk DISK_SS_SD (Z.of_nat (length (blocks oneFreeBlock)))
                (chainRefs DISK_SS_SD 2 (mkBlockRef 1 0)))).
    vm_compute. exact I.
  - exists dev'. exact Hrun.
Qed.

Lemma allocate_result_shape_witness :
  (exists first,
     2 > 0
     /\ nextFreeBlock 700 oneFreeBlock (mkBlockRef 1 10) = Some first
     /\ layout oneFreeBlock = layout oneFreeBlock
     /\ [] = (if decide (ref_t first = 0) then []
              else chainRefs (layout oneFreeBlock) (Z.to_nat 2) first)
     /\ (ref_t first <> 0 -> Z.of_nat (length (@nil BlockRef)) = 2))
  /\ isFree oneFreeBlock 1 10 = Some false
  /\ exists dev' first,
       allocate 1 oneFreeBlock (mkBlockRef 1 0) 2
       = Some (dev', [mkBlockRef 1 0; mkBlockRef 1 10])
       /\ 2 > 0
       /\ nextFreeBlock 1 oneFreeBlock (mkBlockRef 1 0) = Some first
       /\ layout dev' = layout oneFreeBlock
       /\ [mkBlockRef 1 0; mkBlockRef 1 10]
          = (if decide (ref_t first = 0) then []
             else chainRefs (layout oneFreeBlock) (Z.to_nat 2) first)
       /\ (ref_t first <> 0
           -> Z.of_nat (length [mkBlockRef 1 0; mkBlockRef 1 10]) = 2).
Proof.
  split; [|split; [vm_compute; reflexivity|]].
  - apply (allocate_result_shape 700 oneFreeBlock (mkBlockRef 1 10) 2 oneFreeBlock []).
    assert (Hwalk : nextFreeBlock 700 oneFreeBlock (mkBlockRef 1 10)
                    = Some (mkBlockRef 0 0)) by (vm_compute; reflexivity).
    unfold allocate. rewrite Hwalk. reflexivity.
  - destruct oneFreeBlock_allocate_two as [dev' Hrun].
    exists dev'.
    destruct (allocate_result_shape 1 oneFreeBlock (mkBlockRef 1 0) 2 dev'
                [mkBlockRef 1 0; mkBlockRef 1 10] Hrun) as (first & Hshape).
    exists first. split; [exact Hrun | exact Hshape].
Defined.

End FSAllocateShape.

Module FSBamOrder.
Import FS FSOps.

(** ** Allocation bits of different blocks *)

Lemma bit_ops_commute_enum :
  forallb (fun x => forallb (fun b1 => forallb (fun b2 =>
      (b1 =? b2)
      || ((SET_BIT (SET_BIT x b1) b2 =? SET_BIT (SET_BIT x b2) b1)
          && (CLR_BIT (SET_BIT x b1) b2 =? SET_BIT (CLR_BIT x b2) b1)
          && (SET_BIT (CLR_BIT x b1) b2 =? CLR_BIT (SET_BIT x b2) b1)
          && (CLR_BIT (CLR_BIT x b1) b2 =? CLR_BIT (CLR_BIT x b2) b1)))
    (seqZ 0 8)) (seqZ 0 8)) (seqZ 0 256) = true.
Proof. vm_compute. reflexivity. Qed.

Lemma bit_ops_commute x b1 b2 (v1 v2 : bool) :
  0 <= x < 256 -> 0 <= b1 < 8 -> 0 <= b2 < 8 -> b1 <> b2 ->
  (if v2 then SET_BIT (if v1 then SET_BIT x b1 else CLR_BIT x b1) b2
   else CLR_BIT (if v1 then SET_BIT x b1 else CLR_BIT x b1) b2)
  = (if v1 then SET_BIT (if v2 then SET_BIT x b2 else CLR_BIT x b2) b1
     else CLR_BIT (if v2 then SET_BIT x b2 else CLR_BIT x b2) b1).
Proof.
  intros Hx Hb1 Hb2 Hne.
  pose proof bit_ops_commute_enum as H. rewrite forallb_forall in H.
  assert (Hinx : In x (seqZ 0 256)) by (apply list_elem_of_In, elem_of_seqZ; lia).
  assert (Hin1 : In b1 (seqZ 0 8)) by (apply list_elem_of_In, elem_of_seqZ; lia).
  assert (Hin2 : In b2 (seqZ 0 8)) by (apply list_elem_of_In, elem_of_seqZ; lia).
  specialize (H x Hinx). rewrite forallb_forall in H.
  specialize (H b1 Hin1). rewrite forallb_forall in H.
  specialize (H b2 Hin2). apply orb_prop in H as [H | H].
  - apply Z.eqb_eq in H. contradiction.
  - repeat (apply andb_prop in H as [H ?]).
    repeat match goal with
           | H : (_ =? _) = true |- _ => apply Z.eqb_eq in H
           end.
    destruct v1, v2; assumption.
Qed.

Lemma u8_commute c a b : u8 (u8 (c + a) + b) = u8 (u8 (c + b) + a).
Proof.
  unfold u8. rewrite !Zplus_mod_idemp_l. f_equal. lia.
Qed.

Lemma bamAfter_changed d t s value :
  GET_BIT (byteAt d (4 * t + 1 + s / 8)) (Z.land s 7) = negb value ->
  bamAfter d t s value
  = <[Z.to_nat (4 * t) := u8 (byteAt d (4 * t) + (if value then 1 else -1))]>
      (<[Z.to_nat (4 * t + 1 + s / 8) :=
           if value then SET_BIT (byteAt d (4 * t + 1 + s / 8)) (Z.land s 7)
           else CLR_BIT (byteAt d (4 * t + 1 + s / 8)) (Z.land s 7)]> d).
Proof.
  intros Hget. unfold bamAfter. rewrite Hget. destruct value; reflexivity.
Qed.

Lemma list_eq_byteAt (a b : list Z) :
  length a = length b ->
  (forall i, 0 <= i < Z.of_nat (length a) -> byteAt a i = byteAt b i) -> a = b.
Proof.
  intros Hlen Hall. apply list_eq. intros i.
  destruct (decide (i < length a)%nat) as [Hi | Hi].
  - specialize (Hall (Z.of_nat i) ltac:(lia)).
    rewrite <- (Nat2Z.id i).
    rewrite (FSBamLookup.byteAt_lookup a) by lia.
    rewrite (FSBamLookup.byteAt_lookup b) by lia.
    f_equal. exact Hall.
  - rewrite !lookup_ge_None_2 by lia. reflexivity.
Qed.

Lemma bamAfter_commute d t1 s1 v1 t2 s2 v2 :
  length d = 256%nat -> Forall (fun x => 0 <= x < 256) d ->
  0 <= t1 < 64 -> 0 <= s1 < 24 -> 0 <= t2 < 64 -> 0 <= s2 < 24 ->
  ~ (t1 = t2 /\ s1 = s2) ->
  bamAfter (bamAfter d t1 s1 v1) t2 s2 v2 = bamAfter (bamAfter d t2 s2 v2) t1 s1 v1.
Proof.
  intros Hlen Hall Ht1 Hs1 Ht2 Hs2 Hne.
  destruct (FSBam.locate_arith t1 s1 Ht1 Hs1) as (_ & Hk1 & _ & Hbit1).
  destruct (FSBam.locate_arith t2 s2 Ht2 Hs2) as (_ & Hk2 & _ & Hbit2).
  destruct (FSBamLookup.bamAfter_wf d t1 s1 v1 Hlen Hall Ht1 Hs1) as [Hlen1 Hall1].
  destruct (FSBamLookup.bamAfter_wf d t2 s2 v2 Hlen Hall Ht2 Hs2) as [Hlen2 Hall2].
  pose proof (FSBamLookup.bamAfter_bit d t1 s1 v1 t2 s2 Hlen Hall Ht1 Hs1 Ht2 Hs2) as Hb12.
  pose proof (FSBamLookup.bamAfter_bit d t2 s2 v2 t1 s1 Hlen Hall Ht2 Hs2 Ht1 Hs1) as Hb21.
  destruct (decide (t2 = t1 /\ s2 = s1)) as [[? ?] | _]; [exfalso; apply Hne; split; congruence|].
  destruct (decide (t1 = t2 /\ s1 = s2)) as [? | _]; [contradiction|].
  set (byte1 := 4 * t1 + 1 + s1 / 8) in *. set (byte2 := 4 * t2 + 1 + s2 / 8) in *.
  set (bit1 := Z.land s1 7) in *. set (bit2 := Z.land s2 7) in *.
  destruct (Bool.bool_dec (GET_BIT (byteAt d byte1) bit1) v1) as [Hsame1 | Hch1].
  { (* the first call changes nothing *)
    rewrite (FSBamLookup.bamAfter_same d t1 s1 v1 Hsame1).
    rewrite (FSBamLookup.bamAfter_same (bamAfter d t2 s2 v2) t1 s1 v1); [reflexivity|].
    fold byte1 bit1. rewrite Hb21. exact Hsame1. }
  destruct (Bool.bool_dec (GET_BIT (byteAt d byte2) bit2) v2) as [Hsame2 | Hch2].
  { rewrite (FSBamLookup.bamAfter_same d t2 s2 v2 Hsame2).
    rewrite (FSBamLookup.bamAfter_same (bamAfter d t1 s1 v1) t2 s2 v2); [reflexivity|].
    fold byte2 bit2. rewrite Hb12. exact Hsame2. }
  assert (Hn1 : GET_BIT (byteAt d byte1) bit1 = negb v1)
    by (destruct (GET_BIT (byteAt d byte1) bit1), v1; simpl; congruence).
  assert (Hn2 : GET_BIT (byteAt d byte2) bit2 = negb v2)
    by (destruct (GET_BIT (byteAt d byte2) bit2), v2; simpl; congruence).
  rewrite (bamAfter_changed (bamAfter d t1 s1 v1) t2 s2 v2)
    by (fold byte2 bit2; rewrite Hb12; exact Hn2).
  rewrite (bamAfter_changed (bamAfter d t2 s2 v2) t1 s1 v1)
    by (fold byte1 bit1; rewrite Hb21; exact Hn1).
  rewrite (bamAfter_changed d t1 s1 v1 Hn1), (bamAfter_changed d t2 s2 v2 Hn2).
  fold byte1 byte2 bit1 bit2.
  set (x1 := byteAt d byte1). set (x2 := byteAt d byte2).
  set (c1 := byteAt d (4 * t1)). set (c2 := byteAt d (4 * t2)).
  set (e1 := if v1 then 1 else -1). set (e2 := if v2 then 1 else -1).
  assert (Hx1 : 0 <= x1 < 256)
    by (apply FSBam.byteAt_range; [assumption | unfold byte1; lia]).
  assert (Hx2 : 0 <= x2 < 256)
    by (apply FSBam.byteAt_range; [assumption | unfold byte2; lia]).
  assert (Hbits : byte1 = byte2 -> bit1 <> bit2).
  { intros Hb Hbits. apply Hne. unfold byte1, byte2 in Hb.
    assert (t1 = t2) by lia. subst t2. split; [reflexivity|].
    apply FSBamLookup.sector_of_byte_bit; try lia; try exact Hbits. }
  apply list_eq_byteAt; [rewrite !length_insert; reflexivity|].
  rewrite !length_insert, Hlen. intros i Hi.
  rewrite !FSBam.byteAt_insert
    by (rewrite ?length_insert; unfold byte1, byte2; lia).
  fold x1 x2 c1 c2.
  repeat match goal with
         | |- context [decide ?P] =>
             destruct (decide P) as [? | ?];
             try (exfalso; unfold byte1, byte2 in *; lia)
         end;
    try reflexivity.
  - (* the free count of the one track that both blocks are on *)
    assert (Ht : t2 = t1) by lia.
    replace c2 with c1 by (unfold c1, c2; rewrite Ht; reflexivity).
    apply u8_commute.
  - (* one bitmap byte holds both bits *)
    replace x2 with x1 by (unfold x1, x2; congruence).
    apply bit_ops_commute; try assumption. apply Hbits. congruence.
Qed.

(** X24: the allocation bits of two different blocks can be set in either
    order: both orders end in the same device. *)
Theorem setAllocationBit_order (dev : FSDevice) (d : list Z)
    (t1 s1 : Z) (v1 : bool) (t2 s2 : Z) (v2 : bool) :
  layoutFitsBAM (layout dev) ->
  bamBlock dev d ->
  isTrackSectorPair (layout dev) t1 s1 = true ->
  isTrackSectorPair (layout dev) t2 s2 = true ->
  ~ (t1 = t2 /\ s1 = s2) ->
  exists dev',
    (dev1 ← setAllocationBit dev t1 s1 v1; setAllocationBit dev1 t2 s2 v2) = Some dev'
    /\ (dev2 ← setAllocationBit dev t2 s2 v2; setAllocationBit dev2 t1 s1 v1) = Some dev'.
Proof.
  intros Hfit Hbam Hp1 Hp2 Hne.
  destruct (Hfit t1 s1 Hp1) as [Ht1 Hs1]. destruct (Hfit t2 s2 Hp2) as [Ht2 Hs2].
  pose proof Hbam as (pb & blkb & Hpb & Hblkb & Hd & Hlen & Hall).
  assert (Hrun : forall ta sa va tb sb vb,
            isTrackSectorPair (layout dev) ta sa = true ->
            isTrackSectorPair (layout dev) tb sb = true ->
            exists devb,
              (deva ← setAllocationBit dev ta sa va; setAllocationBit deva tb sb vb)
              = Some devb
              /\ layout devb = layout dev
              /\ blocks devb
                 = <[pb := set_data blkb (bamAfter (bamAfter d ta sa va) tb sb vb)]>
                     (blocks dev)).
  { intros ta sa va tb sb vb Hpa Hpb'.
    destruct (FSBamLookup.setAllocationBit_result dev d ta sa va Hfit Hbam Hpa)
      as (deva & p & blk & Hruna & Hlaya & Hp & Hblk & Hblocksa & Hbama).
    assert (p = pb) by congruence. subst p.
    assert (blk = blkb) by congruence. subst blk.
    assert (Hfita : layoutFitsBAM (layout deva)) by (rewrite Hlaya; exact Hfit).
    assert (Hpaira : isTrackSectorPair (layout deva) tb sb = true)
      by (rewrite Hlaya; exact Hpb').
    destruct (FSBamLookup.setAllocationBit_result deva _ tb sb vb Hfita Hbama Hpaira)
      as (devb & p & blk & Hrunb & Hlayb & Hp' & Hblk' & Hblocksb & _).
    assert (Hlena : length (blocks deva) = length (blocks dev))
      by (rewrite Hblocksa; apply length_insert).
    rewrite (FSBamLookup.bamPtr_same dev deva Hlaya Hlena) in Hp'.
    assert (p = pb) by congruence. subst p.
    rewrite Hblocksa, list_lookup_insert_eq in Hblk'
      by (eapply lookup_lt_Some, Hblkb).
    injection Hblk' as <-.
    exists devb. rewrite Hruna. cbn [mbind option_bind].
    split; [exact Hrunb|]. split; [congruence|].
    rewrite Hblocksb, Hblocksa, list_insert_insert_eq. reflexivity. }
  destruct (Hrun t1 s1 v1 t2 s2 v2 Hp1 Hp2) as (dev12 & Hrun12 & Hlay12 & Hb12).
  destruct (Hrun t2 s2 v2 t1 s1 v1 Hp2 Hp1) as (dev21 & Hrun21 & Hlay21 & Hb21).
  exists dev12. split; [exact Hrun12|]. rewrite Hrun21. f_equal.
  apply FSBamLookup.device_eq; [congruence|].
  rewrite Hb21, Hb12.
  rewrite (bamAfter_commute d t1 s1 v1 t2 s2 v2 Hlen Hall) by assumption.
  reflexivity.
Qed.

Lemma setAllocationBit_order_witness :
  exists dev',
    (dev1 ← setAllocationBit formatted 1 0 false; setAllocationBit dev1 1 1 false)
    = Some dev'
    /\ (dev2 ← setAllocationBit formatted 1 1 false; setAllocationBit dev2 1 0 false)
       = Some dev'.
Proof.
  apply (setAllocationBit_order formatted emptyBAM 1 0 false 1 1 false).
  - exact FSBam.DISK_SS_SD_fits.
  - exact FSBam.formatted_bamBlock.
  - reflexivity.
  - reflexivity.
  - lia.
Defined.

End FSBamOrder.

Module EmuSnapshotProofs.
Import Emu EmuSnapshots.

(** ** Nested suspend and resume calls *)

Lemma balance_cons call calls :
  balance (call :: calls)
  = match call with
    | CallSuspend => balance calls - 1
    | CallResume => balance calls + 1
    end.
Proof. reflexivity. Qed.

(** The interval after the calls, as long as no call overflows. *)
Definition shifted (c : C64) (calls : list SnapshotCall) : Z :=
  autoSnapshotInterval c + (LONG_MAX / 2) * balance calls.

Lemma shifted_nil c : shifted c [] = autoSnapshotInterval c.
Proof. unfold shifted. cbn [balance foldr]. lia. Qed.

Lemma runSnapshotCall_step c call :
  runSnapshotCall c call
  = if bool_decide (LONG_MIN <= shifted c [call] <= LONG_MAX)
    then Some (mkC64 (stopFlag c) (takeAutoSnapshots c) (shifted c [call]))
    else None.
Proof.
  unfold shifted. rewrite balance_cons. cbn [balance foldr].
  destruct call; cbn [runSnapshotCall];
    unfold suspendAutoSnapshots, resumeAutoSnapshots, long_sub, long_add.
  - replace (autoSnapshotInterval c + LONG_MAX / 2 * (0 - 1))
      with (autoSnapshotInterval c - LONG_MAX / 2) by lia.
    case_bool_decide; reflexivity.
  - replace (autoSnapshotInterval c + LONG_MAX / 2 * (0 + 1))
      with (autoSnapshotInterval c + LONG_MAX / 2) by lia.
    case_bool_decide; reflexivity.
Qed.

Lemma shifted_step c call pre :
  shifted (mkC64 (stopFlag c) (takeAutoSnapshots c) (shifted c [call])) pre
  = shifted c (call :: pre).
Proof.
  unfold shifted. cbn [autoSnapshotInterval]. rewrite !balance_cons.
  cbn [balance foldr]. destruct call; lia.
Qed.

Lemma runSnapshotCalls_shifted (calls : list SnapshotCall) :
  forall c,
  (forall n, LONG_MIN <= shifted c (take (S n) calls) <= LONG_MAX) ->
  runSnapshotCalls c calls
  = Some (mkC64 (stopFlag c) (takeAutoSnapshots c) (shifted c calls)).
Proof.
  induction calls as [|call calls IH]; intros c Hrange.
  - cbn [runSnapshotCalls]. rewrite shifted_nil. destruct c; reflexivity.
  - cbn [runSnapshotCalls]. rewrite runSnapshotCall_step.
    rewrite bool_decide_true by exact (Hrange 0%nat).
    cbn [mbind option_bind]. rewrite IH.
    + cbn [stopFlag takeAutoSnapshots]. rewrite shifted_step. reflexivity.
    + intros n. rewrite shifted_step. exact (Hrange (S n)).
Qed.

Lemma runSnapshotCalls_overflow (calls : list SnapshotCall) :
  forall c n,
  LONG_MIN <= autoSnapshotInterval c <= LONG_MAX ->
  ~ (LONG_MIN <= shifted c (take n calls) <= LONG_MAX) ->
  runSnapshotCalls c calls = None.
Proof.
  induction calls as [|call calls IH]; intros c n Hc Hout.
  - rewrite take_nil, shifted_nil in Hout. contradiction.
  - destruct n as [|n].
    { cbn [take] in Hout. rewrite shifted_nil in Hout. contradiction. }
    cbn [runSnapshotCalls]. rewrite runSnapshotCall_step.
    case_bool_decide as Hstep; [|reflexivity].
    cbn [mbind option_bind]. apply (IH _ n).
    + exact Hstep.
    + rewrite shifted_step. exact Hout.
Qed.

(** X25: calls of [suspendAutoSnapshots] and [resumeAutoSnapshots] nest as
    far as the range of [long] allows.  If after each of the calls the
    interval, moved by LONG_MAX / 2 for each resume and back for each
    suspend, is a [long], all calls return, the interval ends at that value
    for the whole sequence and nothing else changes: with as many resumes
    as suspends the object is what it was before.  If after one of the
    calls that value is no [long], that call overflows and the sequence has
    no defined result. *)
Theorem suspend_resume_calls_nest (c : C64) (calls : list SnapshotCall) :
  LONG_MIN <= autoSnapshotInterval c <= LONG_MAX ->
  ((forall n, LONG_MIN <= shifted c (take n calls) <= LONG_MAX) ->
   runSnapshotCalls c calls
   = Some (mkC64 (stopFlag c) (takeAutoSnapshots c) (shifted c calls))
   /\ (balance calls = 0 -> runSnapshotCalls c calls = Some c))
  /\ ((exists n, ~ (LONG_MIN <= shifted c (take n calls) <= LONG_MAX)) ->
      runSnapshotCalls c calls = None).
Proof.
  intros Hc. split.
  - intros Hrange.
    assert (Hrun : runSnapshotCalls c calls
                   = Some (mkC64 (stopFlag c) (takeAutoSnapshots c) (shifted c calls))).
    { apply runSnapshotCalls_shifted. intros n. apply Hrange. }
    split; [exact Hrun|]. intros Hbal. rewrite Hrun. unfold shifted.
    rewrite Hbal, Z.mul_0_r, Z.add_0_r. destruct c; reflexivity.
  - intros (n & Hout). exact (runSnapshotCalls_overflow calls c n Hc Hout).
Qed.

Lemma suspend_resume_calls_nest_witness :
  runSnapshotCalls (mkC64 false true 3)
    [CallSuspend; CallSuspend; CallResume; CallSuspend; CallResume; CallResume]
  = Some (mkC64 false true 3)
  /\ runSnapshotCalls (mkC64 false true 3) [CallSuspend; CallSuspend; CallSuspend]
     = None.
Proof.
  split.
  - apply (suspend_resume_calls_nest (mkC64 false true 3)
             [CallSuspend; CallSuspend; CallResume; CallSuspend; CallResume; CallResume]).
    + vm_compute. split; discriminate.
    + intros n.
      do 7 (destruct n as [|n]; [vm_compute; split; discriminate|]).
      vm_compute. split; discriminate.
    + reflexivity.
  - apply (suspend_resume_calls_nest (mkC64 false true 3)
             [CallSuspend; CallSuspend; CallSuspend]).
    + vm_compute. split; discriminate.
    + exists 3%nat. vm_compute. intros [H _]. apply H. reflexivity.
Defined.

End EmuSnapshotProofs.

Module P00Proofs.
Import P00.

(** ** A P00 archive made from a file *)

Lemma store_length buf p bytes buf' :
  store buf p bytes = Some buf' -> length buf' = length buf.
Proof.
  unfold store. destruct (decide _) as [[Hp Hfit] | ?]; [|discriminate].
  intros [= <-]. rewrite !length_app, length_take, length_drop. lia.
Qed.

Lemma store_lookup buf p bytes buf' (i : nat) :
  store buf p bytes = Some buf' ->
  buf' !! i
  = if decide (Z.to_nat p <= i < Z.to_nat p + length bytes)%nat
    then bytes !! (i - Z.to_nat p)%nat else buf !! i.
Proof.
  unfold store. destruct (decide _) as [[Hp Hfit] | ?]; [|discriminate].
  intros [= <-].
  destruct (decide (Z.to_nat p <= i < Z.to_nat p + length bytes)%nat) as [Hin | Hout].
  - rewrite lookup_app_r by (rewrite length_take; lia).
    rewrite length_take, Nat.min_l by lia.
    rewrite lookup_app_l by lia. reflexivity.
  - destruct (decide (i < Z.to_nat p)%nat) as [Hlt | Hge].
    + rewrite lookup_app_l by (rewrite length_take; lia).
      apply lookup_take_lt. lia.
    + rewrite lookup_app_r by (rewrite length_take; lia).
      rewrite length_take, Nat.min_l by lia.
      rewrite lookup_app_r by lia.
      rewrite lookup_drop. f_equal. lia.
Qed.

Lemma store_fits buf p bytes :
  0 <= p -> p + Z.of_nat (length bytes) <= Z.of_nat (length buf) ->
  exists buf', store buf p bytes = Some buf'.
Proof.
  intros Hp Hfit. unfold store.
  destruct (decide _) as [_ | Hn]; [eexists; reflexivity | lia].
Qed.

(** X26: a P00 archive made from a file system with at least one file,
    whose first file has [n] bytes and a name of 16 bytes, has [n + 26]
    bytes; it is recognised as a P00 stream, holds the name at offset 8,
    has one item of size [n], and [readByte(0, pos)] returns byte [pos] of
    the file. *)
Theorem p00_holds_the_file (fs : FileSystemView) :
  0 < numFiles fs ->
  fileSize fs = Z.of_nat (length (fileBytes fs)) ->
  fileSize fs + 26 < 2 ^ 64 ->
  length (fileName fs) = 16%nat ->
  exists f,
    makeWithFileSystem fs = Some (MadeFile f)
    /\ size f = fileSize fs + 26
    /\ isCompatibleStream (data f) = true
    /\ take 16 (drop 8 (data f)) = fileName fs
    /\ collectionCount f = 1
    /\ itemSize f 0 = Some (fileSize fs)
    /\ (forall pos, 0 <= pos < fileSize fs ->
          readByte f 0 pos = fileBytes fs !! Z.to_nat pos).
Proof.
  intros Hfiles Hsize Hfit Hname.
  unfold makeWithFileSystem.
  destruct (decide (numFiles fs <= 0)) as [? | _]; [lia|].
  replace (fileSize fs + 8 + 17 + 1) with (fileSize fs + 26) by lia.
  rewrite FSBasics.u64_small by lia.
  set (d0 := replicate (Z.to_nat (fileSize fs + 26)) 0).
  assert (Hl0 : Z.of_nat (length d0) = fileSize fs + 26)
    by (unfold d0; rewrite length_replicate; lia).
  destruct (store_fits d0 0 (magicBytes ++ [0])) as [d1 H1]; [lia | simpl; lia |].
  pose proof (store_length _ _ _ _ H1) as Hl1.
  destruct (store_fits d1 8 (fileName fs)) as [d2 H2]; [lia | lia |].
  pose proof (store_length _ _ _ _ H2) as Hl2.
  destruct (store_fits d2 24 [0]) as [d3 H3]; [lia | simpl; lia |].
  pose proof (store_length _ _ _ _ H3) as Hl3.
  destruct (store_fits d3 25 [0]) as [d4 H4]; [lia | simpl; lia |].
  pose proof (store_length _ _ _ _ H4) as Hl4.
  destruct (store_fits d4 26 (fileBytes fs)) as [d5 H5]; [lia | lia |].
  pose proof (store_length _ _ _ _ H5) as Hl5.
  rewrite H1. cbn [mbind option_bind]. rewrite H2. cbn [mbind option_bind].
  rewrite H3. cbn [mbind option_bind]. rewrite H4. cbn [mbind option_bind].
  rewrite H5. cbn [mbind option_bind].
  assert (Hlen5 : Z.of_nat (length d5) = fileSize fs + 26) by lia.
  (* the bytes of the archive *)
  assert (Hlook : forall i : nat,
            d5 !! i
            = if decide (26 <= i < 26 + length (fileBytes fs))%nat
              then fileBytes fs !! (i - 26)%nat
              else if decide (i = 25)%nat then Some 0
              else if decide (i = 24)%nat then Some 0
              else if decide (8 <= i < 24)%nat then fileName fs !! (i - 8)%nat
              else if decide (i < 8)%nat then (magicBytes ++ [0]) !! i
              else d0 !! i).
  { intros i.
    rewrite (store_lookup _ _ _ _ i H5). change (Z.to_nat 26) with 26%nat.
    destruct (decide (26 <= i < 26 + length (fileBytes fs))%nat); [reflexivity|].
    rewrite (store_lookup _ _ _ _ i H4). change (Z.to_nat 25) with 25%nat.
    cbn [length].
    destruct (decide (25 <= i < 25 + 1)%nat) as [Hi | Hi].
    { destruct (decide (i = 25)%nat) as [-> | ?]; [reflexivity | lia]. }
    destruct (decide (i = 25)%nat) as [? | _]; [lia|].
    rewrite (store_lookup _ _ _ _ i H3). change (Z.to_nat 24) with 24%nat.
    cbn [length].
    destruct (decide (24 <= i < 24 + 1)%nat) as [Hi' | Hi'].
    { destruct (decide (i = 24)%nat) as [-> | ?]; [reflexivity | lia]. }
    destruct (decide (i = 24)%nat) as [? | _]; [lia|].
    rewrite (store_lookup _ _ _ _ i H2). change (Z.to_nat 8) with 8%nat.
    rewrite Hname.
    destruct (decide (8 <= i < 8 + 16)%nat) as [Hi8 | Hi8].
    { destruct (decide (8 <= i < 24)%nat) as [_ | ?]; [reflexivity | lia]. }
    destruct (decide (8 <= i < 24)%nat) as [? | _]; [lia|].
    rewrite (store_lookup _ _ _ _ i H1). change (Z.to_nat 0) with 0%nat.
    cbn [length app magicBytes].
    destruct (decide (0 <= i < 0 + 8)%nat) as [Hi0 | Hi0].
    { destruct (decide (i < 8)%nat) as [_ | ?]; [|lia].
      f_equal. lia. }
    destruct (decide (i < 8)%nat) as [? | _]; [lia | reflexivity]. }
  exists (mkP00File d5). split; [reflexivity|].
  unfold readByte, itemSize, isCompatibleStream, collectionCount, size. cbn [data].
  split; [exact Hlen5|]. split; [|split; [|split; [reflexivity|split]]].
  - destruct (decide (Z.of_nat (length d5) < 26)) as [? | _]; [lia|].
    apply bool_decide_eq_true. apply list_eq. intros i.
    destruct (decide (i < 7)%nat) as [Hi | Hi].
    + rewrite lookup_take_lt by (simpl; lia). rewrite Hlook.
      destruct (decide (26 <= i < _)%nat) as [? | _]; [lia|].
      destruct (decide (i = 25)%nat) as [? | _]; [lia|].
      destruct (decide (i = 24)%nat) as [? | _]; [lia|].
      destruct (decide (8 <= i < 24)%nat) as [? | _]; [lia|].
      destruct (decide (i < 8)%nat) as [_ | ?]; [|lia].
      do 7 (destruct i as [|i]; [reflexivity|]). lia.
    + rewrite lookup_take_ge by (simpl; lia).
      symmetry. apply lookup_ge_None_2. simpl. lia.
  - apply list_eq. intros i.
    destruct (decide (i < 16)%nat) as [Hi | Hi].
    + rewrite lookup_take_lt by lia. rewrite lookup_drop, Hlook.
      destruct (decide (26 <= 8 + i < _)%nat) as [? | _]; [lia|].
      destruct (decide (8 + i = 25)%nat) as [? | _]; [lia|].
      destruct (decide (8 + i = 24)%nat) as [? | _]; [lia|].
      destruct (decide (8 <= 8 + i < 24)%nat) as [_ | ?]; [|lia].
      f_equal. lia.
    + rewrite lookup_take_ge by lia.
      symmetry. apply lookup_ge_None_2. lia.
  - rewrite bool_decide_true by reflexivity. cbn [FS.assertion mbind option_bind].
    rewrite Hlen5. rewrite FSBasics.u64_small by lia. f_equal. lia.
  - intros pos Hpos.
    rewrite bool_decide_true by reflexivity. cbn [FS.assertion mbind option_bind].
    rewrite Hlen5, FSBasics.u64_small by lia.
    rewrite bool_decide_true by lia. cbn [FS.assertion mbind option_bind].
    rewrite Hlook.
    destruct (decide (26 <= Z.to_nat (26 + pos) < _)%nat) as [_ | ?]; [|lia].
    f_equal. lia.
Qed.

Lemma p00_holds_the_file_witness :
  exists f,
    makeWithFileSystem (mkFileSystemView 1 3 (replicate 16 0xA0) [1; 8; 11])
    = Some (MadeFile f)
    /\ size f = fileSize (mkFileSystemView 1 3 (replicate 16 0xA0) [1; 8; 11]) + 26
    /\ isCompatibleStream (data f) = true
    /\ take 16 (drop 8 (data f))
       = fileName (mkFileSystemView 1 3 (replicate 16 0xA0) [1; 8; 11])
    /\ collectionCount f = 1
    /\ itemSize f 0 = Some (fileSize (mkFileSystemView 1 3 (replicate 16 0xA0) [1; 8; 11]))
    /\ (forall pos,
          0 <= pos < fileSize (mkFileSystemView 1 3 (replicate 16 0xA0) [1; 8; 11]) ->
          readByte f 0 pos
          = fileBytes (mkFileSystemView 1 3 (replicate 16 0xA0) [1; 8; 11])
              !! Z.to_nat pos).
Proof.
  apply (p00_holds_the_file (mkFileSystemView 1 3 (replicate 16 0xA0) [1; 8; 11]));
    simpl; try reflexivity; lia.
Defined.

End P00Proofs.

Module FSDirRoom.
Import FS FSOps.

(** ** The directory walk over linked blocks *)

Lemma nextBlockPtr_cell dev p :
  wfBlocks dev -> (p < length (blocks dev))%nat ->
  nextBlockPtr dev (Some p) = Some (blockPtr_ts dev (cell dev p 0) (cell dev p 1)).
Proof.
  intros Hwf Hp.
  destruct (lookup_lt_is_Some_2 (blocks dev) p Hp) as [blk Hblk].
  pose proof (Hwf p blk Hblk) as Hlen.
  unfold nextBlockPtr.
  rewrite (FSBam.peek_eq dev p blk 0 Hblk) by lia.
  rewrite (FSBam.peek_eq dev p blk 1 Hblk) by lia.
  cbn [mbind option_bind].
  rewrite !(FSAllocate.cell_lookup dev p blk _ Hblk). reflexivity.
Qed.

Lemma dirSlots_block dev p n i ptr' rest :
  i mod 8 = 0 ->
  nextBlockPtr dev (Some p) = Some ptr' ->
  dirSlots dev n (i + 8) ptr' = Some rest ->
  dirSlots dev (8 + n) i (Some p)
  = Some (((fun j => mkEntryPtr p j) <$> seqZ 0 8) ++ rest).
Proof.
  intros Hi Hnext Hrest.
  assert (Hmod : forall j, 0 <= j < 8 -> (i + j) mod 8 = j).
  { intros j Hj. rewrite Z.add_mod by lia. rewrite Hi, Z.add_0_l.
    rewrite Z.mod_mod by lia. apply Z.mod_small. lia. }
  change (8 + n)%nat with (S (S (S (S (S (S (S (S n)))))))).
  cbn [dirSlots].
  replace (i mod 8) with 0 by (symmetry; exact Hi).
  replace (i + 1 + 1) with (i + 2) by lia.
  replace (i + 2 + 1) with (i + 3) by lia.
  replace (i + 3 + 1) with (i + 4) by lia.
  replace (i + 4 + 1) with (i + 5) by lia.
  replace (i + 5 + 1) with (i + 6) by lia.
  replace (i + 6 + 1) with (i + 7) by lia.
  replace (i + 7 + 1) with (i + 8) by lia.
  rewrite (Hmod 1), (Hmod 2), (Hmod 3), (Hmod 4), (Hmod 5), (Hmod 6), (Hmod 7) by lia.
  repeat match goal with
         | |- context [decide (?a = 7)] =>
             destruct (decide (a = 7)) as [?|?]; [try lia | try lia];
             cbn [mbind option_bind]
         end.
  rewrite Hnext. cbn [mbind option_bind]. rewrite Hrest. reflexivity.
Qed.

Lemma dirSlots_chain dev (ptrs : list nat) :
  forall (p : nat) (n : nat) (i : Z),
  wfBlocks dev -> i mod 8 = 0 ->
  Forall (fun q => (q < length (blocks dev))%nat) (p :: ptrs) ->
  (forall j q q', (p :: ptrs) !! j = Some q -> (p :: ptrs) !! S j = Some q' ->
     blockPtr_ts dev (cell dev q 0) (cell dev q 1) = Some q') ->
  (forall q, last (p :: ptrs) = Some q ->
     blockPtr_ts dev (cell dev q 0) (cell dev q 1) = None) ->
  (8 * length (p :: ptrs) <= n)%nat ->
  dirSlots dev n i (Some p)
  = Some (mbind (fun q => (fun j => mkEntryPtr q j) <$> seqZ 0 8) (p :: ptrs)).
Proof.
  induction ptrs as [|p' ptrs IH]; intros p n i Hwf Hi Hvalid Hlinks Hlast Hn.
  - apply Forall_cons in Hvalid as [Hp _].
    cbn [length] in Hn. replace n with (8 + (n - 8))%nat by lia.
    rewrite (dirSlots_block dev p (n - 8) i None []); try assumption.
    + cbn [mbind list_bind]. rewrite app_nil_r. reflexivity.
    + rewrite (nextBlockPtr_cell dev p Hwf Hp). f_equal. apply Hlast. reflexivity.
    + destruct (n - 8)%nat; reflexivity.
  - apply Forall_cons in Hvalid as [Hp Hvalid].
    cbn [length] in Hn. replace n with (8 + (n - 8))%nat by lia.
    rewrite (dirSlots_block dev p (n - 8) i (Some p')
               (mbind (fun q => (fun j => mkEntryPtr q j) <$> seqZ 0 8) (p' :: ptrs)));
      try assumption.
    + reflexivity.
    + rewrite (nextBlockPtr_cell dev p Hwf Hp). f_equal.
      apply (Hlinks 0%nat p p'); reflexivity.
    + apply IH; try assumption.
      * rewrite Z.add_mod by lia. rewrite Hi. reflexivity.
      * intros j q q' Hq Hq'. apply (Hlinks (S j) q q'); assumption.
      * cbn [length]. lia.
Qed.

Lemma dirRefs_length l k t s : length (dirRefs l k t s) = S k.
Proof.
  revert t s. induction k as [|k IH]; intros t s; cbn [dirRefs]; [reflexivity|].
  destruct (nextTrackAndSector l t s) as [ok [t' s']]. cbn [length]. rewrite IH.
  reflexivity.
Qed.

(** X27: [setCapacity(n)] makes room for [n] files.  If the directory
    blocks that it links, the (n + 7) / 8 blocks from (18,1) on in the
    [nextTrackAndSector] order, are different blocks of the device with
    track and sector numbers below 256, and the last of them holds a link
    that names no block, then after the call the directory walk that
    [scanDirectory], [nextFreeDirEntry] and [makeFile] take visits exactly
    the eight slots of each of these blocks, in order: 8 * ((n + 7) / 8)
    slots, at least [n]. *)
Theorem setCapacity_makes_room (dev : FSDevice) (n : Z) (k : nat) :
  wfBlocks dev ->
  1 <= n <= 144 ->
  k = Z.to_nat ((n + 7) / 8 - 1) ->
  (forall j rj, dirRefs (layout dev) k 18 1 !! j = Some rj ->
     0 <= ref_t rj < 256 /\ 0 <= ref_s rj < 256
     /\ blockOf (layout dev) rj < Z.of_nat (length (blocks dev))
     /\ ((j < k)%nat ->
         (nextTrackAndSector (layout dev) (ref_t rj) (ref_s rj)).1 = true)) ->
  NoDup (ptrOf (layout dev) <$> dirRefs (layout dev) k 18 1) ->
  (forall rk, dirRefs (layout dev) k 18 1 !! k = Some rk ->
     blockPtr_ts dev (cell dev (ptrOf (layout dev) rk) 0)
                     (cell dev (ptrOf (layout dev) rk) 1) = None) ->
  exists dev' slots,
    setCapacity dev n = Some (dev', true)
    /\ dirSlots dev' 144 0 (blockPtr_ts dev' 18 1) = Some slots
    /\ slots = mbind (fun r => (fun j => mkEntryPtr (ptrOf (layout dev) r) j) <$> seqZ 0 8)
                     (dirRefs (layout dev) k 18 1)
    /\ Z.of_nat (length slots) = 8 * ((n + 7) / 8)
    /\ n <= Z.of_nat (length slots).
Proof.
  intros Hwf Hn Hk Hrefs Hnodup Hend.
  set (l := layout dev) in *. set (refs := dirRefs l k 18 1) in *.
  assert (Hq : 1 <= (n + 7) / 8 <= 18).
  { split; [apply Z.div_le_lower_bound; lia|].
    assert ((n + 7) / 8 < 19) by (apply Z.div_lt_upper_bound; lia). lia. }
  assert (Hlen : length refs = S k) by apply dirRefs_length.
  assert (Hnodupk : NoDup (ptrOf l <$> take k refs)).
  { rewrite fmap_take. apply (sublist_NoDup _ _ Hnodup), sublist_take. }
  destruct (FSCapacity.setCapacity_loop_spec l k k dev 18 1 eq_refl Hwf (le_n k))
    as (dev' & Hloop & Hsh & Hwf' & Hlinks & Hframe).
  { intros j rj Hj Hrj. destruct (Hrefs j rj Hrj) as (_ & _ & Hblk & Hok).
    split; [apply Hok; exact Hj | exact Hblk]. }
  { exact Hnodupk. }
  { intros Hlt. lia. }
  rewrite bool_decide_true in Hloop by reflexivity.
  fold refs in Hlinks, Hframe.
  pose proof Hsh as [Hlay' Hsz'].
  assert (Hrun : setCapacity dev n = Some (dev', true)).
  { unfold setCapacity. rewrite bool_decide_true by lia.
    cbn [assertion mbind option_bind].
    rewrite FSBasics.u32_small by lia. rewrite <- Hk. exact Hloop. }
  (* pointers *)
  assert (Hptr : forall r, blockOf l r < Z.of_nat (length (blocks dev)) ->
            blockPtr_ts dev' (ref_t r) (ref_s r) = Some (ptrOf l r)
            /\ (ptrOf l r < length (blocks dev'))%nat).
  { intros r Hr.
    destruct (FSAllocate.blockPtr_ref_ptrOf dev' r) as (_ & H1 & H2).
    - rewrite Hlay', Hsz'. exact Hr.
    - rewrite Hlay' in H1, H2. split; assumption. }
  destruct (lookup_lt_is_Some_2 refs 0%nat) as [r0 Hr0]; [lia|].
  assert (r0 = mkBlockRef 18 1).
  { unfold refs in Hr0. rewrite FSCapacity.dirRefs_head in Hr0. congruence. }
  subst r0.
  destruct (Hrefs 0%nat _ Hr0) as (_ & _ & Hblk0 & _).
  destruct (Hptr _ Hblk0) as [Hp0 _]. cbn [ref_t ref_s] in Hp0.
  (* the walk *)
  assert (Hwalk : dirSlots dev' 144 0 (Some (ptrOf l (mkBlockRef 18 1)))
                  = Some (mbind (fun q => (fun j => mkEntryPtr q j) <$> seqZ 0 8)
                                (ptrOf l <$> refs))).
  { destruct refs as [|r refs'] eqn:Hrefs_eq; [discriminate|].
    injection Hr0 as ->. rewrite fmap_cons.
    apply dirSlots_chain; try assumption; try reflexivity.
    - rewrite <- fmap_cons. apply Forall_fmap, Forall_forall. intros r Hr.
      apply list_elem_of_lookup_1 in Hr as [j Hj].
      destruct (Hrefs j r Hj) as (_ & _ & Hblk & _).
      apply (Hptr r Hblk).
    - rewrite <- fmap_cons. intros j q q' Hpj Hpj'.
      rewrite list_lookup_fmap in Hpj, Hpj'.
      destruct ((mkBlockRef 18 1 :: refs') !! j) as [rj|] eqn:Hj; [|discriminate].
      destruct ((mkBlockRef 18 1 :: refs') !! S j) as [rj'|] eqn:Hj'; [|discriminate].
      injection Hpj as <-. injection Hpj' as <-.
      assert (Hjk : (j < k)%nat).
      { apply lookup_lt_Some in Hj'. rewrite Hlen in Hj'. lia. }
      destruct (Hlinks j rj rj' Hjk Hj Hj') as [-> ->].
      destruct (Hrefs (S j) rj' Hj') as (Ht & Hs & Hblk & _).
      unfold u8. rewrite !Z.mod_small by lia. apply (Hptr rj' Hblk).
    - rewrite <- fmap_cons. intros q Hpq.
      rewrite last_lookup, length_fmap, Hlen, list_lookup_fmap in Hpq.
      cbn [pred] in Hpq.
      destruct ((mkBlockRef 18 1 :: refs') !! k) as [rk|] eqn:Hrk; [|discriminate].
      injection Hpq as <-.
      assert (Hnin : ptrOf l rk ∉ (ptrOf l <$> take k (mkBlockRef 18 1 :: refs'))).
      { intros Hin. apply list_elem_of_fmap in Hin as (r' & Heq & Hin).
        apply list_elem_of_lookup_1 in Hin as [j Hj].
        apply lookup_take_Some in Hj as [Hj Hjk].
        assert (j = k); [|lia].
        eapply (NoDup_lookup _ j k (ptrOf l rk) Hnodup).
        - rewrite list_lookup_fmap, Hj. simpl. congruence.
        - rewrite list_lookup_fmap, Hrk. reflexivity. }
      rewrite !Hframe by (try lia; left; exact Hnin).
      unfold blockPtr_ts, blockPtr. rewrite Hlay', Hsz'.
      apply Hend. reflexivity.
    - cbn [length] in Hlen |- *. rewrite length_fmap. lia. }
  exists dev', (mbind (fun r => (fun j => mkEntryPtr (ptrOf l r) j) <$> seqZ 0 8) refs).
  split; [exact Hrun|]. split.
  { rewrite Hp0, Hwalk. f_equal. clear.
    induction refs as [|r refs IH]; [reflexivity|].
    rewrite fmap_cons. cbn [mbind list_bind]. f_equal. exact IH. }
  split; [reflexivity|].
  assert (Hcount : forall rs : list BlockRef,
            length (mbind (fun r => (fun j => mkEntryPtr (ptrOf l r) j) <$> seqZ 0 8) rs)
            = (8 * length rs)%nat).
  { induction rs as [|r rs IH]; [reflexivity|].
    cbn [mbind list_bind]. rewrite length_app, IH, length_fmap, length_seqZ.
    cbn [length]. lia. }
  rewrite Hcount, Hlen.
  assert (Z.of_nat k = (n + 7) / 8 - 1) by lia.
  assert (n <= 8 * ((n + 7) / 8)).
  { pose proof (Z.mod_pos_bound (n + 7) 8 ltac:(lia)).
    pose proof (Z.div_mod (n + 7) 8 ltac:(lia)). lia. }
  split; lia.
Qed.

Lemma setCapacity_makes_room_witness :
  exists dev' slots,
    setCapacity formatted 20 = Some (dev', true)
    /\ dirSlots dev' 144 0 (blockPtr_ts dev' 18 1) = Some slots
    /\ slots = mbind (fun r => (fun j => mkEntryPtr (ptrOf (layout formatted) r) j)
                                 <$> seqZ 0 8)
                     (dirRefs (layout formatted) 2 18 1)
    /\ Z.of_nat (length slots) = 8 * ((20 + 7) / 8)
    /\ 20 <= Z.of_nat (length slots).
Proof.
  apply (setCapacity_makes_room formatted 20 2).
  - exact FSDirectory.formatted_wf.
  - lia.
  - reflexivity.
  - intros j rj Hrj.
    do 3 (destruct j as [|j];
          [injection Hrj as <-; vm_compute;
           repeat split; try discriminate; try reflexivity; intros; reflexivity|]).
    discriminate.
  - apply (bool_decide_unpack
             (NoDup (ptrOf (layout formatted) <$> dirRefs (layout formatted) 2 18 1))).
    vm_compute. exact I.
  - intros rk Hrk. injection Hrk as <-. vm_compute. reflexivity.
Defined.

End FSDirRoom.

Module FSMakeFileNext.
Import FS FSOps.

(** ** The directory after [makeFile] *)

Lemma directory_walk (isEmpty isHidden : list Z -> bool) (dev : FSDevice) :
  wfBlocks dev ->
  exists slots,
    dirSlots dev 144 0 (blockPtr_ts dev 18 1) = Some slots
    /\ scanDirectory isEmpty isHidden dev false
       = Some (before (fun e => isEmpty (entryOf dev e)) slots)
    /\ nextFreeDirEntry isEmpty dev
       = Some (slots !! length (before (fun e => isEmpty (entryOf dev e)) slots)).
Proof.
  intros Hwf.
  destruct (FSDirSearch.nextFreeDirEntry_loop_spec isEmpty dev Hwf 144 0
              (blockPtr_ts dev 18 1))
    as (slots & Hslots & Hfree & _).
  { intros p Hp. eapply FSDirectory.blockPtr_ts_valid, Hp. }
  destruct (FSDirectory.scanDirectory_loop_spec isEmpty isHidden dev false Hwf
              144 0 (blockPtr_ts dev 18 1) [])
    as (slots' & Hslots' & _ & Hscan).
  { intros p Hp. eapply FSDirectory.blockPtr_ts_valid, Hp. }
  assert (slots' = slots) by congruence. subst slots'.
  exists slots. split; [exact Hslots|]. split; [|exact Hfree].
  unfold scanDirectory. rewrite Hscan. cbn [app]. f_equal.
  clear. generalize (before (fun e => isEmpty (entryOf dev e)) slots).
  intros l. induction l as [|x xs IHxs]; [reflexivity|].
  cbn [List.filter andb negb]. f_equal. exact IHxs.
Qed.

Lemma dirSlots_first_two dev p (n : nat) slots :
  dirSlots dev (S (S n)) 0 (Some p) = Some slots ->
  exists rest, slots = mkEntryPtr p 0 :: mkEntryPtr p 1 :: rest.
Proof.
  cbn [dirSlots].
  change (0 mod 8) with 0. change ((0 + 1) mod 8) with 1.
  destruct (decide (0 = 7)) as [?|_]; [lia|].
  destruct (decide (1 = 7)) as [?|_]; [lia|].
  cbn [mbind option_bind].
  destruct (dirSlots dev n (0 + 1 + 1) (Some p)) as [rest|];
    cbn [mbind option_bind]; [|discriminate].
  intros [= <-]. exists rest. reflexivity.
Qed.

(** X28: [makeFile] fills the directory in order.  On a single-sided,
    single-density disk with its BAM in place, block (1,0) free and the
    first two directory slots empty, the free directory entry before the
    call is slot 0 of block (18,1); after [makeFile] has written a file of
    1 to 164 * 254 bytes, [nextFreeDirEntry] returns slot 1 of the same
    block, the one behind the entry just written. *)
Theorem makeFile_takes_next_entry (dev : FSDevice) (d name buf : list Z)
    (fuel : nat) :
  layout dev = DISK_SS_SD ->
  length (blocks dev) = 683%nat ->
  wfBlocks dev ->
  bamBlock dev d ->
  isFree dev 1 0 = Some true ->
  FSDirEntry_isEmpty (entryOf dev (mkEntryPtr 358 0)) = true ->
  FSDirEntry_isEmpty (entryOf dev (mkEntryPtr 358 1)) = true ->
  (0 < fuel)%nat ->
  0 < Z.of_nat (length buf) <= 164 * 254 ->
  exists dev',
    makeFile FSDirEntry_isEmpty fuel dev name buf = Some (dev', true)
    /\ nextFreeDirEntry FSDirEntry_isEmpty dev = Some (Some (mkEntryPtr 358 0))
    /\ nextFreeDirEntry FSDirEntry_isEmpty dev' = Some (Some (mkEntryPtr 358 1)).
Proof.
  intros Hlay Hlen Hwf Hbam Hfree He0 He1 Hfuel Hbuf.
  destruct (FSMakeFileSSSD.SS_SD_pointers dev Hlay Hlen) as [Hpb Hpd].
  assert (Hfree' : isFree_ref dev (mkBlockRef 1 0) = Some true).
  { rewrite (FSMakeFileSSSD.SS_SD_isFree_ref dev 1 0 Hlay). exact Hfree. }
  assert (Hchain : chainOk DISK_SS_SD (Z.of_nat (length (blocks dev)))
                     (chainRefs DISK_SS_SD 164 (mkBlockRef 1 0))).
  { rewrite Hlen. exact FSMakeFileSSSD.SS_SD_chain_164. }
  assert (Hne : 358%nat <> 357%nat) by discriminate.
  assert (Hbuf' : 0 < Z.of_nat (length buf) <= 254 * Z.of_nat 164) by lia.
  assert (HK : Z.of_nat 164 < 65536) by lia.
  destruct (FSMakeFile.makeFile_effect DISK_SS_SD dev d 357 358 name buf fuel 164
              Hlay Hwf FSBam.DISK_SS_SD_fits Hbam Hpb Hpd Hne eq_refl Hfree' Hfuel
              Hchain Hbuf' HK He0 He1)
    as (dev1 & dev' & _ & Hrun & [Hlay' Hsz'] & Hwf' & _).
  destruct (FSMakeFile.makeFile_result DISK_SS_SD dev d 357 358 name buf fuel 164
              Hlay Hwf FSBam.DISK_SS_SD_fits Hbam Hpb Hpd Hne eq_refl Hfree' Hfuel
              Hchain Hbuf' HK He0 He1 (fun _ => false))
    as (dev1' & dev'' & out & _ & _ & Hrun' & _ & Hscan & _).
  assert (dev'' = dev') by congruence. subst dev''.
  exists dev'. split; [exact Hrun|]. split.
  - destruct (directory_walk FSDirEntry_isEmpty (fun _ => false) dev Hwf)
      as (slots & Hslots & _ & Hnext).
    rewrite Hpd in Hslots.
    destruct (dirSlots_first_two dev 358 142 slots Hslots) as [rest ->].
    rewrite Hnext. cbn [before]. rewrite He0. reflexivity.
  - destruct (directory_walk FSDirEntry_isEmpty (fun _ => false) dev' Hwf')
      as (slots & Hslots & Hscan' & Hnext).
    destruct (FSMakeFileSSSD.SS_SD_pointers dev') as [_ Hpd'].
    { rewrite Hlay'. exact Hlay. }
    { rewrite Hsz'. exact Hlen. }
    rewrite Hpd' in Hslots.
    destruct (dirSlots_first_two dev' 358 142 slots Hslots) as [rest ->].
    rewrite Hscan in Hscan'. rewrite Hnext. cbn [before] in Hscan' |- *.
    destruct (FSDirEntry_isEmpty (entryOf dev' (mkEntryPtr 358 0))); [discriminate|].
    destruct (FSDirEntry_isEmpty (entryOf dev' (mkEntryPtr 358 1))); [reflexivity|].
    discriminate.
Qed.

Lemma makeFile_takes_next_entry_witness :
  exists dev',
    makeFile FSDirEntry_isEmpty 1 formatted [72; 69; 76; 76; 79]
      (seqZ 1 200 ++ seqZ 1 200 ++ seqZ 1 200) = Some (dev', true)
    /\ nextFreeDirEntry FSDirEntry_isEmpty formatted = Some (Some (mkEntryPtr 358 0))
    /\ nextFreeDirEntry FSDirEntry_isEmpty dev' = Some (Some (mkEntryPtr 358 1)).
Proof.
  apply (makeFile_takes_next_entry formatted emptyBAM [72; 69; 76; 76; 79]
           (seqZ 1 200 ++ seqZ 1 200 ++ seqZ 1 200) 1).
  - reflexivity.
  - vm_compute. reflexivity.
  - exact FSDirectory.formatted_wf.
  - exact FSBam.formatted_bamBlock.
  - vm_compute. reflexivity.
  - exact (proj1 FSMakeFileSSSD.formatted_dir_empty).
  - exact (proj2 FSMakeFileSSSD.formatted_dir_empty).
  - lia.
  - vm_compute. split; [reflexivity | discriminate].
Defined.

End FSMakeFileNext.

Module FSMakeFileRead.
Import FS FSOps.

(** ** Reading the bytes of a file that [makeFile] has written *)

(** X29: the blocks of a file hold its bytes.  On a single-sided,
    single-density disk with its BAM in place, block (1,0) free and the
    first two directory slots empty, after [makeFile] has written a payload
    of 1 to 164 * 254 bytes, byte [i] of the payload is the byte that
    [readByte] returns for offset 2 + i mod 254 of the block with index
    i / 254 in the run of blocks from (1,0) on. *)
Theorem makeFile_readByte (dev : FSDevice) (d name buf : list Z) (fuel : nat) :
  layout dev = DISK_SS_SD ->
  length (blocks dev) = 683%nat ->
  wfBlocks dev ->
  bamBlock dev d ->
  isFree dev 1 0 = Some true ->
  FSDirEntry_isEmpty (entryOf dev (mkEntryPtr 358 0)) = true ->
  FSDirEntry_isEmpty (entryOf dev (mkEntryPtr 358 1)) = true ->
  (0 < fuel)%nat ->
  0 < Z.of_nat (length buf) <= 164 * 254 ->
  let k := Z.to_nat ((Z.of_nat (length buf) + 253) / 254) in
  exists dev',
    makeFile FSDirEntry_isEmpty fuel dev name buf = Some (dev', true)
    /\ forall i, 0 <= i < Z.of_nat (length buf) ->
         exists r,
           chainRefs DISK_SS_SD k (mkBlockRef 1 0) !! Z.to_nat (i / 254) = Some r
           /\ readByte dev' (blockOf DISK_SS_SD r) (2 + i mod 254)
              = Some (byteAt buf i).
Proof.
  intros Hlay Hlen Hwf Hbam Hfree He0 He1 Hfuel Hbuf k.
  destruct (FSMakeFileSSSD.SS_SD_pointers dev Hlay Hlen) as [Hpb Hpd].
  assert (Hfree' : isFree_ref dev (mkBlockRef 1 0) = Some true).
  { rewrite (FSMakeFileSSSD.SS_SD_isFree_ref dev 1 0 Hlay). exact Hfree. }
  assert (Hchain : chainOk DISK_SS_SD (Z.of_nat (length (blocks dev)))
                     (chainRefs DISK_SS_SD 164 (mkBlockRef 1 0))).
  { rewrite Hlen. exact FSMakeFileSSSD.SS_SD_chain_164. }
  assert (Hne : 358%nat <> 357%nat) by discriminate.
  assert (Hbuf' : 0 < Z.of_nat (length buf) <= 254 * Z.of_nat 164) by lia.
  assert (HK : Z.of_nat 164 < 65536) by lia.
  destruct (FSMakeFile.makeFile_effect DISK_SS_SD dev d 357 358 name buf fuel 164
              Hlay Hwf FSBam.DISK_SS_SD_fits Hbam Hpb Hpd Hne eq_refl Hfree' Hfuel
              Hchain Hbuf' HK He0 He1)
    as (dev1 & dev' & _ & Hrun & [Hlay' Hsz'] & Hwf' & _ & _ & Hdata & _).
  fold k in Hdata.
  exists dev'. split; [exact Hrun|].
  intros i Hi.
  pose proof (FSFile.blocks_needed (Z.of_nat (length buf)) ltac:(lia)) as Hneed.
  pose proof (Z.div_mod i 254 ltac:(lia)) as Hdm.
  pose proof (Z.mod_pos_bound i 254 ltac:(lia)) as Hmod.
  assert (Hq : 0 <= i / 254) by (apply Z.div_pos; lia).
  assert (Hk164 : (k <= 164)%nat).
  { unfold k. assert ((Z.of_nat (length buf) + 253) / 254 < 165)
      by (apply Z.div_lt_upper_bound; lia). lia. }
  assert (Ha : (Z.to_nat (i / 254) < k)%nat) by (unfold k; lia).
  destruct (lookup_lt_is_Some_2 (chainRefs DISK_SS_SD k (mkBlockRef 1 0))
              (Z.to_nat (i / 254))) as [r Hr].
  { rewrite FSAllocate.chainRefs_length. exact Ha. }
  exists r. split; [exact Hr|].
  assert (Hr164 : chainRefs DISK_SS_SD 164 (mkBlockRef 1 0) !! Z.to_nat (i / 254)
                  = Some r).
  { rewrite (FSFile.chainRefs_take DISK_SS_SD 164 (mkBlockRef 1 0) k) in Hr by lia.
    apply lookup_take_Some in Hr as [Hr _]. exact Hr. }
  destruct (FSAllocate.chainOk_lookup _ _ _ _ _ Hchain Hr164)
    as (_ & _ & _ & Hblk & _).
  pose proof (FSAllocate.blockOf_nonneg DISK_SS_SD r) as H0.
  rewrite FSWriteByte.readByte_cell by (try assumption; rewrite ?Hsz'; lia).
  f_equal. fold (ptrOf DISK_SS_SD r).
  rewrite (Hdata (Z.to_nat (i / 254)) r (2 + i mod 254) Hr) by lia.
  f_equal. lia.
Qed.

Lemma makeFile_readByte_witness :
  let k := Z.to_nat ((Z.of_nat (length (seqZ 1 200 ++ seqZ 1 200)) + 253) / 254) in
  exists dev',
    makeFile FSDirEntry_isEmpty 1 formatted [72; 73] (seqZ 1 200 ++ seqZ 1 200)
    = Some (dev', true)
    /\ forall i, 0 <= i < Z.of_nat (length (seqZ 1 200 ++ seqZ 1 200)) ->
         exists r,
           chainRefs DISK_SS_SD k (mkBlockRef 1 0) !! Z.to_nat (i / 254) = Some r
           /\ readByte dev' (blockOf DISK_SS_SD r) (2 + i mod 254)
              = Some (byteAt (seqZ 1 200 ++ seqZ 1 200) i).
Proof.
  apply (makeFile_readByte formatted emptyBAM [72; 73] (seqZ 1 200 ++ seqZ 1 200) 1).
  - reflexivity.
  - vm_compute. reflexivity.
  - exact FSDirectory.formatted_wf.
  - exact FSBam.formatted_bamBlock.
  - vm_compute. reflexivity.
  - exact (proj1 FSMakeFileSSSD.formatted_dir_empty).
  - exact (proj2 FSMakeFileSSSD.formatted_dir_empty).
  - lia.
  - vm_compute. split; [reflexivity | discriminate].
Defined.

End FSMakeFileRead.
